(** * bayer2tga: Bayer RG10 sensor frame to TGA conversion

    A shallow embedding of [bayer2tga.c] and the verification of its
    specification.  The program reads one raw frame of an IMX477 sensor,
    stretches the samples to the full 10-bit range ([normalize_frame]),
    turns every 2x2 mosaic block into one BGR pixel ([debayer]) and saves
    the image behind an 18-byte TGA header ([write_tga]).

    Modelling decisions.
    - [uint16_t] and [uint8_t] buffers are lists of [Z]; a load or a store
      outside the buffer is undefined behaviour and is [None].
    - [float] is IEEE 754 binary32 with round-to-nearest-even, evaluated in
      single precision: the operations are those of the standard library's
      [SpecFloat] at precision 24 and maximal exponent 128.
    - The conversion of a floating value to an unsigned integer type drops
      the fraction; it is undefined ([None]) for NaN, for an infinity and
      when the integral part does not fit the type (C11 6.3.1.4).
    - [WIDTH] and [HEIGHT] are compile-time constants of the program
      (1920 and 1080).  The embedding takes them from a [Geometry], so that
      the same code can also be read at the one-block geometry the
      specification uses in its scenario; [IMX477] is the geometry of the
      source file.  All index arithmetic is done in [int]; for the geometry
      of the source every index stays far below [2^31]. *)

From Stdlib Require Import ZArith Zpower Lia Bool.
From Stdlib Require Import Floats.SpecFloat.
From stdpp Require Import base option list gmap strings.

Local Open Scope Z_scope.
Set Default Proof Using "Type".

(* ================================================================== *)
(** * Part I: the program *)
(* ================================================================== *)

(** ** Single-precision arithmetic *)

Definition f32_prec : Z := 24.
Definition f32_emax : Z := 128.

(** [(float) n] for an integer [n]. *)
Definition f32_of_int (n : Z) : spec_float :=
  binary_normalize f32_prec f32_emax n 0 false.

Definition f32_mul : spec_float → spec_float → spec_float := SFmul f32_prec f32_emax.
Definition f32_div : spec_float → spec_float → spec_float := SFdiv f32_prec f32_emax.
Definition f32_sub : spec_float → spec_float → spec_float := SFsub f32_prec f32_emax.

(** The integral part of a floating value (the fraction is discarded). *)
Definition float_trunc (f : spec_float) : option Z :=
  match f with
  | S754_zero _ => Some 0
  | S754_finite s m e => Some (cond_Zopp s (Z.shiftl (Z.pos m) e))
  | S754_infinity _ | S754_nan => None
  end.

(** [round] of <math.h>: the nearest integer, halfway cases away from zero.
    The argument is promoted to [double] without loss and the result is an
    integer, so it is given as a [Z]; NaN and the infinities are returned
    unchanged by [round] and have no integer value. *)
Definition float_round (f : spec_float) : option Z :=
  match f with
  | S754_zero _ => Some 0
  | S754_finite s m e => Some (cond_Zopp s ((Z.shiftl (Z.pos m) (e + 1) + 1) / 2))
  | S754_infinity _ | S754_nan => None
  end.

(** Conversion of an integral value to an unsigned type of [bits] bits. *)
Definition to_unsigned (bits : Z) (v : Z) : option Z :=
  if decide (0 ≤ v < 2 ^ bits) then Some v else None.

Definition float_to_uint8 (f : spec_float) : option Z :=
  float_trunc f ≫= to_unsigned 8.

Definition round_to_uint16 (f : spec_float) : option Z :=
  float_round f ≫= to_unsigned 16.

(** ** Geometry and the macros of the source *)

Class Geometry := { WIDTH : Z; HEIGHT : Z }.

(** The geometry compiled into [bayer2tga.c]. *)
Definition IMX477 : Geometry := {| WIDTH := 1920; HEIGHT := 1080 |}.

(** The geometry of a frame that is a single mosaic block. *)
Definition one_block : Geometry := {| WIDTH := 1; HEIGHT := 1 |}.

Definition RG10_BITS : Z := 10.
Definition RGB_BITS : Z := 8.
Definition MAX_RG10 : Z := Z.shiftl 1 RG10_BITS - 1.
Definition MAX_RGB : Z := Z.shiftl 1 RGB_BITS - 1.

Definition RG10_COLOR_SIZE : Z := 2.
Definition RGB_COLOR_SIZE : Z := 1.
Definition RG10_COLORS : Z := 4.
Definition RGB_COLORS : Z := 3.

Definition RG10_R : Z := 0.
Definition RG10_Gr : Z := RG10_R + 1.
Definition RG10_Gb `{Geometry} : Z := WIDTH * RG10_COLOR_SIZE.
Definition RG10_B `{Geometry} : Z := RG10_Gb + 1.

Definition RGB_R : Z := 2.
Definition RGB_G : Z := 1.
Definition RGB_B : Z := 0.

(** Sizes in bytes. *)
Definition RG10_SIZE `{Geometry} : Z := WIDTH * HEIGHT * RG10_COLORS * RG10_COLOR_SIZE.
Definition RGB_SIZE `{Geometry} : Z := WIDTH * HEIGHT * RGB_COLORS * RGB_COLOR_SIZE.

(** The number of [uint16_t] samples of a frame. *)
Definition RG10_SAMPLES `{Geometry} : Z := WIDTH * HEIGHT * RG10_COLORS.

(** [NORM(V)] is [(V*((float)MAX_RGB/MAX_RG10))]: the quotient is a [float]
    division, and the integer [V] is converted to [float] for the product. *)
Definition NORM (V : Z) : spec_float :=
  f32_mul (f32_of_int V) (f32_div (f32_of_int MAX_RGB) (f32_of_int MAX_RG10)).

Definition RG10_LOCATION `{Geometry} (X Y COLOR : Z) : Z :=
  Y * WIDTH * RG10_COLORS + X * RG10_COLOR_SIZE + COLOR.

Definition RGB_LOCATION `{Geometry} (X Y COLOR : Z) : Z :=
  Y * WIDTH * RGB_COLORS + X * RGB_COLORS + COLOR.

(** ** Buffers *)

(** [*(buff + i)] as an rvalue. *)
Definition load (buff : list Z) (i : Z) : option Z :=
  if decide (0 ≤ i) then buff !! Z.to_nat i else None.

(** [*(buff + i) = v]. *)
Definition store (buff : list Z) (i v : Z) : option (list Z) :=
  if decide (0 ≤ i < Z.of_nat (length buff))
  then Some (<[Z.to_nat i := v]> buff) else None.

(** [malloc(n)]: a block of [n] bytes of indeterminate content; [junk]
    says what happens to be there. *)
Definition malloc (junk : nat → Z) (n : Z) : list Z :=
  (λ i, junk i `mod` 256) <$> seq 0 (Z.to_nat n).

(** A block of bytes seen through a [uint16_t *] on a little-endian host. *)
Fixpoint samples_of_bytes (bytes : list Z) : list Z :=
  match bytes with
  | lo :: hi :: rest => (lo + 256 * hi) :: samples_of_bytes rest
  | _ => []
  end.

(** ** Loops *)

Fixpoint for_loop_from {S : Type} (iterations : nat) (i : Z)
    (body : Z → S → option S) (s : S) : option S :=
  match iterations with
  | O => Some s
  | Datatypes.S k => body i s ≫= for_loop_from k (i + 1) body
  end.

(** [for (int i = 0; i < n; i++) body]. *)
Definition for_loop {S : Type} (n : Z) (body : Z → S → option S) (s : S) : option S :=
  for_loop_from (Z.to_nat n) 0 body s.

(** [for (y ...) for (x ...) body]: the loop nest of all three passes. *)
Definition for_each_pixel `{Geometry} {S : Type}
    (body : Z → Z → S → option S) (s : S) : option S :=
  for_loop HEIGHT (λ y, for_loop WIDTH (λ x, body x y)) s.

(** ** [min_max_frame] *)

(** One iteration of the inner loop; the state is the pair [( *min, *max )]. *)
Definition min_max_step `{Geometry} (buffer : list Z) (x y : Z)
    (mm : Z * Z) : option (Z * Z) :=
  Gb ← load buffer (RG10_LOCATION x y RG10_Gb);
  Gr ← load buffer (RG10_LOCATION x y RG10_Gr);
  B ← load buffer (RG10_LOCATION x y RG10_B);
  R ← load buffer (RG10_LOCATION x y RG10_R);
  let '(min, max) := mm in
  let max := if decide (max < Gb) then Gb else max in
  let max := if decide (max < Gr) then Gr else max in
  let max := if decide (max < B) then B else max in
  let max := if decide (max < R) then R else max in
  let min := if decide (min > Gb) then Gb else min in
  let min := if decide (min > Gr) then Gr else min in
  let min := if decide (min > B) then B else min in
  let min := if decide (min > R) then R else min in
  Some (min, max).

(** Returns [( *min, *max )]. *)
Definition min_max_frame `{Geometry} (buffer : list Z) : option (Z * Z) :=
  for_each_pixel (min_max_step buffer) (65535, 0).

(** ** [normalize_frame] *)

(** [1023 / ((float)max - (float)min)]. *)
Definition frame_mult (min max : Z) : spec_float :=
  f32_div (f32_of_int 1023) (f32_sub (f32_of_int max) (f32_of_int min)).

(** [round((v - min) * mult)] converted to [uint16_t]. *)
Definition normalize_sample (min : Z) (mult : spec_float) (v : Z) : option Z :=
  round_to_uint16 (f32_mul (f32_of_int (v - min)) mult).

(** [*(buffer + location) = round(( *(buffer + location) - min) * mult)]. *)
Definition normalize_at (min : Z) (mult : spec_float) (location : Z)
    (buffer : list Z) : option (list Z) :=
  v ← load buffer location;
  v' ← normalize_sample min mult v;
  store buffer location v'.

Definition normalize_step `{Geometry} (min : Z) (mult : spec_float) (x y : Z)
    (buffer : list Z) : option (list Z) :=
  buffer ← normalize_at min mult (RG10_LOCATION x y RG10_Gb) buffer;
  buffer ← normalize_at min mult (RG10_LOCATION x y RG10_Gr) buffer;
  buffer ← normalize_at min mult (RG10_LOCATION x y RG10_R) buffer;
  normalize_at min mult (RG10_LOCATION x y RG10_B) buffer.

(** The frame is changed in place: the result is the new content. *)
Definition normalize_frame `{Geometry} (buffer : list Z) : option (list Z) :=
  '(min, max) ← min_max_frame buffer;
  let mult := frame_mult min max in
  for_each_pixel (normalize_step min mult) buffer.

(** ** [debayer] *)

(** The right-hand sides of the three assignments of the loop body. *)
Definition debayer_red `{Geometry} (buffer : list Z) (x y : Z) : option Z :=
  R ← load buffer (RG10_LOCATION x y RG10_R);
  float_to_uint8 (NORM R).

Definition debayer_blue `{Geometry} (buffer : list Z) (x y : Z) : option Z :=
  B ← load buffer (RG10_LOCATION x y RG10_B);
  float_to_uint8 (NORM B).

(** [NORM(( *Gb + *Gr) / 2)] expands to [((Gb + Gr) / 2 * ((float)...))]:
    the sum is halved in [int] before it is converted. *)
Definition debayer_green `{Geometry} (buffer : list Z) (x y : Z) : option Z :=
  Gb ← load buffer (RG10_LOCATION x y RG10_Gb);
  Gr ← load buffer (RG10_LOCATION x y RG10_Gr);
  float_to_uint8 (NORM ((Gb + Gr) `quot` 2)).

Definition debayer_step `{Geometry} (buffer : list Z) (x y : Z)
    (image : list Z) : option (list Z) :=
  r ← debayer_red buffer x y;
  image ← store image (RGB_LOCATION x y RGB_R) r;
  b ← debayer_blue buffer x y;
  image ← store image (RGB_LOCATION x y RGB_B) b;
  g ← debayer_green buffer x y;
  store image (RGB_LOCATION x y RGB_G) g.

(** The loops of [debayer], filling a given block. *)
Definition debayer_into `{Geometry} (image buffer : list Z) : option (list Z) :=
  for_each_pixel (debayer_step buffer) image.

Definition debayer `{Geometry} (junk : nat → Z) (buffer : list Z) : option (list Z) :=
  debayer_into (malloc junk RGB_SIZE) buffer.

(** ** Files, the error stream and the process *)

Record os_state := {
  disk : gmap string (list Z);   (** the files that can be opened for reading *)
  write_denied : gset string;    (** the paths that cannot be opened for writing *)
  heap_junk : nat → Z;           (** what fresh memory happens to hold *)
  stderr : list string           (** what was printed to the error stream *)
}.

(** A computation ends normally, by [exit], or in undefined behaviour. *)
Inductive result (A : Type) : Type :=
  | Done (a : A)
  | Exit (status : Z)
  | Undef.
Arguments Done {A} a.
Arguments Exit {A} status.
Arguments Undef {A}.

Definition proc (A : Type) : Type := os_state → result A * os_state.

#[global] Instance proc_ret : MRet proc := λ A a σ, (Done a, σ).

#[global] Instance proc_bind : MBind proc := λ A B f m σ,
  match m σ with
  | (Done a, σ') => f a σ'
  | (Exit status, σ') => (Exit status, σ')
  | (Undef, σ') => (Undef, σ')
  end.

Definition exit {A : Type} (status : Z) : proc A := λ σ, (Exit status, σ).

Definition undefined {A : Type} : proc A := λ σ, (Undef, σ).

Definition defined {A : Type} (o : option A) : proc A := λ σ,
  match o with Some a => (Done a, σ) | None => (Undef, σ) end.

Definition fprintf_stderr (msg : string) : proc unit := λ σ,
  (Done (), {| disk := disk σ; write_denied := write_denied σ;
               heap_junk := heap_junk σ; stderr := stderr σ ++ [msg] |}).

Definition get_junk : proc (nat → Z) := λ σ, (Done (heap_junk σ), σ).

(** [fopen(name, "rb")]: the content of the file, if it can be opened. *)
Definition fopen_rb (name : string) : proc (option (list Z)) := λ σ,
  (Done (disk σ !! name), σ).

(** [fopen(name, "wb")]: whether the file could be opened; it is then empty. *)
Definition fopen_wb (name : string) : proc bool := λ σ,
  if decide (name ∈ write_denied σ) then (Done false, σ)
  else (Done true, {| disk := <[name := []]> (disk σ); write_denied := write_denied σ;
                      heap_junk := heap_junk σ; stderr := stderr σ |}).

(** [fwrite] appends to the file opened for writing. *)
Definition fwrite (name : string) (bytes : list Z) : proc unit := λ σ,
  (Done (), {| disk := <[name := default [] (disk σ !! name) ++ bytes]> (disk σ);
               write_denied := write_denied σ;
               heap_junk := heap_junk σ; stderr := stderr σ |}).

Definition newline : string := String (Ascii.ascii_of_nat 10) EmptyString.

(** [read_file]: the size of the file is not checked, a short file leaves
    the rest of the block as [malloc] returned it. *)
Definition read_file `{Geometry} (name : string) : proc (list Z) :=
  junk ← get_junk;
  let buff := malloc junk RG10_SIZE in
  file ← fopen_rb name;
  match file with
  | None =>
      fprintf_stderr ("Unable to open file " +:+ name +:+ " for reading." +:+ newline);;
      exit (-1)
  | Some content =>
      let got := take (Z.to_nat RG10_SIZE) content in
      mret (samples_of_bytes (got ++ drop (length got) buff))
  end.

Definition tga_header `{Geometry} : list Z :=
  <[17%nat := 32]> (<[16%nat := 24]> (
  <[15%nat := Z.land 255 (Z.shiftr HEIGHT 8)]> (<[14%nat := Z.land 255 HEIGHT]> (
  <[13%nat := Z.land 255 (Z.shiftr WIDTH 8)]> (<[12%nat := Z.land 255 WIDTH]> (
  <[2%nat := 2]> (replicate 18 0))))))).

(** [write_tga]: reading [RGB_SIZE] bytes from a shorter block is undefined. *)
Definition write_tga `{Geometry} (name : string) (buff : list Z) : proc unit :=
  opened ← fopen_wb name;
  if (opened : bool) then
    fwrite name tga_header;;
    if decide (RGB_SIZE ≤ Z.of_nat (length buff))
    then fwrite name (take (Z.to_nat RGB_SIZE) buff)
    else undefined
  else
    fprintf_stderr ("Unable to open file " +:+ name +:+ " for writing." +:+ newline);;
    exit (-1).

(** [main]; [argv1] and [argv2] are the two arguments. *)
Definition main `{Geometry} (argv1 argv2 : string) : proc Z :=
  buffer ← read_file argv1;
  buffer ← defined (normalize_frame buffer);
  junk ← get_junk;
  image ← defined (debayer junk buffer);
  write_tga argv2 image;;
  mret 0.

(* ================================================================== *)
(** * Part II: the vocabulary of the specification *)
(* ================================================================== *)

(** Pixel (mosaic block) coordinates of the frame. *)
Definition in_frame `{Geometry} (x y : Z) : Prop :=
  0 ≤ x < WIDTH ∧ 0 ≤ y < HEIGHT.

(** The four sample positions of a mosaic block and the three channels of
    an output pixel, as the offsets the passes hand to the location macros. *)
Definition RG10_colors `{Geometry} : list Z := [RG10_R; RG10_Gr; RG10_Gb; RG10_B].
Definition RGB_colors : list Z := [RGB_B; RGB_G; RGB_R].

(** The samples a frame of the geometry holds, and the bytes of its image. *)
Definition frame_shaped `{Geometry} (buffer : list Z) : Prop :=
  Z.of_nat (length buffer) = RG10_SAMPLES.
Definition image_shaped `{Geometry} (image : list Z) : Prop :=
  Z.of_nat (length image) = RGB_SIZE.

(** Pixel [(x', y')] is handled before the loop nest reaches [(x, y)]. *)
Definition before (x y x' y' : Z) : Prop := y' < y ∨ (y' = y ∧ x' < x).

(** The three channels of pixel [(x, y)] of [image] are what [debayer]
    computes for the block [(x, y)] of [buffer]. *)
Definition pixel_done `{Geometry} (buffer image : list Z) (x y : Z) : Prop :=
  ∃ r g b,
    debayer_red buffer x y = Some r ∧ debayer_green buffer x y = Some g ∧
    debayer_blue buffer x y = Some b ∧
    load image (RGB_LOCATION x y RGB_R) = Some r ∧
    load image (RGB_LOCATION x y RGB_G) = Some g ∧
    load image (RGB_LOCATION x y RGB_B) = Some b.

(** [truncate(v * 255/1023)] in exact arithmetic. *)
Definition scale_exact (v : Z) : Z := (v * MAX_RGB) `div` MAX_RG10.

(** Every sample of a sensor frame fits the input bit depth. *)
Definition ten_bit (buffer : list Z) : Prop := Forall (λ v, 0 ≤ v ≤ MAX_RG10) buffer.

(** [p] holds for the [n] integers from [lo] on; used to settle facts about
    single-precision arithmetic by evaluation over a finite range. *)
Fixpoint all_from (n : nat) (lo : Z) (p : Z → bool) : bool :=
  match n with
  | O => true
  | Datatypes.S k => p lo && all_from k (lo + 1) p
  end.

(** [p] holds for every integer from [lo] to [hi]. *)
Definition all_in (lo hi : Z) (p : Z → bool) : bool :=
  all_from (Z.to_nat (hi - lo + 1)) lo p.

Definition NORM_exact_at (v : Z) : bool :=
  bool_decide (float_to_uint8 (NORM v) = Some (scale_exact v)).

(** Every sample of a frame is a [uint16_t]. *)
Definition uint16_samples (buffer : list Z) : Prop := Forall (λ v, 0 ≤ v ≤ 65535) buffer.

(** [min] and [max] are the least and the greatest sample of the frame. *)
Definition frame_min_max (buffer : list Z) (min max : Z) : Prop :=
  min ∈ buffer ∧ max ∈ buffer ∧ Forall (λ v, min ≤ v ≤ max) buffer.

(** The locations of the pixels handled before the nest reaches [(x, y)]. *)
Definition handled `{Geometry} (x y : Z) (i : Z) : Prop :=
  ∃ x' y' c, in_frame x' y' ∧ before x y x' y' ∧ c ∈ RG10_colors ∧
             i = RG10_LOCATION x' y' c.

(** [buffer'] is [buffer] with the samples at the locations in [D]
    replaced by their images under [f]. *)
Definition replaced_on (f : Z → option Z) (D : Z → Prop) (buffer buffer' : list Z) : Prop :=
  length buffer' = length buffer ∧
  ∀ i v, load buffer i = Some v →
    (D i → ∃ v', f v = Some v' ∧ load buffer' i = Some v') ∧
    (¬ D i → load buffer' i = Some v).

(** The invariant of the scan of [min_max_frame]: the running pair bounds
    the samples seen so far, and each component is its initial value or a
    sample. *)
Definition scanned `{Geometry} (buffer : list Z) (x y : Z) (mm : Z * Z) : Prop :=
  (∀ i v, handled x y i → load buffer i = Some v → mm.1 ≤ v ≤ mm.2) ∧
  (mm.1 = 65535 ∨ mm.1 ∈ buffer) ∧ (mm.2 = 0 ∨ mm.2 ∈ buffer).

(** The nearest integer to [n / d], halfway cases up, in exact arithmetic
    (for [0 ≤ n] and [0 < d]). *)
Definition round_exact (n d : Z) : Z := (2 * n + d) `div` (2 * d).

(** The nearest integer to [n / d], halfway cases to the even neighbour. *)
Definition round_even_exact (n d : Z) : Z :=
  let q := n `div` d in
  let r := n `mod` d in
  if decide (2 * r < d) then q
  else if decide (2 * r > d) then q + 1
  else if Z.even q then q else q + 1.

(** The canonical form of a positive integer below [2^24]: a mantissa of
    24 digits and the exponent that goes with it. *)
Definition f32_canon (d : Z) : spec_float :=
  S754_finite false (Z.to_pos (d * 2 ^ (24 - Zdigits2 d))) (Zdigits2 d - 24).

(** A frame of range 1023 keeps its samples. *)
Definition identity_ok (v : Z) : bool :=
  bool_decide (normalize_sample 0 (frame_mult 0 1023) v = Some v).

(** [r] is an integer nearest to [n / d]; at a halfway case both
    neighbours qualify. *)
Definition is_nearest (n d r : Z) : Prop := 2 * Z.abs (r * d - n) ≤ d.

(** The statement that normalization stores, for every sample [v], the
    exact [(v - min) * 1023 / (max - min)] rounded by [nearest]. *)
Definition normalized_exactly `{Geometry} (nearest : Z → Z → Z → Prop)
    (buffer : list Z) : Prop :=
  ∀ min max, frame_min_max buffer min max → min < max →
    ∃ buffer', normalize_frame buffer = Some buffer' ∧
      ∀ i v, load buffer i = Some v →
        ∃ r, load buffer' i = Some r ∧ nearest (1023 * (v - min)) (max - min) r.

(** The width and the height a reader finds in the header of a TGA file:
    the little-endian 16-bit fields at offsets 12 and 14. *)
Definition tga_dimensions (file : list Z) : option (Z * Z) :=
  w0 ← file !! 12%nat; w1 ← file !! 13%nat;
  h0 ← file !! 14%nat; h1 ← file !! 15%nat;
  Some (w0 + 256 * w1, h0 + 256 * h1).

(** The state of the system after [msg] went to the error stream. *)
Definition with_stderr (σ : os_state) (msg : string) : os_state :=
  {| disk := disk σ; write_denied := write_denied σ;
     heap_junk := heap_junk σ; stderr := stderr σ ++ [msg] |}.

(** The state of the system after the file [name] was written. *)
Definition with_file (σ : os_state) (name : string) (content : list Z) : os_state :=
  {| disk := <[name := content]> (disk σ); write_denied := write_denied σ;
     heap_junk := heap_junk σ; stderr := stderr σ |}.

(** The samples [read_file] hands to the pipeline for a file [content]. *)
Definition frame_of_file `{Geometry} (junk : nat → Z) (content : list Z) : list Z :=
  let got := take (Z.to_nat RG10_SIZE) content in
  samples_of_bytes (got ++ drop (length got) (malloc junk RG10_SIZE)).

(** A system whose only file is the raw frame [in.raw], where every path
    can be written and fresh memory is zeroed. *)
Definition scenario (content : list Z) : os_state :=
  {| disk := {[ "in.raw" := content ]}; write_denied := ∅;
     heap_junk := λ _, 0; stderr := [] |}.

(* ================================================================== *)
(** * Part III: verification *)
(* ================================================================== *)

(** ** Addressing *)

Section Addressing.
Context `{G : Geometry}.

Lemma euclid_unique (n q r q' r' : Z) :
  0 ≤ r < n → 0 ≤ r' < n → q * n + r = q' * n + r' → q = q' ∧ r = r'.
Proof. intros Hr Hr' Heq. assert (q = q') by nia. subst q'. lia. Qed.

Lemma row_offset_bound (k y c : Z) :
  0 < k → 0 ≤ y < HEIGHT → 0 ≤ c < k * WIDTH →
  0 ≤ y * (k * WIDTH) + c < WIDTH * HEIGHT * k.
Proof. intros Hk Hy Hc. nia. Qed.

Lemma elem_of_RG10_colors (c : Z) :
  c ∈ RG10_colors ↔ c = 0 ∨ c = 1 ∨ c = 2 * WIDTH ∨ c = 2 * WIDTH + 1.
Proof.
  unfold RG10_colors, RG10_B, RG10_Gb, RG10_Gr, RG10_R, RG10_COLOR_SIZE.
  rewrite !elem_of_cons, elem_of_nil. lia.
Qed.

Lemma elem_of_RGB_colors (c : Z) : c ∈ RGB_colors ↔ c = 0 ∨ c = 1 ∨ c = 2.
Proof.
  unfold RGB_colors, RGB_B, RGB_G, RGB_R.
  rewrite !elem_of_cons, elem_of_nil. lia.
Qed.

Lemma RG10_LOCATION_row (x y c : Z) :
  RG10_LOCATION x y c = y * (4 * WIDTH) + (2 * x + c).
Proof. unfold RG10_LOCATION, RG10_COLORS, RG10_COLOR_SIZE. lia. Qed.

Lemma RGB_LOCATION_row (x y c : Z) :
  RGB_LOCATION x y c = y * (3 * WIDTH) + (3 * x + c).
Proof. unfold RGB_LOCATION, RGB_COLORS. lia. Qed.

Lemma RG10_LOCATION_bounds (x y c : Z) :
  in_frame x y → c ∈ RG10_colors → 0 ≤ RG10_LOCATION x y c < RG10_SAMPLES.
Proof.
  intros Hxy Hc. apply elem_of_RG10_colors in Hc.
  rewrite RG10_LOCATION_row. unfold RG10_SAMPLES, RG10_COLORS.
  destruct Hxy. apply row_offset_bound; lia.
Qed.

Lemma RG10_LOCATION_inj (x y c x' y' c' : Z) :
  in_frame x y → in_frame x' y' → c ∈ RG10_colors → c' ∈ RG10_colors →
  RG10_LOCATION x y c = RG10_LOCATION x' y' c' → x = x' ∧ y = y' ∧ c = c'.
Proof.
  intros [Hx Hy] [Hx' Hy'] Hc Hc' Heq.
  apply elem_of_RG10_colors in Hc, Hc'. rewrite !RG10_LOCATION_row in Heq.
  apply euclid_unique in Heq; lia.
Qed.

Lemma RGB_LOCATION_bounds (x y c : Z) :
  in_frame x y → c ∈ RGB_colors → 0 ≤ RGB_LOCATION x y c < RGB_SIZE.
Proof.
  intros Hxy Hc. apply elem_of_RGB_colors in Hc.
  rewrite RGB_LOCATION_row. unfold RGB_SIZE, RGB_COLORS, RGB_COLOR_SIZE.
  rewrite Z.mul_1_r. destruct Hxy. apply row_offset_bound; lia.
Qed.

Lemma RGB_LOCATION_inj (x y c x' y' c' : Z) :
  in_frame x y → in_frame x' y' → c ∈ RGB_colors → c' ∈ RGB_colors →
  RGB_LOCATION x y c = RGB_LOCATION x' y' c' → x = x' ∧ y = y' ∧ c = c'.
Proof.
  intros [Hx Hy] [Hx' Hy'] Hc Hc' Heq.
  apply elem_of_RGB_colors in Hc, Hc'. rewrite !RGB_LOCATION_row in Heq.
  apply euclid_unique in Heq; lia.
Qed.

(** The frame is the sensor grid of [2 * WIDTH] columns and [2 * HEIGHT]
    rows stored row by row: block [(x, y)] has its red sample at column
    [2x] of row [2y], the green of the red row to its right, the green of
    the blue row below it and the blue sample diagonally opposite. *)
Lemma RG10_LOCATION_grid (x y : Z) :
  RG10_LOCATION x y RG10_R = (2 * y) * (2 * WIDTH) + 2 * x ∧
  RG10_LOCATION x y RG10_Gr = (2 * y) * (2 * WIDTH) + (2 * x + 1) ∧
  RG10_LOCATION x y RG10_Gb = (2 * y + 1) * (2 * WIDTH) + 2 * x ∧
  RG10_LOCATION x y RG10_B = (2 * y + 1) * (2 * WIDTH) + (2 * x + 1).
Proof.
  rewrite !RG10_LOCATION_row.
  unfold RG10_B, RG10_Gb, RG10_Gr, RG10_R, RG10_COLOR_SIZE. lia.
Qed.

(** An image is stored pixel by pixel, three bytes each, row by row. *)
Lemma RGB_LOCATION_pixel (x y c : Z) :
  RGB_LOCATION x y c = 3 * (y * WIDTH + x) + c.
Proof. rewrite RGB_LOCATION_row. lia. Qed.
End Addressing.

(** At the geometry of the source the sizes, and with them every location,
    fit an [int]. *)
Lemma IMX477_sizes :
  @RG10_SIZE IMX477 = 16588800 ∧ @RG10_SAMPLES IMX477 = 8294400 ∧
  @RGB_SIZE IMX477 = 6220800 ∧ @RG10_SIZE IMX477 < 2 ^ 31.
Proof. done. Qed.

(** Every slot of a frame, and every byte of an image, is the location of
    exactly one position of one pixel. *)
Section Cover.
Context `{G : Geometry}.
Hypothesis WIDTH_pos : 0 < WIDTH.

Lemma RG10_LOCATION_cover (i : Z) :
  0 ≤ i < RG10_SAMPLES →
  ∃ x y c, in_frame x y ∧ c ∈ RG10_colors ∧ RG10_LOCATION x y c = i.
Proof using WIDTH_pos.
  unfold RG10_SAMPLES, RG10_COLORS. intros Hi.
  pose proof (Z.div_mod i (4 * WIDTH)) as Hdm.
  pose proof (Z.mod_pos_bound i (4 * WIDTH)) as Hr.
  set (y := i `div` (4 * WIDTH)) in *. set (r := i `mod` (4 * WIDTH)) in *.
  assert (0 ≤ y < HEIGHT) as Hy by nia.
  destruct (decide (r < 2 * WIDTH)) as [Hlo|Hhi].
  - exists (r `div` 2), y, (r `mod` 2). split_and!.
    + split; [|done]. pose proof (Z.div_mod r 2). pose proof (Z.mod_pos_bound r 2). lia.
    + apply elem_of_RG10_colors. pose proof (Z.mod_pos_bound r 2). lia.
    + rewrite RG10_LOCATION_row. pose proof (Z.div_mod r 2). lia.
  - set (r' := r - 2 * WIDTH).
    exists (r' `div` 2), y, (2 * WIDTH + r' `mod` 2). split_and!.
    + split; [|done]. pose proof (Z.div_mod r' 2). pose proof (Z.mod_pos_bound r' 2). lia.
    + apply elem_of_RG10_colors. pose proof (Z.mod_pos_bound r' 2). lia.
    + rewrite RG10_LOCATION_row. pose proof (Z.div_mod r' 2). lia.
Qed.

Lemma RGB_LOCATION_cover (i : Z) :
  0 ≤ i < RGB_SIZE →
  ∃ x y c, in_frame x y ∧ c ∈ RGB_colors ∧ RGB_LOCATION x y c = i.
Proof using WIDTH_pos.
  unfold RGB_SIZE, RGB_COLORS, RGB_COLOR_SIZE. intros Hi.
  pose proof (Z.div_mod i (3 * WIDTH)) as Hdm.
  pose proof (Z.mod_pos_bound i (3 * WIDTH)) as Hr.
  set (y := i `div` (3 * WIDTH)) in *. set (r := i `mod` (3 * WIDTH)) in *.
  assert (0 ≤ y < HEIGHT) as Hy by nia.
  exists (r `div` 3), y, (r `mod` 3). split_and!.
  - split; [|done]. pose proof (Z.div_mod r 3). pose proof (Z.mod_pos_bound r 3). lia.
  - apply elem_of_RGB_colors. pose proof (Z.mod_pos_bound r 3). lia.
  - rewrite RGB_LOCATION_row. pose proof (Z.div_mod r 3). lia.
Qed.
End Cover.

(** ** Buffers *)

Lemma load_Some (buff : list Z) (i v : Z) :
  load buff i = Some v → 0 ≤ i < Z.of_nat (length buff).
Proof.
  unfold load. case_decide; [|done]. intros Hv%lookup_lt_Some. lia.
Qed.

Lemma load_is_Some (buff : list Z) (i : Z) :
  0 ≤ i < Z.of_nat (length buff) → is_Some (load buff i).
Proof.
  intros Hi. unfold load. rewrite decide_True by lia.
  apply lookup_lt_is_Some. lia.
Qed.

Lemma load_elem_of (buff : list Z) (i v : Z) : load buff i = Some v → v ∈ buff.
Proof.
  unfold load. case_decide; [|done]. intros Hv. apply list_elem_of_lookup. eauto.
Qed.

Lemma elem_of_load (buff : list Z) (v : Z) :
  v ∈ buff → ∃ i, load buff i = Some v.
Proof.
  intros [n Hn]%list_elem_of_lookup. exists (Z.of_nat n).
  unfold load. rewrite decide_True by lia. by rewrite Nat2Z.id.
Qed.

Lemma store_Some (buff : list Z) (i v : Z) (buff' : list Z) :
  store buff i v = Some buff' →
  0 ≤ i < Z.of_nat (length buff) ∧ length buff' = length buff ∧
  ∀ j, load buff' j = if decide (j = i) then Some v else load buff j.
Proof.
  unfold store. case_decide as Hi; [|done]. intros [= <-].
  split_and!; [lia.. | apply length_insert |].
  intros j. unfold load. destruct (decide (j = i)) as [->|Hne].
  - rewrite decide_True by lia. apply list_lookup_insert_eq. lia.
  - case_decide; [|done]. apply list_lookup_insert_ne. lia.
Qed.

Lemma store_is_Some (buff : list Z) (i v : Z) :
  0 ≤ i < Z.of_nat (length buff) → is_Some (store buff i v).
Proof. intros Hi. unfold store. rewrite decide_True by done. eauto. Qed.

Lemma load_ext (buff buff' : list Z) :
  length buff = length buff' →
  (∀ i, 0 ≤ i < Z.of_nat (length buff) → load buff i = load buff' i) →
  buff = buff'.
Proof.
  intros Hlen Hload. apply list_eq_same_length with (length buff); [done..|].
  intros n v v' Hn Hv Hv'.
  specialize (Hload (Z.of_nat n) ltac:(lia)). unfold load in Hload.
  rewrite !decide_True, Nat2Z.id in Hload by lia. congruence.
Qed.

(** ** Loops *)

Section Loops.
Context {S : Type}.
Implicit Types (body : Z → S → option S) (s : S).

(** Partial correctness: an invariant kept by every iteration that
    returns holds when the loop returns. *)
Lemma for_loop_from_partial (I : Z → S → Prop) body n :
  ∀ i s s',
    I i s →
    (∀ j t t', i ≤ j < i + Z.of_nat n → I j t → body j t = Some t' → I (j + 1) t') →
    for_loop_from n i body s = Some s' → I (i + Z.of_nat n) s'.
Proof.
  induction n as [|n IH]; intros i s s' Hi Hstep Hrun; simpl in Hrun.
  - injection Hrun as <-. by rewrite Z.add_0_r.
  - destruct (body i s) as [t|] eqn:Hbody; [|done]. simpl in Hrun.
    replace (i + Z.of_nat (Datatypes.S n)) with ((i + 1) + Z.of_nat n) by lia.
    apply IH with t; [| |done].
    + apply Hstep with s; [lia|done..].
    + intros j u u' Hj. apply Hstep. lia.
Qed.

Lemma for_loop_partial (I : Z → S → Prop) body n s s' :
  0 ≤ n → I 0 s →
  (∀ j t t', 0 ≤ j < n → I j t → body j t = Some t' → I (j + 1) t') →
  for_loop n body s = Some s' → I n s'.
Proof.
  intros Hn H0 Hstep Hrun.
  replace n with (0 + Z.of_nat (Z.to_nat n)) by lia.
  apply for_loop_from_partial with body s; [done| |done].
  intros j t t' Hj. apply Hstep. lia.
Qed.

(** Total correctness: when every iteration returns and keeps the
    invariant, the loop returns a state that satisfies it. *)
Lemma for_loop_from_total (I : Z → S → Prop) body n :
  ∀ i s,
    I i s →
    (∀ j t, i ≤ j < i + Z.of_nat n → I j t → ∃ t', body j t = Some t' ∧ I (j + 1) t') →
    ∃ s', for_loop_from n i body s = Some s' ∧ I (i + Z.of_nat n) s'.
Proof.
  induction n as [|n IH]; intros i s Hi Hstep; simpl.
  - exists s. by rewrite Z.add_0_r.
  - destruct (Hstep i s) as (t & -> & Ht); [lia|done|]. simpl.
    replace (i + Z.of_nat (Datatypes.S n)) with ((i + 1) + Z.of_nat n) by lia.
    apply IH; [done|]. intros j u Hj. apply Hstep. lia.
Qed.

Lemma for_loop_total (I : Z → S → Prop) body n s :
  0 ≤ n → I 0 s →
  (∀ j t, 0 ≤ j < n → I j t → ∃ t', body j t = Some t' ∧ I (j + 1) t') →
  ∃ s', for_loop n body s = Some s' ∧ I n s'.
Proof.
  intros Hn H0 Hstep.
  destruct (for_loop_from_total I body (Z.to_nat n) 0 s) as (s' & Hrun & Hs'); [done| |].
  - intros j t Hj. apply Hstep. lia.
  - exists s'. split; [done|]. by replace n with (0 + Z.of_nat (Z.to_nat n)) by lia.
Qed.

(** A loop whose first iteration is undefined is undefined. *)
Lemma for_loop_first_None body n s :
  0 < n → body 0 s = None → for_loop n body s = None.
Proof.
  intros Hn Hbody. unfold for_loop.
  destruct (Z.to_nat n) as [|k] eqn:Hk; [lia|]. simpl. by rewrite Hbody.
Qed.

Context `{G : Geometry}.
Hypothesis WIDTH_nonneg : 0 ≤ WIDTH.
Hypothesis HEIGHT_nonneg : 0 ≤ HEIGHT.
Implicit Types (step : Z → Z → S → option S).

(** The loop nest, with an invariant [I x y s] that holds when the nest
    is about to handle pixel [(x, y)]. *)
Lemma for_each_pixel_partial (I : Z → Z → S → Prop) step s s' :
  I 0 0 s →
  (∀ x y t t', in_frame x y → I x y t → step x y t = Some t' → I (x + 1) y t') →
  (∀ y t, 0 ≤ y < HEIGHT → I WIDTH y t → I 0 (y + 1) t) →
  for_each_pixel step s = Some s' → I 0 HEIGHT s'.
Proof using WIDTH_nonneg HEIGHT_nonneg.
  intros H0 Hstep Hrow. unfold for_each_pixel.
  apply for_loop_partial with (I := λ y t, I 0 y t); [done..|].
  intros y t t' Hy Ht Hinner. apply Hrow; [done|].
  revert Hinner. apply for_loop_partial with (I := λ x u, I x y u); [done..|].
  intros x u u' Hx. by apply Hstep.
Qed.

Lemma for_each_pixel_total (I : Z → Z → S → Prop) step s :
  I 0 0 s →
  (∀ x y t, in_frame x y → I x y t → ∃ t', step x y t = Some t' ∧ I (x + 1) y t') →
  (∀ y t, 0 ≤ y < HEIGHT → I WIDTH y t → I 0 (y + 1) t) →
  ∃ s', for_each_pixel step s = Some s' ∧ I 0 HEIGHT s'.
Proof using WIDTH_nonneg HEIGHT_nonneg.
  intros H0 Hstep Hrow. unfold for_each_pixel.
  apply for_loop_total with (I := λ y t, I 0 y t); [done..|].
  intros y t Hy Ht.
  destruct (for_loop_total (λ x u, I x y u) (λ x, step x y) WIDTH t)
    as (t' & Hrun & Ht'); [done..| |].
  - intros x u Hx. by apply Hstep.
  - exists t'. split; [done|]. by apply Hrow.
Qed.

(** The nest is undefined when its body is undefined at the first pixel. *)
Lemma for_each_pixel_first_None step s :
  0 < WIDTH → 0 < HEIGHT → step 0 0 s = None → for_each_pixel step s = None.
Proof.
  intros HW HH Hstep. unfold for_each_pixel.
  apply for_loop_first_None; [done|]. by apply for_loop_first_None.
Qed.
End Loops.

(** ** The demosaicing pass *)

Section Debayer.
Context `{G : Geometry}.
Hypothesis WIDTH_pos : 0 < WIDTH.
Hypothesis HEIGHT_pos : 0 < HEIGHT.

Lemma RGB_R_color : RGB_R ∈ RGB_colors.
Proof. apply elem_of_RGB_colors. unfold RGB_R. lia. Qed.
Lemma RGB_G_color : RGB_G ∈ RGB_colors.
Proof. apply elem_of_RGB_colors. unfold RGB_G. lia. Qed.
Lemma RGB_B_color : RGB_B ∈ RGB_colors.
Proof. apply elem_of_RGB_colors. unfold RGB_B. lia. Qed.

Lemma before_start (x y : Z) : 0 ≤ x → 0 ≤ y → ¬ before 0 0 x y.
Proof. unfold before. lia. Qed.

Lemma before_next (x y x' y' : Z) :
  before (x + 1) y x' y' ↔ before x y x' y' ∨ (x' = x ∧ y' = y).
Proof. unfold before. lia. Qed.

Lemma before_next_row (y x' y' : Z) :
  0 ≤ x' < WIDTH → before 0 (y + 1) x' y' → before WIDTH y x' y'.
Proof. unfold before. lia. Qed.

Lemma before_end (x y : Z) : in_frame x y → before 0 HEIGHT x y.
Proof. unfold before, in_frame. lia. Qed.

(** What one iteration of the loop body does to the image. *)
Lemma debayer_step_Some (buffer image image' : list Z) (x y : Z) :
  debayer_step buffer x y image = Some image' →
  ∃ r g b,
    debayer_red buffer x y = Some r ∧ debayer_green buffer x y = Some g ∧
    debayer_blue buffer x y = Some b ∧
    0 ≤ RGB_LOCATION x y RGB_R < Z.of_nat (length image) ∧
    0 ≤ RGB_LOCATION x y RGB_G < Z.of_nat (length image) ∧
    0 ≤ RGB_LOCATION x y RGB_B < Z.of_nat (length image) ∧
    length image' = length image ∧
    ∀ j, load image' j =
         if decide (j = RGB_LOCATION x y RGB_G) then Some g
         else if decide (j = RGB_LOCATION x y RGB_B) then Some b
         else if decide (j = RGB_LOCATION x y RGB_R) then Some r
         else load image j.
Proof.
  unfold debayer_step. intros Hstep.
  destruct (debayer_red buffer x y) as [r|]; [simpl in Hstep|done].
  destruct (store image _ r) as [image1|] eqn:H1; [simpl in Hstep|done].
  destruct (debayer_blue buffer x y) as [b|]; [simpl in Hstep|done].
  destruct (store image1 _ b) as [image2|] eqn:H2; [simpl in Hstep|done].
  destruct (debayer_green buffer x y) as [g|]; [simpl in Hstep|done].
  apply store_Some in H1 as (Hr & Hlen1 & Hload1).
  apply store_Some in H2 as (Hb & Hlen2 & Hload2).
  apply store_Some in Hstep as (Hg & Hlen3 & Hload3).
  exists r, g, b. split_and!; try done; try lia.
  intros j. rewrite Hload3. case_decide; [done|].
  rewrite Hload2. case_decide; [done|]. apply Hload1.
Qed.

Lemma debayer_step_is_Some (buffer image : list Z) (x y : Z) :
  in_frame x y → image_shaped image →
  is_Some (debayer_red buffer x y) → is_Some (debayer_green buffer x y) →
  is_Some (debayer_blue buffer x y) →
  ∃ image', debayer_step buffer x y image = Some image' ∧ image_shaped image'.
Proof.
  intros Hxy Hshape [r Hr] [g Hg] [b Hb]. unfold debayer_step, image_shaped in *.
  rewrite Hr, Hb, Hg. simpl.
  pose proof (RGB_LOCATION_bounds x y RGB_R Hxy RGB_R_color) as Br.
  pose proof (RGB_LOCATION_bounds x y RGB_G Hxy RGB_G_color) as Bg.
  pose proof (RGB_LOCATION_bounds x y RGB_B Hxy RGB_B_color) as Bb.
  destruct (store_is_Some image (RGB_LOCATION x y RGB_R) r) as [image1 H1]; [lia|].
  rewrite H1. simpl. apply store_Some in H1 as (_ & Hlen1 & _).
  destruct (store_is_Some image1 (RGB_LOCATION x y RGB_B) b) as [image2 H2]; [lia|].
  rewrite H2. simpl. apply store_Some in H2 as (_ & Hlen2 & _).
  destruct (store_is_Some image2 (RGB_LOCATION x y RGB_G) g) as [image3 H3]; [lia|].
  exists image3. split; [done|]. apply store_Some in H3 as (_ & Hlen3 & _). lia.
Qed.

(** Whenever the pass returns, every pixel of the image holds the three
    values computed from its block, whatever the block held before. *)
Lemma debayer_into_Some (image0 buffer image : list Z) :
  debayer_into image0 buffer = Some image →
  length image = length image0 ∧
  ∀ x y, in_frame x y → pixel_done buffer image x y.
Proof using WIDTH_pos HEIGHT_pos.
  intros Hrun.
  cut (length image = length image0 ∧
       ∀ x' y', in_frame x' y' → before 0 HEIGHT x' y' → pixel_done buffer image x' y').
  { intros [Hlen Hdone]. split; [done|]. intros x y Hxy.
    apply Hdone; [done|]. by apply before_end. }
  revert Hrun. unfold debayer_into.
  apply for_each_pixel_partial with
    (I := λ x y img, length img = length image0 ∧
            ∀ x' y', in_frame x' y' → before x y x' y' → pixel_done buffer img x' y');
    [lia..| | |].
  - split; [done|]. intros x' y' [Hx' Hy'] Hbefore.
    exfalso. revert Hbefore. apply before_start; lia.
  - intros x y img img' Hxy [Hlen Hdone] Hstep.
    apply debayer_step_Some in Hstep
      as (r & g & b & Hr & Hg & Hb & _ & _ & _ & Hlen' & Hload).
    split; [congruence|]. intros x' y' Hxy' [Hold|[-> ->]]%before_next.
    + destruct (Hdone x' y' Hxy' Hold) as (r' & g' & b' & Hr' & Hg' & Hb' & Lr & Lg & Lb).
      assert (¬ (x' = x ∧ y' = y)) as Hne by (unfold before in Hold; destruct Hxy; lia).
      exists r', g', b'. split_and!; [done..| | |].
      all: rewrite Hload; rewrite !decide_False; [done|..].
      all: intros Heq; apply RGB_LOCATION_inj in Heq;
        auto using RGB_R_color, RGB_G_color, RGB_B_color; lia.
    + exists r, g, b. split_and!; [done..| | |]; rewrite Hload.
      * rewrite decide_False, decide_False, decide_True; [done..| |].
        all: intros Heq; apply RGB_LOCATION_inj in Heq;
          auto using RGB_R_color, RGB_G_color, RGB_B_color.
        all: unfold RGB_R, RGB_G, RGB_B in Heq; lia.
      * by rewrite decide_True.
      * rewrite decide_False, decide_True; [done..|].
        intros Heq; apply RGB_LOCATION_inj in Heq;
          auto using RGB_R_color, RGB_G_color, RGB_B_color.
        unfold RGB_R, RGB_G, RGB_B in Heq; lia.
  - intros y img Hy [Hlen Hdone]. split; [done|].
    intros x' y' Hxy' Hbefore. apply Hdone; [done|].
    apply before_next_row; [|done]. destruct Hxy'. lia.
Qed.

(** The pass returns when the three values of every pixel are defined. *)
Lemma debayer_into_is_Some (image0 buffer : list Z) :
  image_shaped image0 →
  (∀ x y, in_frame x y →
     is_Some (debayer_red buffer x y) ∧ is_Some (debayer_green buffer x y) ∧
     is_Some (debayer_blue buffer x y)) →
  ∃ image, debayer_into image0 buffer = Some image ∧ image_shaped image.
Proof using WIDTH_pos HEIGHT_pos.
  intros Hshape Hdef. unfold debayer_into.
  destruct (for_each_pixel_total (Z.lt_le_incl _ _ WIDTH_pos) (Z.lt_le_incl _ _ HEIGHT_pos)
              (λ _ _ img, image_shaped img) (debayer_step buffer) image0)
    as (image & Hrun & Himage); [done| |done|].
  - intros x y img Hxy Himg. destruct (Hdef x y Hxy) as (Hr & Hg & Hb).
    by apply debayer_step_is_Some.
  - by exists image.
Qed.

Lemma malloc_length (junk : nat → Z) (n : Z) :
  0 ≤ n → Z.of_nat (length (malloc junk n)) = n.
Proof. intros Hn. unfold malloc. rewrite length_fmap, length_seq. lia. Qed.

Lemma malloc_RGB_shaped (junk : nat → Z) : image_shaped (malloc junk RGB_SIZE).
Proof using WIDTH_pos HEIGHT_pos.
  apply malloc_length. unfold RGB_SIZE, RGB_COLORS, RGB_COLOR_SIZE. nia.
Qed.
End Debayer.

(** ** Bit-depth reduction *)

Lemma all_from_spec (p : Z → bool) (n : nat) :
  ∀ lo, all_from n lo p = true → ∀ v, lo ≤ v < lo + Z.of_nat n → p v = true.
Proof.
  induction n as [|n IH]; intros lo Hall v Hv; [lia|].
  simpl in Hall. apply andb_prop in Hall as [Hlo Hrest].
  destruct (decide (v = lo)) as [->|Hne]; [done|].
  apply (IH (lo + 1)); [done|lia].
Qed.

(** On the whole input range the single-precision product, once its
    fraction is dropped, is the exact [v * 255 / 1023] rounded down, and it
    fits the output sample. *)
Lemma all_in_spec (p : Z → bool) (lo hi : Z) :
  all_in lo hi p = true → ∀ v, lo ≤ v ≤ hi → p v = true.
Proof.
  unfold all_in. intros Hall v Hv.
  apply (all_from_spec p (Z.to_nat (hi - lo + 1)) lo); [done|lia].
Qed.

Lemma NORM_exact (v : Z) :
  0 ≤ v ≤ MAX_RG10 → float_to_uint8 (NORM v) = Some (scale_exact v).
Proof.
  intros Hv. assert (NORM_exact_at v = true) as Hcheck.
  { apply (all_in_spec NORM_exact_at 0 1023); [|done].
    vm_cast_no_check (eq_refl true). }
  unfold NORM_exact_at in Hcheck. by apply bool_decide_eq_true in Hcheck.
Qed.

Lemma scale_exact_bounds (v : Z) : 0 ≤ v ≤ MAX_RG10 → 0 ≤ scale_exact v ≤ MAX_RGB.
Proof.
  unfold scale_exact. change MAX_RG10 with 1023. change MAX_RGB with 255. intros Hv.
  split; [apply Z.div_pos; lia|]. apply Z.div_le_upper_bound; lia.
Qed.

(** ** The demosaicer on a ten-bit frame *)

Section DebayerTenBit.
Context `{G : Geometry}.
Hypothesis WIDTH_pos : 0 < WIDTH.
Hypothesis HEIGHT_pos : 0 < HEIGHT.

Lemma RG10_R_color : RG10_R ∈ RG10_colors.
Proof. apply elem_of_RG10_colors. unfold RG10_R. lia. Qed.
Lemma RG10_Gr_color : RG10_Gr ∈ RG10_colors.
Proof. apply elem_of_RG10_colors. unfold RG10_Gr, RG10_R. lia. Qed.
Lemma RG10_Gb_color : RG10_Gb ∈ RG10_colors.
Proof. apply elem_of_RG10_colors. unfold RG10_Gb, RG10_COLOR_SIZE. lia. Qed.
Lemma RG10_B_color : RG10_B ∈ RG10_colors.
Proof. apply elem_of_RG10_colors. unfold RG10_B, RG10_Gb, RG10_COLOR_SIZE. lia. Qed.

(** Every sample position of a block of a frame can be loaded. *)
Lemma frame_load (buffer : list Z) (x y c : Z) :
  frame_shaped buffer → in_frame x y → c ∈ RG10_colors →
  ∃ v, load buffer (RG10_LOCATION x y c) = Some v ∧ v ∈ buffer.
Proof.
  intros Hshape Hxy Hc.
  destruct (load_is_Some buffer (RG10_LOCATION x y c)) as [v Hv].
  - rewrite Hshape. by apply RG10_LOCATION_bounds.
  - exists v. split; [done|]. by apply load_elem_of with (RG10_LOCATION x y c).
Qed.

(** The four samples of block [(x, y)] and the three channels they give. *)
Lemma debayer_block (buffer : list Z) (x y : Z) :
  frame_shaped buffer → ten_bit buffer → in_frame x y →
  ∃ R Gr Gb B,
    load buffer (RG10_LOCATION x y RG10_R) = Some R ∧
    load buffer (RG10_LOCATION x y RG10_Gr) = Some Gr ∧
    load buffer (RG10_LOCATION x y RG10_Gb) = Some Gb ∧
    load buffer (RG10_LOCATION x y RG10_B) = Some B ∧
    (0 ≤ R ≤ MAX_RG10) ∧ (0 ≤ Gr ≤ MAX_RG10) ∧
    (0 ≤ Gb ≤ MAX_RG10) ∧ (0 ≤ B ≤ MAX_RG10) ∧
    debayer_red buffer x y = Some (scale_exact R) ∧
    debayer_blue buffer x y = Some (scale_exact B) ∧
    debayer_green buffer x y = Some (scale_exact ((Gr + Gb) `div` 2)).
Proof.
  intros Hshape Hten Hxy. unfold ten_bit in Hten. rewrite Forall_forall in Hten.
  destruct (frame_load buffer x y RG10_R) as (R & HR & HRin); [done..|apply RG10_R_color|].
  destruct (frame_load buffer x y RG10_Gr) as (Gr & HGr & HGrin); [done..|apply RG10_Gr_color|].
  destruct (frame_load buffer x y RG10_Gb) as (Gb & HGb & HGbin); [done..|apply RG10_Gb_color|].
  destruct (frame_load buffer x y RG10_B) as (B & HB & HBin); [done..|apply RG10_B_color|].
  apply Hten in HRin, HGrin, HGbin, HBin.
  exists R, Gr, Gb, B. split_and!; try done; try lia.
  - unfold debayer_red. rewrite HR. simpl. by apply NORM_exact.
  - unfold debayer_blue. rewrite HB. simpl. by apply NORM_exact.
  - unfold debayer_green. rewrite HGb, HGr. simpl.
    rewrite Z.quot_div_nonneg by lia. rewrite (Z.add_comm Gb Gr).
    apply NORM_exact. split; [apply Z.div_pos; lia|].
    apply Z.div_le_upper_bound; lia.
Qed.

(** The pass returns on every ten-bit frame and computes the exact
    truncated rescale in each channel. *)
Lemma debayer_ten_bit (junk : nat → Z) (buffer : list Z) :
  frame_shaped buffer → ten_bit buffer →
  ∃ image,
    debayer junk buffer = Some image ∧ image_shaped image ∧
    ∀ x y, in_frame x y →
      ∃ R Gr Gb B,
        load buffer (RG10_LOCATION x y RG10_R) = Some R ∧
        load buffer (RG10_LOCATION x y RG10_Gr) = Some Gr ∧
        load buffer (RG10_LOCATION x y RG10_Gb) = Some Gb ∧
        load buffer (RG10_LOCATION x y RG10_B) = Some B ∧
        load image (RGB_LOCATION x y RGB_R) = Some (scale_exact R) ∧
        load image (RGB_LOCATION x y RGB_B) = Some (scale_exact B) ∧
        load image (RGB_LOCATION x y RGB_G) = Some (scale_exact ((Gr + Gb) `div` 2)).
Proof using WIDTH_pos HEIGHT_pos.
  intros Hshape Hten. unfold debayer.
  destruct (debayer_into_is_Some WIDTH_pos HEIGHT_pos (malloc junk RGB_SIZE) buffer)
    as (image & Hrun & Himage).
  - by apply malloc_RGB_shaped.
  - intros x y Hxy.
    destruct (debayer_block buffer x y) as (R & Gr & Gb & B & Hb); [done..|].
    destruct Hb as (_ & _ & _ & _ & _ & _ & _ & _ & -> & -> & ->). eauto.
  - exists image. split_and!; [done..|]. intros x y Hxy.
    destruct (debayer_block buffer x y)
      as (R & Gr & Gb & B & HR & HGr & HGb & HB & _ & _ & _ & _ & Hr & Hb & Hg); [done..|].
    apply debayer_into_Some in Hrun as [_ Hdone]; [|done..].
    destruct (Hdone x y Hxy) as (r & g & b & Hr' & Hg' & Hb' & Lr & Lg & Lb).
    exists R, Gr, Gb, B. split_and!; [done..| | |]; congruence.
Qed.
End DebayerTenBit.

(** ** The scan for the extreme samples *)

Section MinMax.
Context `{G : Geometry}.
Hypothesis WIDTH_pos : 0 < WIDTH.
Hypothesis HEIGHT_pos : 0 < HEIGHT.

Lemma RG10_colors_cases (c : Z) :
  c ∈ RG10_colors ↔ c = RG10_R ∨ c = RG10_Gr ∨ c = RG10_Gb ∨ c = RG10_B.
Proof. unfold RG10_colors. rewrite !elem_of_cons, elem_of_nil. tauto. Qed.

(** The eight comparisons of the body keep the running extremes. *)
Lemma min_max_step_Some (buffer : list Z) (x y min max Gb Gr B R : Z) :
  load buffer (RG10_LOCATION x y RG10_Gb) = Some Gb →
  load buffer (RG10_LOCATION x y RG10_Gr) = Some Gr →
  load buffer (RG10_LOCATION x y RG10_B) = Some B →
  load buffer (RG10_LOCATION x y RG10_R) = Some R →
  min_max_step buffer x y (min, max) =
    Some (Z.min (Z.min (Z.min (Z.min min Gb) Gr) B) R,
          Z.max (Z.max (Z.max (Z.max max Gb) Gr) B) R).
Proof.
  intros HGb HGr HB HR. unfold min_max_step. rewrite HGb, HGr, HB, HR. simpl.
  repeat case_decide; do 2 f_equal; lia.
Qed.

Lemma handled_start (i : Z) : ¬ handled 0 0 i.
Proof.
  intros (x' & y' & c & [Hx Hy] & Hbefore & _). revert Hbefore.
  apply before_start; lia.
Qed.

Lemma handled_next (x y i : Z) :
  in_frame x y →
  handled (x + 1) y i ↔
  handled x y i ∨ i = RG10_LOCATION x y RG10_Gb ∨ i = RG10_LOCATION x y RG10_Gr ∨
  i = RG10_LOCATION x y RG10_R ∨ i = RG10_LOCATION x y RG10_B.
Proof.
  intros Hxy. split.
  - intros (x' & y' & c & Hxy' & [Hold|[-> ->]]%before_next & Hc & ->).
    + left. by exists x', y', c.
    + apply RG10_colors_cases in Hc as [->| [->| [->| ->]]]; tauto.
  - intros [(x' & y' & c & Hxy' & Hold & Hc & ->)|Hnew].
    + exists x', y', c. split_and!; [done| |done..]. apply before_next. by left.
    + assert (∃ c, c ∈ RG10_colors ∧ i = RG10_LOCATION x y c) as (c & Hc & ->).
      { destruct Hnew as [->| [->| [->| ->]]]; eexists; (split; [|done]);
          apply RG10_colors_cases; tauto. }
      exists x, y, c. split_and!; [done| |done..]. apply before_next. by right.
Qed.

Lemma handled_next_row (y i : Z) : handled 0 (y + 1) i → handled WIDTH y i.
Proof.
  intros (x' & y' & c & Hxy' & Hbefore & Hc & ->). exists x', y', c.
  split_and!; [done| |done..]. apply before_next_row; [|done]. by destruct Hxy'.
Qed.

Lemma handled_end (i : Z) : 0 ≤ i < RG10_SAMPLES → handled 0 HEIGHT i.
Proof using WIDTH_pos.
  intros (x & y & c & Hxy & Hc & <-)%RG10_LOCATION_cover; [|done].
  exists x, y, c. split_and!; [done| |done..]. by apply before_end.
Qed.

Lemma not_handled_here (x y c : Z) :
  in_frame x y → c ∈ RG10_colors → ¬ handled x y (RG10_LOCATION x y c).
Proof.
  intros Hxy Hc (x' & y' & c' & Hxy' & Hbefore & Hc' & Heq).
  apply RG10_LOCATION_inj in Heq as (-> & -> & _); [|done..].
  unfold before in Hbefore. lia.
Qed.

(** [min_max_frame] returns the least and the greatest sample. *)
Lemma min_max_frame_spec (buffer : list Z) :
  frame_shaped buffer → uint16_samples buffer →
  ∃ min max, min_max_frame buffer = Some (min, max) ∧ frame_min_max buffer min max.
Proof using WIDTH_pos HEIGHT_pos.
  intros Hshape Hu16. unfold uint16_samples in Hu16. rewrite Forall_forall in Hu16.
  destruct (for_each_pixel_total (Z.lt_le_incl _ _ WIDTH_pos) (Z.lt_le_incl _ _ HEIGHT_pos)
              (scanned buffer) (min_max_step buffer) (65535, 0))
    as ([min max] & Hrun & Hbound & Hmin & Hmax).
  - split_and!; [|by left..]. intros i v Hi. by apply handled_start in Hi.
  - intros x y [min max] Hxy (Hbound & Hmin & Hmax). simpl in *.
    destruct (frame_load buffer x y RG10_Gb) as (Gb & HGb & HGbin); [done..|apply RG10_Gb_color|].
    destruct (frame_load buffer x y RG10_Gr) as (Gr & HGr & HGrin); [done..|apply RG10_Gr_color|].
    destruct (frame_load buffer x y RG10_B) as (B & HB & HBin); [done..|apply RG10_B_color|].
    destruct (frame_load buffer x y RG10_R) as (R & HR & HRin); [done..|apply RG10_R_color|].
    eexists. split; [by apply min_max_step_Some|]. split_and!; simpl.
    + intros i v Hi Hv. apply handled_next in Hi as [Hold|Hnew]; [| |done].
      * specialize (Hbound i v Hold Hv). lia.
      * assert (v = Gb ∨ v = Gr ∨ v = R ∨ v = B) by
          (destruct Hnew as [->| [->| [->| ->]]];
           [left|right; left|right; right; left|right; right; right]; congruence).
        lia.
    + set (m := Z.min _ R).
      assert (m = min ∨ m = Gb ∨ m = Gr ∨ m = B ∨ m = R) as Hm by lia.
      destruct Hm as [Hm| [Hm| [Hm| [Hm| Hm]]]]; rewrite Hm; auto.
    + set (m := Z.max _ R).
      assert (m = max ∨ m = Gb ∨ m = Gr ∨ m = B ∨ m = R) as Hm by lia.
      destruct Hm as [Hm| [Hm| [Hm| [Hm| Hm]]]]; rewrite Hm; auto.
  - intros y [min max] Hy (Hbound & Hmin & Hmax). split_and!; [|done..].
    intros i v Hi. apply Hbound. by apply handled_next_row.
  - simpl in *. exists min, max. split; [done|].
    assert (∀ v, v ∈ buffer → min ≤ v ≤ max) as Hall.
    { intros v (i & Hv)%elem_of_load. apply Hbound with i; [|done].
      apply handled_end. rewrite <- Hshape. by apply load_Some with v. }
    destruct (frame_load buffer 0 0 RG10_R) as (v0 & _ & Hv0);
      [done|unfold in_frame; lia|apply RG10_R_color|].
    pose proof (Hall v0 Hv0). pose proof (Hu16 v0 Hv0).
    split_and!.
    + destruct Hmin as [->|]; [|done]. by replace 65535 with v0 by lia.
    + destruct Hmax as [->|]; [|done]. by replace 0 with v0 by lia.
    + by apply Forall_forall.
Qed.
End MinMax.

(** ** The in-place pass of [normalize_frame] *)

Section NormalizePass.
Context `{G : Geometry}.
Hypothesis WIDTH_pos : 0 < WIDTH.
Hypothesis HEIGHT_pos : 0 < HEIGHT.
Variables (min : Z) (mult : spec_float).
Variable buffer : list Z.
Hypothesis buffer_shaped : frame_shaped buffer.
Hypothesis samples_defined : ∀ v, v ∈ buffer → is_Some (normalize_sample min mult v).

Lemma replaced_on_equiv (f : Z → option Z) (D D' : Z → Prop) (b b' : list Z) :
  (∀ i, D i ↔ D' i) → replaced_on f D b b' → replaced_on f D' b b'.
Proof.
  intros HD [Hlen Hrep]. split; [done|]. intros i v Hv.
  destruct (Hrep i v Hv) as [Hin Hout]. rewrite <- HD. by split.
Qed.

(** One assignment of the body replaces one more sample. *)
Lemma normalize_at_extends (D : Z → Prop) (b' : list Z) (location : Z) :
  replaced_on (normalize_sample min mult) D buffer b' →
  ¬ D location → 0 ≤ location < RG10_SAMPLES →
  ∃ b'', normalize_at min mult location b' = Some b'' ∧
         replaced_on (normalize_sample min mult) (λ i, D i ∨ i = location) buffer b''.
Proof using buffer_shaped samples_defined.
  intros [Hlen Hrep] Hfresh Hloc. rewrite <- buffer_shaped in Hloc.
  destruct (load_is_Some buffer location Hloc) as [v Hv].
  destruct (Hrep location v Hv) as [_ Hsame]. specialize (Hsame Hfresh).
  destruct (samples_defined v) as [v' Hv']; [by apply load_elem_of with location|].
  destruct (store_is_Some b' location v') as [b'' Hstore]; [lia|].
  exists b''. split.
  { unfold normalize_at. rewrite Hsame. simpl. rewrite Hv'. done. }
  apply store_Some in Hstore as (_ & Hlen' & Hload).
  split; [congruence|]. intros i w Hw. rewrite Hload.
  destruct (Hrep i w Hw) as [Hin Hout].
  destruct (decide (i = location)) as [->|Hne].
  - split; [|tauto]. intros _. exists v'. split; [|done]. congruence.
  - split; [|tauto]. intros [Hi|Hi]; [auto|done].
Qed.

Lemma block_locations_distinct (x y c c' : Z) :
  c ∈ RG10_colors → c' ∈ RG10_colors → c ≠ c' →
  RG10_LOCATION x y c ≠ RG10_LOCATION x y c'.
Proof. rewrite !RG10_LOCATION_row. lia. Qed.

Lemma RG10_colors_distinct :
  RG10_Gr ≠ RG10_Gb ∧ RG10_R ≠ RG10_Gb ∧ RG10_R ≠ RG10_Gr ∧
  RG10_B ≠ RG10_Gb ∧ RG10_B ≠ RG10_Gr ∧ RG10_B ≠ RG10_R.
Proof using WIDTH_pos.
  unfold RG10_B, RG10_Gb, RG10_Gr, RG10_R, RG10_COLOR_SIZE. lia.
Qed.

(** The body of the nest replaces the four samples of its block. *)
Lemma normalize_step_extends (x y : Z) (b' : list Z) :
  in_frame x y →
  replaced_on (normalize_sample min mult) (handled x y) buffer b' →
  ∃ b'', normalize_step min mult x y b' = Some b'' ∧
         replaced_on (normalize_sample min mult) (handled (x + 1) y) buffer b''.
Proof using WIDTH_pos buffer_shaped samples_defined.
  intros Hxy H0. unfold normalize_step.
  pose proof RG10_colors_distinct as (D1 & D2 & D3 & D4 & D5 & D6).
  pose proof (not_handled_here x y RG10_Gb Hxy RG10_Gb_color) as N1.
  pose proof (not_handled_here x y RG10_Gr Hxy RG10_Gr_color) as N2.
  pose proof (not_handled_here x y RG10_R Hxy RG10_R_color) as N3.
  pose proof (not_handled_here x y RG10_B Hxy RG10_B_color) as N4.
  pose proof (λ c c', block_locations_distinct x y c c') as Hd.
  destruct (normalize_at_extends _ b' (RG10_LOCATION x y RG10_Gb) H0)
    as (b1 & -> & H1); [done|by apply RG10_LOCATION_bounds, RG10_Gb_color|]. simpl.
  destruct (normalize_at_extends _ b1 (RG10_LOCATION x y RG10_Gr) H1)
    as (b2 & -> & H2); [|by apply RG10_LOCATION_bounds, RG10_Gr_color|].
  { intros [?|Heq]; [done|]. revert Heq.
    apply Hd; auto using RG10_Gb_color, RG10_Gr_color. }
  simpl.
  destruct (normalize_at_extends _ b2 (RG10_LOCATION x y RG10_R) H2)
    as (b3 & -> & H3); [|by apply RG10_LOCATION_bounds, RG10_R_color|].
  { intros [[?|Heq]|Heq]; [done|revert Heq..];
      apply Hd; auto using RG10_Gb_color, RG10_Gr_color, RG10_R_color. }
  simpl.
  destruct (normalize_at_extends _ b3 (RG10_LOCATION x y RG10_B) H3)
    as (b4 & -> & H4); [|by apply RG10_LOCATION_bounds, RG10_B_color|].
  { intros [[[?|Heq]|Heq]|Heq]; [done|revert Heq..];
      apply Hd; auto using RG10_Gb_color, RG10_Gr_color, RG10_R_color, RG10_B_color. }
  exists b4. split; [done|]. revert H4. apply replaced_on_equiv.
  intros i. rewrite handled_next by done. tauto.
Qed.

(** The pass returns the frame with every sample replaced. *)
Lemma normalize_pass_spec :
  ∃ buffer',
    for_each_pixel (normalize_step min mult) buffer = Some buffer' ∧
    length buffer' = length buffer ∧
    ∀ i v, load buffer i = Some v →
      ∃ v', normalize_sample min mult v = Some v' ∧ load buffer' i = Some v'.
Proof using WIDTH_pos HEIGHT_pos buffer_shaped samples_defined.
  destruct (for_each_pixel_total (Z.lt_le_incl _ _ WIDTH_pos) (Z.lt_le_incl _ _ HEIGHT_pos)
              (λ x y b', replaced_on (normalize_sample min mult) (handled x y) buffer b')
              (normalize_step min mult) buffer)
    as (buffer' & Hrun & Hlen & Hrep).
  - split; [done|]. intros i v Hv. split; [|done].
    intros Hi. by apply handled_start in Hi.
  - intros x y b' Hxy Hb'. by apply normalize_step_extends.
  - intros y b' Hy. apply replaced_on_equiv. intros i. split.
    + intros (x' & y' & c & Hxy' & Hbefore & Hc & ->). exists x', y', c.
      split_and!; [done| |done..]. unfold before in *. destruct Hxy'. lia.
    + apply handled_next_row.
  - exists buffer'. split_and!; [done..|]. intros i v Hv.
    destruct (Hrep i v Hv) as [Hin _]. apply Hin, handled_end; [done|].
    rewrite <- buffer_shaped. by apply load_Some with v.
Qed.
End NormalizePass.

(** ** Single-precision arithmetic of the normalization *)

Lemma digits2_pos_size (p : positive) : digits2_pos p = Pos.size p.
Proof. induction p as [p IH|p IH|]; simpl; by rewrite ?IH. Qed.

Lemma Zdigits2_log2 (p : positive) : Zdigits2 (Z.pos p) = Z.log2 (Z.pos p) + 1.
Proof.
  unfold Zdigits2. rewrite digits2_pos_size.
  destruct p; simpl; rewrite ?Pos2Z.inj_succ; lia.
Qed.

Lemma Zdigits2_bounds (p : positive) :
  2 ^ (Zdigits2 (Z.pos p) - 1) ≤ Z.pos p < 2 ^ Zdigits2 (Z.pos p).
Proof.
  rewrite Zdigits2_log2. pose proof (Z.log2_spec (Z.pos p) ltac:(lia)) as Hspec.
  replace (Z.log2 (Z.pos p) + 1 - 1) with (Z.log2 (Z.pos p)) by lia.
  by replace (Z.log2 (Z.pos p) + 1) with (Z.succ (Z.log2 (Z.pos p))) by lia.
Qed.

Lemma Zdigits2_unique (z k : Z) : 0 < k → 2 ^ (k - 1) ≤ z < 2 ^ k → Zdigits2 z = k.
Proof.
  intros Hk Hz. assert (0 < z) as Hpos.
  { pose proof (Z.pow_pos_nonneg 2 (k - 1)). lia. }
  destruct z as [|p|p]; [lia| |lia]. rewrite Zdigits2_log2.
  rewrite (Z.log2_unique (Z.pos p) (k - 1)); [lia|lia|].
  by replace (Z.succ (k - 1)) with k by lia.
Qed.

Lemma shr_1_m (r : shr_record) : 0 ≤ shr_m r → shr_m (shr_1 r) = shr_m r `div` 2.
Proof.
  destruct r as [m r s]. simpl. intros Hm. rewrite <- Z.div2_div.
  destruct m as [|[p|p|]|p]; simpl; lia || done.
Qed.

Lemma iter_pos_shr_m (p : positive) :
  ∀ r, 0 ≤ shr_m r → shr_m (SpecFloat.iter_pos shr_1 p r) = shr_m r `div` 2 ^ Z.pos p.
Proof.
  induction p as [p IH|p IH|]; intros r Hr; simpl SpecFloat.iter_pos.
  - assert (0 ≤ shr_m (shr_1 r)) by (rewrite shr_1_m by done; by apply Z.div_pos).
    assert (0 ≤ shr_m (SpecFloat.iter_pos shr_1 p (shr_1 r)))
      by (rewrite IH by done; apply Z.div_pos; [done|by apply Z.pow_pos_nonneg]).
    rewrite !IH, shr_1_m by done.
    pose proof (Z.pow_pos_nonneg 2 (Z.pos p)) as HP.
    replace (Z.pos p~1) with (1 + Z.pos p + Z.pos p) by lia.
    rewrite !Z.pow_add_r, Z.pow_1_r by lia.
    rewrite !Z.div_div by lia. f_equal. lia.
  - assert (0 ≤ shr_m (SpecFloat.iter_pos shr_1 p r))
      by (rewrite IH by done; apply Z.div_pos; [done|by apply Z.pow_pos_nonneg]).
    rewrite !IH by done.
    pose proof (Z.pow_pos_nonneg 2 (Z.pos p)) as HP.
    replace (Z.pos p~0) with (Z.pos p + Z.pos p) by lia.
    rewrite !Z.pow_add_r by lia.
    rewrite !Z.div_div by lia. done.
  - by rewrite shr_1_m.
Qed.

Lemma round_nearest_even_bounds (m : Z) (l : location) :
  m ≤ round_nearest_even m l ≤ m + 1.
Proof. destruct l as [|[]]; simpl; try destruct (Z.even m); lia. Qed.

(** A mantissa with [n ≥ 1] digits too many is shifted right by [n]. *)
Lemma shr_fexp_shift (p : positive) (E n : Z) (l : location) :
  Zdigits2 (Z.pos p) = 24 + n → 1 ≤ n → -149 ≤ E + n →
  ∃ r, shr_fexp f32_prec f32_emax (Z.pos p) E l = (r, E + n) ∧
       shr_m r = Z.pos p `div` 2 ^ n.
Proof.
  intros Hdigits Hn HE. unfold shr_fexp, fexp, emin, f32_prec, f32_emax.
  rewrite Hdigits.
  replace (Z.max (24 + n + E - 24) (3 - 128 - 24) - E) with n by lia.
  destruct n as [|k|k]; [lia| |lia]. unfold shr.
  eexists. split; [done|]. rewrite iter_pos_shr_m; by destruct l as [|[]].
Qed.

(** A mantissa of exactly 24 digits is left alone. *)
Lemma shr_fexp_keep (m E : Z) (l : location) :
  Zdigits2 m = 24 → -149 ≤ E →
  shr_fexp f32_prec f32_emax m E l = (shr_record_of_loc m l, E).
Proof.
  intros Hm HE. unfold shr_fexp, fexp, emin, f32_prec, f32_emax. rewrite Hm.
  by replace (Z.max (24 + E - 24) (3 - 128 - 24) - E) with 0 by lia.
Qed.

Lemma shr_fexp_first (p : positive) (E n : Z) (l : location) :
  Zdigits2 (Z.pos p) = 24 + n → 0 ≤ n → -149 ≤ E + n →
  ∃ r, shr_fexp f32_prec f32_emax (Z.pos p) E l = (r, E + n) ∧
       shr_m r = Z.pos p `div` 2 ^ n.
Proof.
  intros Hdigits Hn HE. destruct (decide (n = 0)) as [->|Hn0].
  - rewrite shr_fexp_keep, Z.add_0_r, Z.pow_0_r, Z.div_1_r by (done || lia).
    eexists. split; [done|]. by destruct l as [|[]].
  - apply shr_fexp_shift; [done|lia..].
Qed.

(** Rounding a positive integer that has [n] digits more than the format
    holds, whatever is known about the digits already dropped: the result
    is a normal number less than one unit in the last place away. *)
Lemma round_aux_bounds (M : positive) (E n : Z) (l : location) :
  Zdigits2 (Z.pos M) = 24 + n → 0 ≤ n → -149 ≤ E + n → E + n + 1 ≤ 104 →
  ∃ m e, binary_round_aux f32_prec f32_emax false (Z.pos M) E l
           = S754_finite false m e ∧
         E + n ≤ e ≤ E + n + 1 ∧ 2 ^ 23 ≤ Z.pos m < 2 ^ 24 ∧
         Z.pos M - 2 ^ n < Z.pos m * 2 ^ (e - E) ≤ Z.pos M + 2 ^ n.
Proof.
  intros Hdigits Hn HE1 HE2. unfold binary_round_aux.
  destruct (shr_fexp_first M E n l Hdigits Hn HE1) as (r & -> & Hr).
  pose proof (Zdigits2_bounds M) as HM. rewrite Hdigits in HM.
  pose proof (Z.pow_pos_nonneg 2 n ltac:(lia) ltac:(lia)) as Hpn.
  replace (24 + n - 1) with (23 + n) in HM by lia.
  rewrite !Z.pow_add_r in HM by lia.
  set (q := Z.pos M `div` 2 ^ n) in *.
  assert (2 ^ 23 ≤ q < 2 ^ 24) as Hq.
  { split; [apply Z.div_le_lower_bound; lia|apply Z.div_lt_upper_bound; lia]. }
  pose proof (Z.mul_div_le (Z.pos M) (2 ^ n) Hpn) as Hlo.
  pose proof (Z.mul_succ_div_gt (Z.pos M) (2 ^ n) Hpn) as Hhi. fold q in Hlo, Hhi.
  pose proof (round_nearest_even_bounds (shr_m r) (loc_of_shr_record r)) as Hq'.
  set (q' := round_nearest_even (shr_m r) (loc_of_shr_record r)) in *. rewrite Hr in Hq'.
  assert (f32_emax - f32_prec = 104) as -> by done.
  destruct (decide (q' < 2 ^ 24)) as [Hsmall|Hbig].
  - rewrite shr_fexp_keep; [|apply Zdigits2_unique; lia|lia]. simpl shr_m.
    destruct q' as [|m|m] eqn:Hm; [lia| |lia].
    rewrite (proj2 (Z.leb_le (E + n) 104)) by lia.
    exists m, (E + n). replace (E + n - E) with n by lia.
    split_and!; [done|lia|lia|lia|lia|nia|nia].
  - assert (q' = Z.pos 16777216) as -> by lia.
    destruct (shr_fexp_shift 16777216 (E + n) 1 loc_Exact) as (r2 & -> & ->); [done|lia..|].
    change (Z.pos 16777216 `div` 2 ^ 1) with (Z.pos 8388608).
    rewrite (proj2 (Z.leb_le (E + n + 1) 104)) by lia.
    exists 8388608%positive, (E + n + 1). replace (E + n + 1 - E) with (n + 1) by lia.
    rewrite Z.pow_add_r, Z.pow_1_r by lia.
    split_and!; [done|lia|lia|lia|lia|nia|nia].
Qed.

(** The product of two positive normal numbers whose exponents are in the
    range met here is a normal number with a relative error of at most
    [2^-23]. *)
Lemma f32_mul_bounds (mx my : positive) (ex ey : Z) :
  2 ^ 23 ≤ Z.pos mx < 2 ^ 24 → 2 ^ 23 ≤ Z.pos my < 2 ^ 24 → -100 ≤ ex + ey ≤ 0 →
  ∃ m e, f32_mul (S754_finite false mx ex) (S754_finite false my ey)
           = S754_finite false m e ∧
         ex + ey < e ∧ 2 ^ 23 ≤ Z.pos m < 2 ^ 24 ∧
         2 ^ 23 * Z.abs (Z.pos m * 2 ^ (e - (ex + ey)) - Z.pos mx * Z.pos my)
           ≤ Z.pos mx * Z.pos my.
Proof.
  intros Hmx Hmy HE. unfold f32_mul, SFmul. simpl xorb.
  change (Z.pos (mx * my)) with (Z.pos mx * Z.pos my) in *.
  rewrite <- Pos2Z.inj_mul.
  assert (2 ^ 46 ≤ Z.pos (mx * my) < 2 ^ 48) as HM.
  { rewrite Pos2Z.inj_mul. change (2 ^ 46) with (2 ^ 23 * 2 ^ 23).
    change (2 ^ 48) with (2 ^ 24 * 2 ^ 24). nia. }
  destruct (decide (Z.pos (mx * my) < 2 ^ 47)) as [Hlow|Hhigh].
  - destruct (round_aux_bounds (mx * my) (ex + ey) 23 loc_Exact) as (m & e & -> & He & Hm & HV);
      [by apply Zdigits2_unique; lia|lia..|].
    exists m, e. split_and!; [done|lia..|].
    change (2 ^ 23) with 8388608 in *. change (2 ^ 46) with 70368744177664 in *. lia.
  - destruct (round_aux_bounds (mx * my) (ex + ey) 24 loc_Exact) as (m & e & -> & He & Hm & HV);
      [by apply Zdigits2_unique; lia|lia..|].
    exists m, e. split_and!; [done|lia..|].
    change (2 ^ 24) with 16777216 in *. change (2 ^ 23) with 8388608 in *.
    change (2 ^ 47) with 140737488355328 in *. lia.
Qed.

(** *** Integers in single precision *)

Lemma Zdigits2_pos (d : Z) : 0 < d → 0 < Zdigits2 d.
Proof. destruct d; [lia| |lia]. intros _. simpl. lia. Qed.

Lemma Zdigits2_range (d : Z) :
  0 < d → 2 ^ (Zdigits2 d - 1) ≤ d < 2 ^ Zdigits2 d.
Proof. destruct d as [|p|p]; [lia| |lia]. intros _. apply Zdigits2_bounds. Qed.

Lemma Zdigits2_shift (d k : Z) :
  0 < d → 0 ≤ k → Zdigits2 (d * 2 ^ k) = Zdigits2 d + k.
Proof.
  intros Hd Hk. pose proof (Zdigits2_pos d Hd). pose proof (Zdigits2_range d Hd) as Hr.
  pose proof (Z.pow_pos_nonneg 2 k ltac:(lia) Hk).
  apply Zdigits2_unique; [lia|].
  replace (Zdigits2 d + k - 1) with (Zdigits2 d - 1 + k) by lia.
  rewrite !Z.pow_add_r by lia. nia.
Qed.

Lemma Zdigits2_le_16 (d : Z) : 1 ≤ d ≤ 65535 → 1 ≤ Zdigits2 d ≤ 16.
Proof.
  intros Hd. pose proof (Zdigits2_pos d ltac:(lia)).
  pose proof (Zdigits2_range d ltac:(lia)) as [Hlo _].
  split; [lia|]. destruct (decide (Zdigits2 d ≤ 16)) as [|Hbig]; [done|exfalso].
  pose proof (Z.pow_le_mono_r 2 16 (Zdigits2 d - 1) ltac:(lia) ltac:(lia)) as Hpow.
  change (2 ^ 16) with 65536 in Hpow. lia.
Qed.

(** The mantissa of the canonical form has 24 digits. *)
Lemma canon_mantissa (d : Z) :
  0 < d → Zdigits2 d ≤ 24 →
  2 ^ 23 ≤ d * 2 ^ (24 - Zdigits2 d) < 2 ^ 24 ∧
  Zdigits2 (d * 2 ^ (24 - Zdigits2 d)) = 24.
Proof.
  intros Hd Hdig. pose proof (Zdigits2_pos d Hd).
  rewrite Zdigits2_shift by lia. split; [|lia].
  pose proof (Zdigits2_range d Hd) as Hr.
  pose proof (Z.pow_pos_nonneg 2 (24 - Zdigits2 d) ltac:(lia) ltac:(lia)).
  assert (2 ^ 23 = 2 ^ (Zdigits2 d - 1) * 2 ^ (24 - Zdigits2 d)) as ->
    by (rewrite <- Z.pow_add_r by lia; f_equal; lia).
  assert (2 ^ 24 = 2 ^ Zdigits2 d * 2 ^ (24 - Zdigits2 d)) as ->
    by (rewrite <- Z.pow_add_r by lia; f_equal; lia).
  nia.
Qed.

(** Shifting out bits that are all zero is exact. *)
Lemma shr_1_exact (c : Z) :
  0 ≤ c →
  shr_1 {| shr_m := c * 2; shr_r := false; shr_s := false |}
    = {| shr_m := c; shr_r := false; shr_s := false |}.
Proof. destruct c as [|p|p]; [done| |lia]. intros _. by rewrite Z.mul_comm. Qed.

Lemma iter_pos_shr_exact (p : positive) :
  ∀ c, 0 ≤ c →
    SpecFloat.iter_pos shr_1 p {| shr_m := c * 2 ^ Z.pos p; shr_r := false; shr_s := false |}
      = {| shr_m := c; shr_r := false; shr_s := false |}.
Proof.
  induction p as [p IH|p IH|]; intros c Hc; cbn [SpecFloat.iter_pos].
  - pose proof (Z.pow_pos_nonneg 2 (Z.pos p) ltac:(lia) ltac:(lia)).
    replace (c * 2 ^ Z.pos p~1) with (c * 2 ^ Z.pos p * 2 ^ Z.pos p * 2).
    + rewrite shr_1_exact, !IH by nia. done.
    + replace (Z.pos p~1) with (Z.pos p + Z.pos p + 1) by lia.
      rewrite !Z.pow_add_r, Z.pow_1_r by lia. lia.
  - pose proof (Z.pow_pos_nonneg 2 (Z.pos p) ltac:(lia) ltac:(lia)).
    replace (c * 2 ^ Z.pos p~0) with (c * 2 ^ Z.pos p * 2 ^ Z.pos p).
    + rewrite !IH by nia. done.
    + replace (Z.pos p~0) with (Z.pos p + Z.pos p) by lia.
      rewrite !Z.pow_add_r by lia. lia.
  - rewrite Z.pow_1_r. by apply shr_1_exact.
Qed.

(** A number that fits the format is rounded to itself. *)
Lemma round_aux_keep (m : positive) (e : Z) :
  Zdigits2 (Z.pos m) = 24 → -149 ≤ e ≤ 104 →
  binary_round_aux f32_prec f32_emax false (Z.pos m) e loc_Exact = S754_finite false m e.
Proof.
  intros Hm He. unfold binary_round_aux.
  rewrite shr_fexp_keep by (done || lia). simpl.
  rewrite shr_fexp_keep by (done || lia). simpl.
  assert (f32_emax - f32_prec = 104) as -> by done.
  by rewrite (proj2 (Z.leb_le e 104)) by lia.
Qed.

(** A number with trailing zero bits beyond the format is rounded to the
    number without them. *)
Lemma round_aux_exact (c : positive) (e n : Z) :
  Zdigits2 (Z.pos c) = 24 → 1 ≤ n → -149 ≤ e + n ≤ 104 →
  binary_round_aux f32_prec f32_emax false (Z.pos c * 2 ^ n) e loc_Exact
    = S754_finite false c (e + n).
Proof.
  intros Hc Hn He. unfold binary_round_aux.
  assert (shr_fexp f32_prec f32_emax (Z.pos c * 2 ^ n) e loc_Exact
          = ({| shr_m := Z.pos c; shr_r := false; shr_s := false |}, e + n)) as ->.
  { unfold shr_fexp, fexp, emin, f32_prec, f32_emax.
    rewrite Zdigits2_shift, Hc by lia.
    replace (Z.max (24 + n + e - 24) (3 - 128 - 24) - e) with n by lia.
    destruct n as [|k|k]; [lia| |lia]. unfold shr. simpl shr_record_of_loc.
    by rewrite iter_pos_shr_exact. }
  simpl. rewrite shr_fexp_keep by (done || lia). simpl.
  assert (f32_emax - f32_prec = 104) as -> by done.
  by rewrite (proj2 (Z.leb_le (e + n) 104)) by lia.
Qed.

Lemma shl_align_spec (m : positive) (e e' : Z) :
  e' ≤ e → shl_align m e e' = (Z.to_pos (Z.pos m * 2 ^ (e - e')), e').
Proof.
  intros He. unfold shl_align. destruct (e' - e) as [|k|k] eqn:Hk; [|lia|].
  - replace (e - e') with 0 by lia. replace e' with e by lia.
    by rewrite Z.pow_0_r, Z.mul_1_r.
  - replace (e - e') with (Z.pos k) by lia.
    change (Pos.iter xO m k) with (shift_pos k m). f_equal.
    apply Pos2Z.inj. rewrite shift_pos_correct.
    change (Z.pow_pos 2 k) with (2 ^ Z.pos k).
    rewrite Z2Pos.id; [lia|]. pose proof (Z.pow_pos_nonneg 2 (Z.pos k)). nia.
Qed.

Lemma shl_align_keep (m : positive) (e e' : Z) :
  e ≤ e' → shl_align m e e' = (m, e).
Proof.
  intros He. unfold shl_align. destruct (e' - e) as [|k|k] eqn:Hk; [done..|lia].
Qed.

(** A positive integer below [2^24], given with [k] trailing zero bits and
    the exponent [-k], normalizes to its canonical form. *)
Lemma binary_normalize_canonical (d k : Z) :
  0 < d → Zdigits2 d ≤ 24 → 0 ≤ k ≤ 100 →
  binary_normalize f32_prec f32_emax (d * 2 ^ k) (- k) false = f32_canon d.
Proof.
  intros Hd Hdig Hk. pose proof (Zdigits2_pos d Hd) as Hdpos.
  pose proof (Z.pow_pos_nonneg 2 k ltac:(lia) ltac:(lia)) as Hpk.
  destruct (canon_mantissa d Hd Hdig) as [Hcm Hcd].
  pose proof (Z.pow_pos_nonneg 2 (24 - Zdigits2 d) ltac:(lia) ltac:(lia)) as Hpc.
  destruct (d * 2 ^ k) as [|M|M] eqn:HM; [nia| |nia].
  unfold binary_normalize, binary_round.
  change (Z.pos (digits2_pos M)) with (Zdigits2 (Z.pos M)).
  rewrite <- HM, Zdigits2_shift by lia.
  assert (fexp f32_prec f32_emax (Zdigits2 d + k + - k) = Zdigits2 d - 24) as ->
    by (unfold fexp, emin, f32_prec, f32_emax; lia).
  unfold f32_canon.
  destruct (d * 2 ^ (24 - Zdigits2 d)) as [|c|c] eqn:Hc; [lia| |lia].
  destruct (decide (Zdigits2 d - 24 ≤ - k)) as [Hleft|Hright].
  - rewrite shl_align_spec by done.
    replace (Z.pos M * 2 ^ (- k - (Zdigits2 d - 24))) with (Z.pos c).
    + simpl Z.to_pos. by apply round_aux_keep; [|lia].
    + rewrite <- HM, <- Hc, <- Z.mul_assoc, <- Z.pow_add_r by lia. do 2 f_equal. lia.
  - rewrite shl_align_keep by lia.
    replace (Z.pos M) with (Z.pos c * 2 ^ (Zdigits2 d + k - 24)).
    + rewrite round_aux_exact by (done || lia). simpl Z.to_pos. f_equal. lia.
    + rewrite <- HM, <- Hc, <- Z.mul_assoc, <- Z.pow_add_r by lia. do 2 f_equal. lia.
Qed.

Lemma f32_of_int_canon (d : Z) : 0 < d → Zdigits2 d ≤ 24 → f32_of_int d = f32_canon d.
Proof.
  intros Hd Hdig. unfold f32_of_int.
  rewrite <- (binary_normalize_canonical d 0) by lia.
  by rewrite Z.pow_0_r, Z.mul_1_r.
Qed.

(** The quotient of two positive normal numbers. *)
Lemma f32_div_bounds (m1 m2 : positive) (e1 e2 : Z) :
  2 ^ 23 ≤ Z.pos m1 < 2 ^ 24 → 2 ^ 23 ≤ Z.pos m2 < 2 ^ 24 → -100 ≤ e1 - e2 ≤ 100 →
  ∃ m e, f32_div (S754_finite false m1 e1) (S754_finite false m2 e2)
           = S754_finite false m e ∧
         0 ≤ e - (e1 - e2 - 24) ≤ 2 ∧ 2 ^ 23 ≤ Z.pos m < 2 ^ 24 ∧
         Z.abs (Z.pos m2 * (Z.pos m * 2 ^ (e - (e1 - e2 - 24))) - Z.pos m1 * 2 ^ 24)
           ≤ 3 * Z.pos m2.
Proof.
  intros Hm1 Hm2 He. unfold f32_div, SFdiv, SFdiv_core_binary. simpl xorb.
  rewrite (Zdigits2_unique (Z.pos m1) 24), (Zdigits2_unique (Z.pos m2) 24) by lia.
  assert (Z.min (fexp f32_prec f32_emax (24 + e1 - (24 + e2))) (e1 - e2) = e1 - e2 - 24) as ->
    by (unfold fexp, emin, f32_prec, f32_emax; lia).
  replace (e1 - e2 - (e1 - e2 - 24)) with 24 by lia.
  rewrite Z.shiftl_mul_pow2 by lia.
  pose proof (Z.div_mod (Z.pos m1 * 2 ^ 24) (Z.pos m2) ltac:(lia)) as Hdm.
  pose proof (Z.mod_pos_bound (Z.pos m1 * 2 ^ 24) (Z.pos m2) ltac:(lia)) as Hmod.
  unfold Z.div, Z.modulo in Hdm, Hmod.
  destruct (Z.div_eucl (Z.pos m1 * 2 ^ 24) (Z.pos m2)) as [q r]. simpl in Hdm, Hmod.
  change (2 ^ 23) with 8388608 in *. change (2 ^ 24) with 16777216 in *.
  assert (8388608 ≤ q < 33554432) as Hq by nia.
  destruct q as [|Q|Q]; [lia| |lia].
  destruct (decide (Z.pos Q < 16777216)) as [Hlow|Hhigh].
  - destruct (round_aux_bounds Q (e1 - e2 - 24) 0 (new_location (Z.pos m2) r))
      as (m & e & -> & Hex & Hm & HV); [by apply Zdigits2_unique; lia|lia..|].
    exists m, e. rewrite Z.pow_0_r in HV. split_and!; [done|lia..|].
    change (2 ^ 23) with 8388608 in *. change (2 ^ 24) with 16777216 in *. nia.
  - destruct (round_aux_bounds Q (e1 - e2 - 24) 1 (new_location (Z.pos m2) r))
      as (m & e & -> & Hex & Hm & HV); [by apply Zdigits2_unique; lia|lia..|].
    exists m, e. rewrite Z.pow_1_r in HV. split_and!; [done|lia..|].
    change (2 ^ 23) with 8388608 in *. change (2 ^ 24) with 16777216 in *. nia.
Qed.

(** [round] of a positive number with a fractional part. *)
Lemma float_round_finite (m : positive) (r : Z) :
  r ≤ -1 →
  float_round (S754_finite false m r)
    = Some ((Z.pos m + 2 ^ (- r - 1)) `div` (2 * 2 ^ (- r - 1))).
Proof.
  intros Hr. unfold float_round, cond_Zopp. f_equal.
  rewrite Z.shiftl_div_pow2 by lia. replace (- (r + 1)) with (- r - 1) by lia.
  pose proof (Z.pow_pos_nonneg 2 (- r - 1) ltac:(lia) ltac:(lia)) as HS.
  set (S := 2 ^ (- r - 1)) in *.
  replace (Z.pos m + S) with (Z.pos m + 1 * S) by lia.
  rewrite (Z.mul_comm 2 S), <- Z.div_div, Z.div_add by lia. done.
Qed.

(** [(float) n] holds a sample [n] exactly, in a normal number. *)
Lemma of_int_finite (n : Z) :
  1 ≤ n ≤ 65535 →
  ∃ m e, f32_of_int n = S754_finite false m e ∧
         2 ^ 23 ≤ Z.pos m < 2 ^ 24 ∧ -23 ≤ e ≤ -8 ∧ Z.pos m = n * 2 ^ (- e).
Proof.
  intros Hn. pose proof (Zdigits2_le_16 n Hn) as Hdig.
  destruct (canon_mantissa n) as [Hcm _]; [lia..|].
  rewrite f32_of_int_canon by lia. unfold f32_canon.
  eexists _, _. split; [done|]. rewrite Z2Pos.id by lia.
  split_and!; [lia..|]. do 2 f_equal. lia.
Qed.

(** The multiplier [1023 / (float) d] is a normal number, and [d] times
    it is within [2^-12] of 1023. *)
Lemma mult_finite (d : Z) :
  1 ≤ d ≤ 65535 →
  ∃ m e, f32_div (f32_of_int 1023) (f32_of_int d) = S754_finite false m e ∧
         2 ^ 23 ≤ Z.pos m < 2 ^ 24 ∧ -30 ≤ e ≤ -13 ∧
         2 ^ 12 * Z.abs (d * Z.pos m - 1023 * 2 ^ (- e)) ≤ 2 ^ (- e).
Proof.
  intros Hd.
  destruct (of_int_finite d Hd) as (m2 & e2 & -> & Hm2 & He2 & Hv2).
  change (f32_of_int 1023) with (S754_finite false 16760832 (-14)).
  destruct (f32_div_bounds 16760832 m2 (-14) e2) as (m & e & -> & He & Hm & Hq);
    [done|done|lia|].
  exists m, e. split_and!; [done|lia..|].
  set (t := e - (-14 - e2 - 24)) in *.
  pose proof (Z.pow_pos_nonneg 2 (- e2) ltac:(lia) ltac:(lia)) as HA.
  pose proof (Z.pow_pos_nonneg 2 t ltac:(lia) ltac:(lia)) as HC.
  pose proof (Z.pow_pos_nonneg 2 (- e) ltac:(lia) ltac:(lia)) as HB.
  assert (2 ^ (- e) * (2 ^ (- e2) * 2 ^ t) = 2 ^ 38) as HBAC.
  { rewrite <- !Z.pow_add_r by lia. f_equal. lia. }
  set (A := 2 ^ (- e2)) in *. set (C := 2 ^ t) in *. set (B := 2 ^ (- e)) in *.
  change (2 ^ 23) with 8388608 in *. change (2 ^ 24) with 16777216 in *.
  change (2 ^ 38) with 274877906944 in *. change (2 ^ 12) with 4096.
  assert (0 < A * C) as HAC by nia.
  apply (Z.mul_le_mono_pos_r _ _ (A * C) HAC).
  rewrite HBAC, <- Z.mul_assoc, <- (Z.abs_eq (A * C)) at 1 by lia.
  rewrite <- Z.abs_mul.
  replace ((d * Z.pos m - 1023 * B) * (A * C))
    with (Z.pos m2 * (Z.pos m * C) - 16760832 * 16777216) by (rewrite Hv2; nia).
  lia.
Qed.

(** The arithmetic behind the accuracy of a normalized sample: [M] is the
    exact product of [e·A] and the multiplier [my / B], which is close to
    [1023 / d]; [V / P] is the rounded product. *)
Lemma normalize_arith (e d A B my M V P : Z) :
  1 ≤ e ≤ d → 0 < A → 0 < B → 0 < my →
  M = e * A * my → P = A * B →
  4096 * Z.abs (d * my - 1023 * B) ≤ B →
  8388608 * Z.abs (V - M) ≤ M →
  0 < V ∧ 2 * V < 2047 * P ∧ 4 * Z.abs (d * V - 1023 * e * P) < d * P.
Proof.
  intros He HA HB Hmy -> -> Hmult Hround.
  assert (0 < A * B) as HP by nia.
  assert (0 < e * A * my) as HM by nia.
  assert (4096 * Z.abs (d * (e * A * my) - 1023 * e * (A * B)) ≤ e * (A * B)) as H1.
  { replace (d * (e * A * my) - 1023 * e * (A * B))
      with ((e * A) * (d * my - 1023 * B)) by lia.
    rewrite Z.abs_mul, (Z.abs_eq (e * A)) by nia.
    replace (e * (A * B)) with ((e * A) * B) by lia.
    rewrite Z.mul_assoc, (Z.mul_comm 4096), <- Z.mul_assoc.
    apply Z.mul_le_mono_nonneg_l; [nia|done]. }
  assert (e * (A * B) ≤ d * (A * B)) as Hed by nia.
  assert (4096 * (d * (e * A * my)) ≤ 4190209 * (d * (A * B))) as H2 by lia.
  assert (4096 * (e * A * my) ≤ 4190209 * (A * B)) as H3 by nia.
  split_and!; [lia|lia|].
  assert (8388608 * Z.abs (d * V - d * (e * A * my)) ≤ d * (e * A * my)) as H4.
  { rewrite <- Z.mul_sub_distr_l, Z.abs_mul, (Z.abs_eq d) by lia.
    rewrite Z.mul_assoc, (Z.mul_comm 8388608), <- Z.mul_assoc.
    apply Z.mul_le_mono_nonneg_l; [lia|done]. }
  assert (0 < d * (A * B)) by nia.
  lia.
Qed.

(** Two quotients whose exact values differ by less than one have integer
    parts that differ by at most one. *)
Lemma div_close (a b a' b' : Z) :
  0 < b → 0 < b' → Z.abs (a * b' - a' * b) < b * b' →
  Z.abs (a `div` b - a' `div` b') ≤ 1.
Proof.
  intros Hb Hb' Hclose.
  pose proof (Z.div_mod a b ltac:(lia)). pose proof (Z.mod_pos_bound a b Hb).
  pose proof (Z.div_mod a' b' ltac:(lia)). pose proof (Z.mod_pos_bound a' b' Hb').
  set (q := a `div` b) in *. set (q' := a' `div` b') in *.
  set (r := a `mod` b) in *. set (r' := a' `mod` b') in *.
  assert (a * b' - a' * b = b * b' * (q - q') + (r * b' - r' * b)) as Heq by nia.
  assert (- (b * b') < r * b' - r' * b < b * b') by nia.
  assert (- (2 * (b * b')) < b * b' * (q - q') < 2 * (b * b')) by lia.
  nia.
Qed.

(** A sample [e] above the minimum of a frame of range [d]: the value the
    pass stores is defined, at most 1023 and within one of the exact
    [1023 · e / d] rounded to the nearest integer; for the greatest sample
    it is 1023. *)
Lemma normalize_value_spec (e d : Z) :
  1 ≤ e ≤ d → d ≤ 65535 →
  ∃ R, normalize_sample 0 (f32_div (f32_of_int 1023) (f32_of_int d)) e = Some R ∧
       0 ≤ R ≤ 1023 ∧ Z.abs (R - round_exact (1023 * e) d) ≤ 1 ∧
       (e = d → R = 1023).
Proof.
  intros He Hd. unfold normalize_sample, round_to_uint16. rewrite Z.sub_0_r.
  destruct (of_int_finite e) as (mx & ex & -> & Hmx & Hex & Hmxe); [lia|].
  destruct (mult_finite d) as (my & ey & -> & Hmy & Hey & Hmult); [lia|].
  destruct (f32_mul_bounds mx my ex ey) as (m & r & -> & Hr & Hm & Hround); [done..|lia|].
  set (t := r - (ex + ey)) in *.
  pose proof (Z.pow_pos_nonneg 2 t ltac:(lia) ltac:(lia)) as HT.
  pose proof (Z.pow_pos_nonneg 2 (- ex) ltac:(lia) ltac:(lia)) as HA.
  pose proof (Z.pow_pos_nonneg 2 (- ey) ltac:(lia) ltac:(lia)) as HB.
  destruct (normalize_arith e d (2 ^ (- ex)) (2 ^ (- ey)) (Z.pos my)
              (Z.pos mx * Z.pos my) (Z.pos m * 2 ^ t) (2 ^ (- ex) * 2 ^ (- ey)))
    as (HV & Hupper & Hclose); [lia..|by rewrite Hmxe|done|done|done|].
  rewrite <- (Z.pow_add_r 2 (- ex) (- ey)) in Hupper, Hclose by lia.
  assert (r ≤ -14) as Hr14.
  { assert (2 ^ (24 + t) < 2 ^ (11 + (- ex + - ey))) as Hpow.
    { rewrite (Z.pow_add_r 2 24 t), (Z.pow_add_r 2 11 (- ex + - ey)) by lia.
      change (2 ^ 24) with 16777216. change (2 ^ 11) with 2048.
      change (2 ^ 23) with 8388608 in Hm.
      assert (8388608 * 2 ^ t ≤ Z.pos m * 2 ^ t)
        by (apply Z.mul_le_mono_nonneg_r; lia).
      lia. }
    apply Z.pow_lt_mono_r_iff in Hpow; lia. }
  rewrite float_round_finite by lia. simpl.
  assert (- ex + - ey = t + (- r - 1) + 1) as HK by lia.
  rewrite HK in Hupper, Hclose.
  rewrite (Z.pow_add_r 2 (t + (- r - 1)) 1), (Z.pow_add_r 2 t (- r - 1)), Z.pow_1_r
    in Hupper, Hclose by lia.
  pose proof (Z.pow_pos_nonneg 2 (- r - 1) ltac:(lia) ltac:(lia)) as HS.
  set (T := 2 ^ t) in *. set (S := 2 ^ (- r - 1)) in *.
  set (R := (Z.pos m + S) `div` (2 * S)).
  assert (Z.pos m < 2047 * S) as HmS.
  { apply (Z.mul_lt_mono_pos_r T); [done|]. lia. }
  assert (2 * Z.abs (d * Z.pos m - 2046 * e * S) < S * d) as Hcl.
  { apply (Z.mul_lt_mono_pos_l T); [done|].
    rewrite Z.mul_assoc, (Z.mul_comm T 2), <- Z.mul_assoc.
    rewrite <- (Z.abs_eq T) at 1 by lia. rewrite <- Z.abs_mul.
    replace (T * (d * Z.pos m - 2046 * e * S))
      with (d * (Z.pos m * T) - 1023 * e * (T * S * 2)) by lia.
    lia. }
  assert (0 ≤ R ≤ 1023) as HR.
  { split; [apply Z.div_pos; lia|].
    apply Z.lt_succ_r, Z.div_lt_upper_bound; lia. }
  exists R. split_and!; [|lia..| |].
  - unfold to_unsigned. rewrite decide_True; [done|]. change (2 ^ 16) with 65536. lia.
  - unfold round_exact. apply div_close; lia.
  - intros ->. symmetry. apply Z.div_unique with (Z.pos m + S - 1023 * (2 * S)).
    + left. split; [|lia]. 
      assert (2 * Z.abs (Z.pos m - 2046 * S) < S); [|lia].
      apply (Z.mul_lt_mono_pos_l d); [lia|].
      rewrite Z.mul_assoc, (Z.mul_comm d 2), <- Z.mul_assoc.
      rewrite <- (Z.abs_eq d) at 1 by lia. rewrite <- Z.abs_mul.
      replace (d * (Z.pos m - 2046 * S)) with (d * Z.pos m - 2046 * d * S) by lia.
      lia.
    + lia.
Qed.

(** The difference of two samples is computed exactly. *)
Lemma f32_sub_exact (max min : Z) :
  0 ≤ min ≤ max → max ≤ 65535 →
  f32_sub (f32_of_int max) (f32_of_int min) = f32_of_int (max - min).
Proof.
  intros Hmin Hmax. destruct (decide (max = 0)) as [->|Hmax0].
  { by replace min with 0 by lia. }
  destruct (of_int_finite max) as (mx & ex & Hfx & Hmx & Hex & Hvx); [lia|].
  destruct (decide (min = 0)) as [->|Hmin0].
  { rewrite Z.sub_0_r, Hfx. done. }
  destruct (of_int_finite min) as (my & ey & Hfy & Hmy & Hey & Hvy); [lia|].
  rewrite Hfx, Hfy. unfold f32_sub, SFsub, cond_Zopp.
  pose proof (Z.pow_pos_nonneg 2 (- ex) ltac:(lia) ltac:(lia)) as HA.
  pose proof (Z.pow_pos_nonneg 2 (- ey) ltac:(lia) ltac:(lia)) as HB.
  assert (ey ≤ ex) as Hle.
  { destruct (decide (ey ≤ ex)) as [|Hgt]; [done|exfalso].
    assert (2 ^ (- ex) = 2 ^ (- ey) * 2 ^ (ey - ex)) as Hsplit
      by (rewrite <- Z.pow_add_r by lia; f_equal; lia).
    pose proof (Z.pow_le_mono_r 2 1 (ey - ex) ltac:(lia) ltac:(lia)) as Hstep.
    rewrite Z.pow_1_r in Hstep.
    change (2 ^ 23) with 8388608 in *. change (2 ^ 24) with 16777216 in *. nia. }
  rewrite Z.min_r by done.
  rewrite (shl_align_spec mx ex ey), (shl_align_spec my ey ey) by lia.
  simpl fst. rewrite !Z2Pos.id by nia.
  rewrite Z.sub_diag, Z.pow_0_r, Z.mul_1_r, Hvx, Hvy.
  rewrite <- Z.mul_assoc, <- Z.pow_add_r by lia.
  replace (- ex + (ex - ey)) with (- ey) by lia.
  rewrite <- Z.mul_sub_distr_r.
  destruct (decide (max = min)) as [->|Hne].
  { by rewrite Z.sub_diag. }
  replace ey with (- - ey) at 2 by lia.
  pose proof (Zdigits2_le_16 (max - min) ltac:(lia)).
  rewrite binary_normalize_canonical, f32_of_int_canon by lia. done.
Qed.

Lemma frame_mult_eq (min max : Z) :
  0 ≤ min ≤ max → max ≤ 65535 →
  frame_mult min max = f32_div (f32_of_int 1023) (f32_of_int (max - min)).
Proof. intros Hmin Hmax. unfold frame_mult. by rewrite f32_sub_exact. Qed.

Lemma normalize_sample_shift (min : Z) (mult : spec_float) (v : Z) :
  normalize_sample min mult v = normalize_sample 0 mult (v - min).
Proof. unfold normalize_sample. by rewrite Z.sub_0_r. Qed.

(** A frame whose extreme samples are 0 and 1023 keeps every sample: the
    multiplier is exactly one. *)
Lemma normalize_identity (v : Z) :
  0 ≤ v ≤ 1023 → normalize_sample 0 (frame_mult 0 1023) v = Some v.
Proof.
  intros Hv. assert (identity_ok v = true) as Hok.
  { apply (all_in_spec identity_ok 0 1023); [|done].
    vm_cast_no_check (eq_refl true). }
  by apply bool_decide_eq_true in Hok.
Qed.

(** On a frame of equal samples the multiplier is infinite and the product
    is not a number, which has no [uint16_t] value. *)
Lemma normalize_degenerate (v : Z) :
  0 ≤ v ≤ 65535 →
  frame_mult v v = S754_infinity false ∧
  f32_mul (f32_of_int (v - v)) (frame_mult v v) = S754_nan ∧
  normalize_sample v (frame_mult v v) v = None.
Proof.
  intros Hv. unfold normalize_sample, frame_mult.
  rewrite f32_sub_exact, Z.sub_diag by lia. done.
Qed.

Lemma round_exact_0 (d : Z) : 0 < d → round_exact 0 d = 0.
Proof. intros Hd. unfold round_exact. apply Z.div_small. lia. Qed.

(** The value stored for a sample [v] of a frame with extremes
    [min < max]. *)
Lemma normalize_sample_spec (min max v : Z) :
  0 ≤ min → min ≤ v ≤ max → max ≤ 65535 → min < max →
  ∃ R, normalize_sample min (frame_mult min max) v = Some R ∧
       0 ≤ R ≤ 1023 ∧
       Z.abs (R - round_exact (1023 * (v - min)) (max - min)) ≤ 1 ∧
       (v = min → R = 0) ∧ (v = max → R = 1023).
Proof.
  intros Hmin Hv Hmax Hlt.
  rewrite frame_mult_eq, normalize_sample_shift by lia.
  destruct (decide (v = min)) as [->|Hne].
  - destruct (mult_finite (max - min)) as (my & ey & Hmult & _); [lia|].
    exists 0. rewrite Z.sub_diag, Z.mul_0_r, round_exact_0 by lia.
    split_and!; [|lia..]. unfold normalize_sample. by rewrite Hmult.
  - destruct (normalize_value_spec (v - min) (max - min))
      as (R & HR & Hrange & Hclose & Htop); [lia..|].
    exists R. split_and!; try done; lia.
Qed.

(** ** Normalization of a whole frame *)

Section NormalizeFrame.
Context `{G : Geometry}.
Hypothesis WIDTH_pos : 0 < WIDTH.
Hypothesis HEIGHT_pos : 0 < HEIGHT.

Lemma frame_min_max_unique (buffer : list Z) (min max min' max' : Z) :
  frame_min_max buffer min max → frame_min_max buffer min' max' →
  min = min' ∧ max = max'.
Proof.
  intros (Hmin & Hmax & Hall) (Hmin' & Hmax' & Hall').
  rewrite Forall_forall in Hall, Hall'.
  pose proof (Hall _ Hmin'). pose proof (Hall _ Hmax').
  pose proof (Hall' _ Hmin). pose proof (Hall' _ Hmax). lia.
Qed.

Lemma min_max_frame_eq (buffer : list Z) (min max : Z) :
  frame_shaped buffer → uint16_samples buffer → frame_min_max buffer min max →
  min_max_frame buffer = Some (min, max).
Proof using WIDTH_pos HEIGHT_pos.
  intros Hshape Hu16 Hmm.
  destruct (min_max_frame_spec WIDTH_pos HEIGHT_pos buffer Hshape Hu16)
    as (min' & max' & -> & Hmm').
  by destruct (frame_min_max_unique buffer min max min' max') as [-> ->].
Qed.

Lemma frame_min_max_bounds (buffer : list Z) (min max : Z) :
  uint16_samples buffer → frame_min_max buffer min max →
  0 ≤ min ∧ min ≤ max ∧ max ≤ 65535 ∧ ∀ v, v ∈ buffer → min ≤ v ≤ max.
Proof.
  intros Hu16 (Hmin & Hmax & Hall). unfold uint16_samples in Hu16.
  rewrite Forall_forall in Hu16, Hall.
  pose proof (Hu16 _ Hmin). pose proof (Hu16 _ Hmax). pose proof (Hall _ Hmax).
  split_and!; [lia..|done].
Qed.

(** What [normalize_frame] does to a frame whose samples are not all
    equal: every sample is replaced by the single-precision value of
    [normalize_sample], which is within one of the exactly rounded
    rescale; the result spans exactly the range from 0 to 1023. *)
Lemma normalize_frame_spec (buffer : list Z) (min max : Z) :
  frame_shaped buffer → uint16_samples buffer →
  frame_min_max buffer min max → min < max →
  ∃ buffer',
    normalize_frame buffer = Some buffer' ∧
    length buffer' = length buffer ∧
    (∀ i v, load buffer i = Some v →
       ∃ r, load buffer' i = Some r ∧
            normalize_sample min (frame_mult min max) v = Some r ∧
            Z.abs (r - round_exact (1023 * (v - min)) (max - min)) ≤ 1) ∧
    Forall (λ r, 0 ≤ r ≤ 1023) buffer' ∧ 0 ∈ buffer' ∧ 1023 ∈ buffer'.
Proof using WIDTH_pos HEIGHT_pos.
  intros Hshape Hu16 Hmm Hlt.
  destruct (frame_min_max_bounds buffer min max Hu16 Hmm) as (Hmin & _ & Hmax & Hall).
  assert (∀ v, v ∈ buffer →
            ∃ r, normalize_sample min (frame_mult min max) v = Some r ∧
                 0 ≤ r ≤ 1023 ∧
                 Z.abs (r - round_exact (1023 * (v - min)) (max - min)) ≤ 1 ∧
                 (v = min → r = 0) ∧ (v = max → r = 1023)) as Hsample.
  { intros v Hv. apply normalize_sample_spec; [done|by apply Hall|done..]. }
  destruct (normalize_pass_spec WIDTH_pos HEIGHT_pos min (frame_mult min max) buffer)
    as (buffer' & Hrun & Hlen & Hrep); [done| |].
  { intros v Hv. destruct (Hsample v Hv) as (r & -> & _). eauto. }
  exists buffer'. split_and!.
  - unfold normalize_frame. by rewrite (min_max_frame_eq buffer min max).
  - done.
  - intros i v Hv. destruct (Hrep i v Hv) as (r & Hr & Hload).
    destruct (Hsample v) as (r' & Hr' & _ & Hclose & _);
      [by apply load_elem_of with i|].
    exists r. split_and!; [done..|]. congruence.
  - apply Forall_forall. intros r (i & Hi)%elem_of_load.
    destruct (load_is_Some buffer i) as [v Hv].
    { rewrite <- Hlen. by apply load_Some with r. }
    destruct (Hrep i v Hv) as (r' & Hr' & Hload).
    destruct (Hsample v) as (r'' & Hr'' & Hrange & _);
      [by apply load_elem_of with i|].
    congruence.
  - destruct Hmm as (Hinmin & _ & _).
    destruct (elem_of_load _ _ Hinmin) as (i & Hi).
    destruct (Hrep i min Hi) as (r & Hr & Hload).
    destruct (Hsample min Hinmin) as (r' & Hr' & _ & _ & Hzero & _).
    rewrite <- (Hzero eq_refl). apply load_elem_of with i. congruence.
  - destruct Hmm as (_ & Hinmax & _).
    destruct (elem_of_load _ _ Hinmax) as (i & Hi).
    destruct (Hrep i max Hi) as (r & Hr & Hload).
    destruct (Hsample max Hinmax) as (r' & Hr' & _ & _ & _ & Htop).
    rewrite <- (Htop eq_refl). apply load_elem_of with i. congruence.
Qed.

(** A frame that already spans the range from 0 to 1023 is left as it is. *)
Lemma normalize_frame_identity (buffer : list Z) :
  frame_shaped buffer → frame_min_max buffer 0 1023 →
  normalize_frame buffer = Some buffer.
Proof using WIDTH_pos HEIGHT_pos.
  intros Hshape Hmm.
  assert (uint16_samples buffer) as Hu16.
  { destruct Hmm as (_ & _ & Hall). unfold uint16_samples.
    eapply Forall_impl; [exact Hall|]. simpl. lia. }
  destruct (frame_min_max_bounds buffer 0 1023 Hu16 Hmm) as (_ & _ & _ & Hall).
  destruct (normalize_pass_spec WIDTH_pos HEIGHT_pos 0 (frame_mult 0 1023) buffer)
    as (buffer' & Hrun & Hlen & Hrep); [done| |].
  { intros v Hv. rewrite normalize_identity by by apply Hall. eauto. }
  unfold normalize_frame. rewrite (min_max_frame_eq buffer 0 1023) by done.
  simpl. rewrite Hrun. f_equal. apply load_ext; [done|].
  intros i Hi. rewrite Hlen in Hi.
  destruct (load_is_Some buffer i Hi) as [v Hv].
  destruct (Hrep i v Hv) as (r & Hr & Hload).
  rewrite normalize_identity in Hr by (apply Hall; by apply load_elem_of with i).
  congruence.
Qed.

(** A frame whose samples are all equal has no normalized form: the
    multiplier is [1023 / 0], the product [0 * inf] is not a number, and
    the conversion of the first sample is undefined. *)
Lemma normalize_frame_uniform (buffer : list Z) (v : Z) :
  frame_shaped buffer → 0 ≤ v ≤ 65535 → Forall (λ s, s = v) buffer →
  min_max_frame buffer = Some (v, v) ∧ normalize_frame buffer = None.
Proof using WIDTH_pos HEIGHT_pos.
  intros Hshape Hv Hall. rewrite Forall_forall in Hall.
  assert (uint16_samples buffer) as Hu16.
  { apply Forall_forall. intros s ->%Hall. done. }
  destruct (min_max_frame_spec WIDTH_pos HEIGHT_pos buffer Hshape Hu16)
    as (min & max & Hscan & Hmin & Hmax & _).
  apply Hall in Hmin, Hmax. subst min max. split; [done|].
  unfold normalize_frame. rewrite Hscan. simpl.
  apply for_each_pixel_first_None; [done..|].
  destruct (frame_load buffer 0 0 RG10_Gb) as (s & Hs & Hsin);
    [done|unfold in_frame; lia|apply RG10_Gb_color|].
  apply Hall in Hsin. subst s.
  unfold normalize_step, normalize_at. rewrite Hs. simpl.
  destruct (normalize_degenerate v Hv) as (_ & _ & ->). done.
Qed.
End NormalizeFrame.

(** The program as compiled: no frame of 1920 by 1080 equal samples can be
    normalized. *)
Lemma normalize_frame_uniform_IMX477 (buffer : list Z) (v : Z) :
  @frame_shaped IMX477 buffer → 0 ≤ v ≤ 65535 → Forall (λ s, s = v) buffer →
  @normalize_frame IMX477 buffer = None.
Proof.
  intros Hshape Hv Hall.
  by destruct (@normalize_frame_uniform IMX477 eq_refl eq_refl buffer v).
Qed.

(** ** The frame read from a file *)

Lemma pair_ind {A : Type} (P : list A → Prop) :
  P [] → (∀ x, P [x]) → (∀ x y l, P l → P (x :: y :: l)) → ∀ l, P l.
Proof.
  intros Hnil Hone Hstep.
  assert (∀ l, P l ∧ ∀ x, P (x :: l)) as Hboth.
  { induction l as [|y l [IH1 IH2]]; [by split|]. split; [apply IH2|].
    intros x. by apply Hstep. }
  intros l. apply Hboth.
Qed.

(** A block of bytes holds half as many samples. *)
Lemma samples_of_bytes_length (bytes : list Z) :
  length (samples_of_bytes bytes) = (length bytes / 2)%nat.
Proof.
  induction bytes as [| |lo hi rest IH] using pair_ind; [done..|].
  simpl samples_of_bytes. simpl length. rewrite IH.
  change (Datatypes.S (Datatypes.S (length rest))) with (2 + length rest)%nat.
  replace (2 + length rest)%nat with (1 * 2 + length rest)%nat by lia.
  rewrite Nat.div_add_l by lia. lia.
Qed.

(** Sample [i] is made of the bytes [2 i] and [2 i + 1], the low one first. *)
Lemma samples_of_bytes_lookup (bytes : list Z) (i : nat) (lo hi : Z) :
  bytes !! (2 * i)%nat = Some lo → bytes !! (2 * i + 1)%nat = Some hi →
  samples_of_bytes bytes !! i = Some (lo + 256 * hi).
Proof.
  revert i. induction bytes as [| |b0 b1 rest IH] using pair_ind; intros i Hlo Hhi.
  - done.
  - destruct i; simpl in Hhi; [done|].
    by replace (i + S (i + 0) + 1)%nat with (S (S (2 * i))) in Hhi by lia.
  - destruct i as [|i].
    + simpl in *. congruence.
    + simpl samples_of_bytes. rewrite lookup_cons. apply IH.
      * by replace (2 * S i)%nat with (S (S (2 * i))) in Hlo by lia.
      * by replace (2 * S i + 1)%nat with (S (S (2 * i + 1))) in Hhi by lia.
Qed.

Lemma samples_of_bytes_uint16 (bytes : list Z) :
  Forall (λ b, 0 ≤ b ≤ 255) bytes → uint16_samples (samples_of_bytes bytes).
Proof.
  unfold uint16_samples.
  induction bytes as [| |lo hi rest IH] using pair_ind; intros Hall; [constructor..|].
  apply Forall_cons in Hall as [Hlo Hall]. apply Forall_cons in Hall as [Hhi Hall].
  simpl. constructor; [lia|by apply IH].
Qed.

Lemma malloc_lookup (junk : nat → Z) (n : Z) (j : nat) :
  (j < Z.to_nat n)%nat → malloc junk n !! j = Some (junk j `mod` 256).
Proof.
  intros Hj. unfold malloc. rewrite list_lookup_fmap, lookup_seq_lt by done. done.
Qed.

Lemma malloc_bytes (junk : nat → Z) (n : Z) : Forall (λ b, 0 ≤ b ≤ 255) (malloc junk n).
Proof.
  unfold malloc. apply Forall_fmap, Forall_forall. intros j _. simpl.
  pose proof (Z.mod_pos_bound (junk j) 256). lia.
Qed.

(** The byte [j] of the block [read_file] returns: what [fread] stored
    there, or what [malloc] left there when the file is too short. *)
Lemma read_block_lookup (junk : nat → Z) (content : list Z) (n : Z) (j : nat) :
  (j < Z.to_nat n)%nat →
  let got := take (Z.to_nat n) content in
  (got ++ drop (length got) (malloc junk n)) !! j
    = Some (default (junk j `mod` 256) (content !! j)).
Proof.
  intros Hj got. subst got. rewrite length_take.
  destruct (decide (j < length content)%nat) as [Hin|Hout].
  - rewrite lookup_app_l by (rewrite length_take; lia).
    rewrite lookup_take_lt by done.
    destruct (lookup_lt_is_Some_2 content j Hin) as [b ->]. done.
  - rewrite lookup_app_r by (rewrite length_take; lia).
    rewrite length_take, lookup_drop.
    replace (Z.to_nat n `min` length content + (j - Z.to_nat n `min` length content))%nat
      with j by lia.
    rewrite malloc_lookup by done. by rewrite lookup_ge_None_2 by lia.
Qed.

Lemma read_block_length (junk : nat → Z) (content : list Z) (n : Z) :
  let got := take (Z.to_nat n) content in
  length (got ++ drop (length got) (malloc junk n)) = Z.to_nat n.
Proof.
  intros got. subst got. rewrite length_app, length_drop, length_take.
  unfold malloc. rewrite length_fmap, length_seq. lia.
Qed.

Section ReadFile.
Context `{G : Geometry}.
Hypothesis WIDTH_nonneg : 0 ≤ WIDTH.
Hypothesis HEIGHT_nonneg : 0 ≤ HEIGHT.

Lemma RG10_SIZE_samples : RG10_SIZE = 2 * RG10_SAMPLES ∧ 0 ≤ RG10_SAMPLES.
Proof using WIDTH_nonneg HEIGHT_nonneg.
  unfold RG10_SIZE, RG10_SAMPLES, RG10_COLORS, RG10_COLOR_SIZE. nia.
Qed.

(** Whatever the size of the file, the frame has all its samples. *)
Lemma frame_of_file_shaped (junk : nat → Z) (content : list Z) :
  frame_shaped (frame_of_file junk content).
Proof using WIDTH_nonneg HEIGHT_nonneg.
  destruct RG10_SIZE_samples as [Hsize Hpos].
  unfold frame_shaped, frame_of_file. rewrite samples_of_bytes_length, read_block_length.
  rewrite Hsize.
  replace (Z.to_nat (2 * RG10_SAMPLES)) with (Z.to_nat RG10_SAMPLES * 2)%nat by lia.
  rewrite Nat.div_mul by lia. lia.
Qed.

Lemma frame_of_file_uint16 (junk : nat → Z) (content : list Z) :
  Forall (λ b, 0 ≤ b ≤ 255) content → uint16_samples (frame_of_file junk content).
Proof.
  intros Hbytes. apply samples_of_bytes_uint16, Forall_app. split.
  - by apply Forall_take.
  - apply Forall_drop, malloc_bytes.
Qed.

Lemma frame_of_file_load (junk : nat → Z) (content : list Z) (i : Z) :
  0 ≤ i < RG10_SAMPLES →
  load (frame_of_file junk content) i =
    Some (default (junk (Z.to_nat (2 * i)) `mod` 256) (content !! Z.to_nat (2 * i)) +
          256 * default (junk (Z.to_nat (2 * i + 1)) `mod` 256)
                  (content !! Z.to_nat (2 * i + 1))).
Proof using WIDTH_nonneg HEIGHT_nonneg.
  intros Hi. destruct RG10_SIZE_samples as [Hsize Hpos].
  unfold load, frame_of_file. rewrite decide_True by lia.
  apply samples_of_bytes_lookup.
  - replace (2 * Z.to_nat i)%nat with (Z.to_nat (2 * i)) by lia.
    by rewrite read_block_lookup by lia.
  - replace (2 * Z.to_nat i + 1)%nat with (Z.to_nat (2 * i + 1)) by lia.
    by rewrite read_block_lookup by lia.
Qed.
End ReadFile.

(* ================================================================== *)
(** * Part IV: the claims of the specification *)
(* ================================================================== *)

(** ** The demosaicer *)

(** Claim C1.  On every sensor frame whose samples are all at most 1023
    the demosaicer returns an image in which, for each pixel [(x, y)] of
    the frame, the red channel is the red sample times 255/1023 with the
    fraction dropped, the blue channel is the same for the blue sample,
    and the green channel is the same for the two green samples averaged
    with an integer division by 2 before the scaling.  The single-precision
    product agrees with the exact quotient on all 1024 inputs. *)
Theorem C1_demosaic_truncated_rescale `{G : Geometry} (junk : nat → Z) (buffer : list Z) :
  0 < WIDTH → 0 < HEIGHT →
  frame_shaped buffer → Forall (λ v, 0 ≤ v ≤ 1023) buffer →
  ∃ image,
    debayer junk buffer = Some image ∧ image_shaped image ∧
    ∀ x y, 0 ≤ x < WIDTH → 0 ≤ y < HEIGHT →
      ∃ redSample greenInRedRowSample greenInBlueRowSample blueSample,
        load buffer (RG10_LOCATION x y RG10_R) = Some redSample ∧
        load buffer (RG10_LOCATION x y RG10_Gr) = Some greenInRedRowSample ∧
        load buffer (RG10_LOCATION x y RG10_Gb) = Some greenInBlueRowSample ∧
        load buffer (RG10_LOCATION x y RG10_B) = Some blueSample ∧
        load image (RGB_LOCATION x y RGB_R) = Some ((redSample * 255) `div` 1023) ∧
        load image (RGB_LOCATION x y RGB_B) = Some ((blueSample * 255) `div` 1023) ∧
        load image (RGB_LOCATION x y RGB_G) =
          Some (((greenInRedRowSample + greenInBlueRowSample) `div` 2 * 255) `div` 1023).
Proof.
  intros HW HH Hshape Hten.
  destruct (debayer_ten_bit HW HH junk buffer Hshape Hten) as (image & Hrun & Himage & Hpix).
  exists image. split_and!; [done..|]. intros x y Hx Hy. by apply Hpix.
Qed.

Lemma C1_witness :
  ∃ image,
    @debayer one_block (λ _, 0) [1023; 0; 1023; 0] = Some image ∧
    @image_shaped one_block image.
Proof.
  destruct (@C1_demosaic_truncated_rescale one_block (λ _, 0) [1023; 0; 1023; 0])
    as (image & Hrun & Hshape & _);
    [reflexivity|reflexivity|reflexivity|repeat constructor; lia|].
  exists image. split; assumption.
Defined.

(** Claim C8.  Two frames that differ only in the red sample of one block
    give images that differ at most in the red channel of that pixel:
    every other byte of the two images is the same. *)
Theorem C8_red_sample_affects_red_channel_only `{G : Geometry}
    (junk1 junk2 : nat → Z) (buffer1 buffer2 image1 image2 : list Z) (x0 y0 : Z) :
  0 < WIDTH → 0 < HEIGHT → in_frame x0 y0 →
  (∀ i, i ≠ RG10_LOCATION x0 y0 RG10_R → load buffer1 i = load buffer2 i) →
  debayer junk1 buffer1 = Some image1 → debayer junk2 buffer2 = Some image2 →
  ∀ j, j ≠ RGB_LOCATION x0 y0 RGB_R → load image1 j = load image2 j.
Proof.
  intros HW HH Hxy0 Hsame Hrun1 Hrun2 j Hj. unfold debayer in *.
  apply (debayer_into_Some HW HH) in Hrun1 as [Hlen1 Hdone1].
  apply (debayer_into_Some HW HH) in Hrun2 as [Hlen2 Hdone2].
  pose proof (malloc_RGB_shaped HW HH junk1) as Hm1.
  pose proof (malloc_RGB_shaped HW HH junk2) as Hm2. unfold image_shaped in Hm1, Hm2.
  destruct (decide (0 ≤ j < RGB_SIZE)) as [Hin|Hout].
  - apply (RGB_LOCATION_cover HW) in Hin as (x & y & c & Hxy & Hc & <-).
    destruct (Hdone1 x y Hxy) as (r1 & g1 & b1 & Hr1 & Hg1 & Hb1 & Lr1 & Lg1 & Lb1).
    destruct (Hdone2 x y Hxy) as (r2 & g2 & b2 & Hr2 & Hg2 & Hb2 & Lr2 & Lg2 & Lb2).
    assert (∀ c', c' ∈ RG10_colors →
              (c' = RG10_R → ¬ (x = x0 ∧ y = y0)) →
              load buffer1 (RG10_LOCATION x y c') = load buffer2 (RG10_LOCATION x y c'))
      as Hblock.
    { intros c' Hc' Hne. apply Hsame. intros Heq.
      apply RG10_LOCATION_inj in Heq as (-> & -> & ->);
        [|done..|apply RG10_R_color]. by apply Hne. }
    apply elem_of_RGB_colors in Hc as [->| [->| ->]].
    + change 0 with RGB_B. rewrite Lb1, Lb2, <- Hb1, <- Hb2. unfold debayer_blue.
      rewrite Hblock; [done|apply RG10_B_color|].
      intros Heq. pose proof (RG10_colors_distinct HW). tauto.
    + change 1 with RGB_G. rewrite Lg1, Lg2, <- Hg1, <- Hg2. unfold debayer_green.
      rewrite (Hblock RG10_Gb), (Hblock RG10_Gr);
        [done|apply RG10_Gr_color| |apply RG10_Gb_color|].
      all: intros Heq; pose proof (RG10_colors_distinct HW); symmetry in Heq; tauto.
    + change 2 with RGB_R in *. rewrite Lr1, Lr2, <- Hr1, <- Hr2. unfold debayer_red.
      rewrite Hblock; [done|apply RG10_R_color|].
      intros _ [-> ->]. done.
  - destruct (load image1 j) as [v1|] eqn:H1.
    { apply load_Some in H1. lia. }
    destruct (load image2 j) as [v2|] eqn:H2; [|done].
    apply load_Some in H2. lia.
Qed.

Lemma C8_witness :
  @load [0; 127; 255] 1 = @load [0; 127; 127] 1.
Proof.
  apply (@C8_red_sample_affects_red_channel_only one_block (λ _, 0) (λ _, 0)
           [1023; 0; 1023; 0] [511; 0; 1023; 0] [0; 127; 255] [0; 127; 127] 0 0);
    [done|done|done| |by vm_compute|by vm_compute|done].
  intros i Hi. change (@RG10_LOCATION one_block 0 0 RG10_R) with 0 in Hi.
  unfold load. case_decide; [|done].
  destruct (Z.to_nat i) as [|n] eqn:Hn; [lia|done].
Defined.

(** Claim C6.  On a frame whose samples all equal one constant [v] of at
    most 1023, the demosaiced output is uniform: every channel of every
    pixel is [v * 255 / 1023] with the fraction dropped.  The frame that
    reaches the demosaicer is the raw one (normalization left out of the
    pipeline) or the normalized one where that exists; for a uniform frame
    normalization is the degenerate case and has no result. *)
Theorem C6_uniform_frame_uniform_image `{G : Geometry} (junk : nat → Z)
    (buffer buffer' : list Z) (v : Z) :
  0 < WIDTH → 0 < HEIGHT →
  frame_shaped buffer → 0 ≤ v ≤ 1023 → Forall (λ s, s = v) buffer →
  buffer' = buffer ∨ normalize_frame buffer = Some buffer' →
  ∃ image,
    debayer junk buffer' = Some image ∧ image_shaped image ∧
    Forall (λ b, b = (v * 255) `div` 1023) image ∧
    ∀ x y c, in_frame x y → c ∈ RGB_colors →
      load image (RGB_LOCATION x y c) = Some ((v * 255) `div` 1023).
Proof.
  intros HW HH Hshape Hv Hall [->|Hnorm]; cycle 1.
  { destruct (normalize_frame_uniform HW HH buffer v) as [_ Hnone]; [done|lia|done|].
    congruence. }
  rewrite Forall_forall in Hall.
  destruct (debayer_ten_bit HW HH junk buffer) as (image & Hrun & Himage & Hpix); [done| |].
  { apply Forall_forall. intros s ->%Hall. done. }
  assert (∀ x y c, in_frame x y → c ∈ RGB_colors →
            load image (RGB_LOCATION x y c) = Some ((v * 255) `div` 1023)) as Hchan.
  { intros x y c Hxy Hc.
    destruct (Hpix x y Hxy) as (R & Gr & Gb & B & HR & HGr & HGb & HB & Lr & Lb & Lg).
    apply load_elem_of, Hall in HR, HGr, HGb, HB. subst R Gr Gb B.
    replace ((v + v) `div` 2) with v in Lg by (apply Z.div_unique with 0; lia).
    apply elem_of_RGB_colors in Hc as [->| [->| ->]]; done. }
  exists image. split_and!; [done..| |done].
  apply Forall_forall. intros b (j & Hj)%elem_of_load.
  pose proof (load_Some _ _ _ Hj) as Hrange. rewrite Himage in Hrange.
  apply (RGB_LOCATION_cover HW) in Hrange as (x & y & c & Hxy & Hc & <-).
  rewrite Hchan in Hj by done. congruence.
Qed.

Lemma C6_witness :
  ∃ image, @debayer one_block (λ _, 0) [700; 700; 700; 700] = Some image ∧
           Forall (λ b, b = 174) image.
Proof.
  destruct (@C6_uniform_frame_uniform_image one_block (λ _, 0)
              [700; 700; 700; 700] [700; 700; 700; 700] 700)
    as (image & Hrun & _ & Hall & _);
    [reflexivity|reflexivity|reflexivity|lia|repeat constructor|by left|].
  exists image. split; assumption.
Defined.

(** ** Addressing *)



(** ** Normalization *)

(** Claim C2, the counterexamples.  The frame [15, 0, 30, 30] has minimum
    0 and maximum 30, so the sample 15 is to become 15 * 1023 / 30 = 511.5
    rounded, which is 512 with halfway cases away from zero and with
    halfway cases to even; the program stores 511, because the product of
    15 and the single-precision quotient 1023/30 falls just below 511.5.
    In the frame [6786, 0, 7273, 0] the sample 6786 is to become
    954.4999..., whose only nearest integer is 954; the program stores
    955. *)
Lemma C2_counterexample :
  @normalize_frame one_block [15; 0; 30; 30] = Some [511; 0; 1023; 1023] ∧
  round_exact (1023 * (15 - 0)) (30 - 0) = 512 ∧
  round_even_exact (1023 * (15 - 0)) (30 - 0) = 512 ∧
  ¬ @normalized_exactly one_block (λ n d r, r = round_exact n d) [15; 0; 30; 30] ∧
  ¬ @normalized_exactly one_block (λ n d r, r = round_even_exact n d) [15; 0; 30; 30] ∧
  @normalize_frame one_block [6786; 0; 7273; 0] = Some [955; 0; 1023; 0] ∧
  ¬ @normalized_exactly one_block is_nearest [6786; 0; 7273; 0].
Proof.
  assert (frame_min_max [15; 0; 30; 30] 0 30) as Hmm1.
  { split_and!; [set_solver..|]. repeat constructor; lia. }
  assert (frame_min_max [6786; 0; 7273; 0] 0 7273) as Hmm2.
  { split_and!; [set_solver..|]. repeat constructor; lia. }
  split_and!; [by vm_compute..| | |by vm_compute|].
  - intros Hclaim. destruct (Hclaim 0 30 Hmm1 ltac:(lia)) as (buffer' & Hrun & Hall).
    vm_compute in Hrun. injection Hrun as <-.
    destruct (Hall 0 15 eq_refl) as (r & Hr & Hnear).
    vm_compute in Hr, Hnear. congruence.
  - intros Hclaim. destruct (Hclaim 0 30 Hmm1 ltac:(lia)) as (buffer' & Hrun & Hall).
    vm_compute in Hrun. injection Hrun as <-.
    destruct (Hall 0 15 eq_refl) as (r & Hr & Hnear).
    vm_compute in Hr, Hnear. congruence.
  - intros Hclaim. destruct (Hclaim 0 7273 Hmm2 ltac:(lia)) as (buffer' & Hrun & Hall).
    vm_compute in Hrun. injection Hrun as <-.
    destruct (Hall 0 6786 eq_refl) as (r & Hr & Hnear).
    injection Hr as <-. unfold is_nearest in Hnear. lia.
Qed.

(** Claim C2, as amended.  For every frame whose greatest sample [max] is
    strictly greater than its least sample [min], normalization replaces
    every sample [v] in place with [round] of the single-precision product
    of [v - min] and the single-precision quotient [1023 / (max - min)];
    that value is within one of the exact [(v - min) * 1023 / (max - min)]
    rounded to the nearest integer.  After normalization every sample
    lies in [0, 1023], some sample is 0 and some sample is 1023. *)
Theorem C2_normalization_rescales_within_one `{G : Geometry} (buffer : list Z) (min max : Z) :
  0 < WIDTH → 0 < HEIGHT →
  frame_shaped buffer → uint16_samples buffer →
  frame_min_max buffer min max → min < max →
  ∃ buffer',
    normalize_frame buffer = Some buffer' ∧
    length buffer' = length buffer ∧
    (∀ i v, load buffer i = Some v →
       ∃ r, load buffer' i = Some r ∧
            round_to_uint16
              (f32_mul (f32_of_int (v - min))
                 (f32_div (f32_of_int 1023) (f32_of_int (max - min)))) = Some r ∧
            Z.abs (r - round_exact (1023 * (v - min)) (max - min)) ≤ 1) ∧
    Forall (λ r, 0 ≤ r ≤ 1023) buffer' ∧ 0 ∈ buffer' ∧ 1023 ∈ buffer'.
Proof.
  intros HW HH Hshape Hu16 Hmm Hlt.
  destruct (normalize_frame_spec HW HH buffer min max)
    as (buffer' & Hrun & Hlen & Hrep & Hrange & H0 & H1023); [done..|].
  destruct (frame_min_max_bounds buffer min max Hu16 Hmm) as (Hmin & _ & Hmax & _).
  exists buffer'. split_and!; [done..| |done|done|done].
  intros i v Hv. destruct (Hrep i v Hv) as (r & Hload & Hr & Hclose).
  exists r. split_and!; [done| |done].
  rewrite <- Hr. unfold normalize_sample. by rewrite frame_mult_eq by lia.
Qed.

Lemma C2_witness :
  ∃ buffer', @normalize_frame one_block [15; 0; 30; 30] = Some buffer' ∧
             0 ∈ buffer' ∧ 1023 ∈ buffer'.
Proof.
  destruct (@C2_normalization_rescales_within_one one_block [15; 0; 30; 30] 0 30)
    as (buffer' & Hrun & _ & _ & _ & H0 & H1023);
    [reflexivity|reflexivity|reflexivity|repeat constructor; lia| |lia|].
  - split_and!; [set_solver..|]. repeat constructor; lia.
  - exists buffer'. split_and!; assumption.
Defined.

(** Claim C3, evaluated on the program.  For the frame whose four samples
    all equal 512 the scan returns [min = max = 512], the multiplier is
    [1023 / 0 = +inf], the product for a sample is [0 * inf = NaN], and the
    conversion of NaN to [uint16_t] is undefined: [normalize_frame] has no
    result and [main] runs into undefined behaviour.  No degenerate-case
    path exists in the program. *)
Theorem C3_uniform_frame_is_undefined :
  @min_max_frame one_block [512; 512; 512; 512] = Some (512, 512) ∧
  frame_mult 512 512 = S754_infinity false ∧
  f32_mul (f32_of_int (512 - 512)) (frame_mult 512 512) = S754_nan ∧
  @normalize_frame one_block [512; 512; 512; 512] = None ∧
  (@main one_block "in.raw" "out.tga" (scenario [0; 2; 0; 2; 0; 2; 0; 2])).1 = Undef.
Proof. split_and!; by vm_compute. Qed.

(** Claim C7.  A frame whose least sample is 0 and whose greatest sample
    is 1023 is left unchanged by normalization, so that normalizing it
    twice is normalizing it once; and normalizing the result of a
    normalization again changes no sample by more than one (it changes
    none). *)
Theorem C7_normalization_idempotent `{G : Geometry} (buffer : list Z) :
  0 < WIDTH → 0 < HEIGHT → frame_shaped buffer → uint16_samples buffer →
  (frame_min_max buffer 0 1023 →
     normalize_frame buffer = Some buffer ∧
     normalize_frame buffer ≫= normalize_frame = normalize_frame buffer) ∧
  (∀ min max, frame_min_max buffer min max → min < max →
     ∃ once twice,
       normalize_frame buffer = Some once ∧ normalize_frame once = Some twice ∧
       length twice = length once ∧
       ∀ i v1 v2, load once i = Some v1 → load twice i = Some v2 → Z.abs (v2 - v1) ≤ 1).
Proof.
  intros HW HH Hshape Hu16. split.
  - intros Hmm. pose proof (normalize_frame_identity HW HH buffer Hshape Hmm) as Hid.
    split; [done|]. rewrite Hid. simpl. done.
  - intros min max Hmm Hlt.
    destruct (normalize_frame_spec HW HH buffer min max)
      as (once & Hrun & Hlen & _ & Hrange & H0 & H1023); [done..|].
    assert (normalize_frame once = Some once) as Hagain.
    { apply (normalize_frame_identity HW HH); [unfold frame_shaped in *; lia|done]. }
    exists once, once. split_and!; [done..|].
    intros i v1 v2 H1 H2. assert (v1 = v2) by congruence. lia.
Qed.

Lemma C7_witness :
  @normalize_frame one_block [1023; 0; 1023; 0] = Some [1023; 0; 1023; 0] ∧
  @normalize_frame one_block [1023; 0; 1023; 0] ≫= @normalize_frame one_block
    = @normalize_frame one_block [1023; 0; 1023; 0].
Proof.
  apply (@C7_normalization_idempotent one_block [1023; 0; 1023; 0]);
    [done|done|done|repeat constructor; lia|].
  split_and!; [set_solver..|]. repeat constructor; lia.
Defined.

(** ** The sink and the process *)

Lemma tga_header_bytes `{G : Geometry} :
  tga_header =
    [0; 0; 2; 0; 0; 0; 0; 0; 0; 0; 0; 0;
     Z.land 255 WIDTH; Z.land 255 (Z.shiftr WIDTH 8);
     Z.land 255 HEIGHT; Z.land 255 (Z.shiftr HEIGHT 8); 24; 32].
Proof. done. Qed.

(** The two bytes written for a 16-bit dimension, least significant first. *)
Lemma little_endian_16 (n : Z) :
  0 ≤ n < 65536 →
  Z.land 255 n = n `mod` 256 ∧ Z.land 255 (Z.shiftr n 8) = n `div` 256 ∧
  n `mod` 256 + 256 * (n `div` 256) = n.
Proof.
  intros Hn. rewrite !(Z.land_comm 255). change 255 with (Z.ones 8).
  rewrite !Z.land_ones, Z.shiftr_div_pow2 by lia. change (2 ^ 8) with 256.
  split_and!; [done| |].
  - apply Z.mod_small. split; [apply Z.div_pos; lia|].
    apply Z.div_lt_upper_bound; lia.
  - pose proof (Z.div_mod n 256). lia.
Qed.

(** What [write_tga] leaves on the disk. *)
Lemma write_tga_Done `{G : Geometry} (name : string) (buff : list Z) (σ : os_state) :
  image_shaped buff → name ∉ write_denied σ →
  write_tga name buff σ = (Done (), with_file σ name (tga_header ++ buff)).
Proof.
  intros Hshape Hname. unfold image_shaped in Hshape.
  unfold write_tga, fopen_wb, fwrite, with_file, mbind, proc_bind.
  rewrite decide_False by done. simpl.
  rewrite decide_True by lia. simpl.
  rewrite !lookup_insert_eq. simpl. rewrite !insert_insert_eq.
  by rewrite take_ge by lia.
Qed.

Lemma write_tga_Exit `{G : Geometry} (name : string) (buff : list Z) (σ : os_state) :
  name ∈ write_denied σ →
  write_tga name buff σ =
    (Exit (-1),
     with_stderr σ ("Unable to open file " +:+ name +:+ " for writing." +:+ newline)).
Proof.
  intros Hname. unfold write_tga, fopen_wb, mbind, proc_bind.
  by rewrite decide_True by done.
Qed.

(** Claim C4.  For every image of the configured width and height the sink
    writes exactly the 18 bytes of the header, in which byte 2 is 2, bytes
    12-13 are the width and bytes 14-15 the height as little-endian 16-bit
    numbers, byte 16 is 24, byte 17 is 32 and all other bytes are 0,
    followed at once by the [width*height*3] bytes of the image and nothing
    else; pixel [(x, y)] occupies the three bytes from offset
    [18 + 3*(y*width + x)] on, which hold its blue, green and red channel
    in this order; reading the dimensions back from the header bytes gives
    the width and the height that were written. *)
Theorem C4_tga_file_layout `{G : Geometry} (name : string) (buff : list Z) (σ : os_state) :
  0 ≤ WIDTH < 65536 → 0 ≤ HEIGHT < 65536 →
  image_shaped buff → name ∉ write_denied σ →
  ∃ file,
    write_tga name buff σ = (Done (), with_file σ name file) ∧
    file = [0; 0; 2; 0; 0; 0; 0; 0; 0; 0; 0; 0;
            WIDTH `mod` 256; WIDTH `div` 256; HEIGHT `mod` 256; HEIGHT `div` 256;
            24; 32] ++ buff ∧
    Z.of_nat (length file) = 18 + WIDTH * HEIGHT * 3 ∧
    tga_dimensions (take 18 file) = Some (WIDTH, HEIGHT) ∧
    ∀ x y, in_frame x y →
      load file (18 + 3 * (y * WIDTH + x)) = load buff (RGB_LOCATION x y RGB_B) ∧
      load file (18 + 3 * (y * WIDTH + x) + 1) = load buff (RGB_LOCATION x y RGB_G) ∧
      load file (18 + 3 * (y * WIDTH + x) + 2) = load buff (RGB_LOCATION x y RGB_R).
Proof.
  intros HW HH Hshape Hname.
  destruct (little_endian_16 WIDTH HW) as (Hw0 & Hw1 & Hw).
  destruct (little_endian_16 HEIGHT HH) as (Hh0 & Hh1 & Hh).
  exists (tga_header ++ buff). split_and!.
  - by apply write_tga_Done.
  - by rewrite tga_header_bytes, Hw0, Hw1, Hh0, Hh1.
  - rewrite length_app. unfold image_shaped, RGB_SIZE, RGB_COLORS, RGB_COLOR_SIZE in Hshape.
    rewrite tga_header_bytes. simpl length. lia.
  - rewrite tga_header_bytes, Hw0, Hw1, Hh0, Hh1. unfold tga_dimensions. simpl.
    by rewrite Hw, Hh.
  - assert (∀ j, 0 ≤ j → load (tga_header ++ buff) (18 + j) = load buff j) as Hshift.
    { intros j Hj. unfold load. rewrite !decide_True by lia.
      replace (Z.to_nat (18 + j)) with (length tga_header + Z.to_nat j)%nat
        by (rewrite tga_header_bytes; simpl length; lia).
      by rewrite lookup_app_r, Nat.add_sub' by lia. }
    intros x y [Hx Hy]. rewrite !RGB_LOCATION_row. unfold RGB_B, RGB_G, RGB_R.
    rewrite <- !Z.add_assoc, !Hshift by nia.
    split_and!; f_equal; lia.
Qed.

Lemma C4_witness :
  ∃ file,
    @write_tga one_block "out.tga" [0; 127; 255] (scenario []) =
      (Done (), with_file (scenario []) "out.tga" file) ∧
    file = [0; 0; 2; 0; 0; 0; 0; 0; 0; 0; 0; 0; 1; 0; 1; 0; 24; 32; 0; 127; 255].
Proof.
  destruct (@C4_tga_file_layout one_block "out.tga" [0; 127; 255] (scenario []))
    as (file & Hrun & Hfile & _); [done|done|done|set_solver|].
  by exists file.
Defined.

Lemma read_file_Done `{G : Geometry} (name : string) (content : list Z) (σ : os_state) :
  disk σ !! name = Some content →
  read_file name σ = (Done (frame_of_file (heap_junk σ) content), σ).
Proof.
  intros Hfile. unfold read_file, get_junk, fopen_rb, mbind, proc_bind. simpl.
  by rewrite Hfile.
Qed.

Lemma read_file_Exit `{G : Geometry} (name : string) (σ : os_state) :
  disk σ !! name = None →
  read_file name σ =
    (Exit (-1),
     with_stderr σ ("Unable to open file " +:+ name +:+ " for reading." +:+ newline)).
Proof.
  intros Hfile. unfold read_file, get_junk, fopen_rb, mbind, proc_bind. simpl.
  by rewrite Hfile.
Qed.

(** The three ways [main] ends when the pipeline itself is defined. *)
Lemma main_input_missing `{G : Geometry} (argv1 argv2 : string) (σ : os_state) :
  disk σ !! argv1 = None →
  main argv1 argv2 σ =
    (Exit (-1),
     with_stderr σ ("Unable to open file " +:+ argv1 +:+ " for reading." +:+ newline)).
Proof.
  intros Hfile. unfold main, mbind, proc_bind. by rewrite read_file_Exit.
Qed.

Lemma main_output_denied `{G : Geometry} (argv1 argv2 : string) (σ : os_state)
    (content frame image : list Z) :
  disk σ !! argv1 = Some content →
  normalize_frame (frame_of_file (heap_junk σ) content) = Some frame →
  debayer (heap_junk σ) frame = Some image →
  argv2 ∈ write_denied σ →
  main argv1 argv2 σ =
    (Exit (-1),
     with_stderr σ ("Unable to open file " +:+ argv2 +:+ " for writing." +:+ newline)).
Proof.
  intros Hfile Hnorm Hrun Hout.
  unfold main, mbind, proc_bind. rewrite (read_file_Done _ content) by done.
  unfold defined, get_junk. rewrite Hnorm, Hrun. by rewrite write_tga_Exit.
Qed.

Lemma main_Done `{G : Geometry} (argv1 argv2 : string) (σ : os_state)
    (content frame image : list Z) :
  0 < WIDTH → 0 < HEIGHT →
  disk σ !! argv1 = Some content →
  normalize_frame (frame_of_file (heap_junk σ) content) = Some frame →
  debayer (heap_junk σ) frame = Some image →
  argv2 ∉ write_denied σ →
  main argv1 argv2 σ = (Done 0, with_file σ argv2 (tga_header ++ image)).
Proof.
  intros HW HH Hfile Hnorm Hrun Hout.
  assert (image_shaped image) as Hshape.
  { unfold debayer in Hrun. apply (debayer_into_Some HW HH) in Hrun as [Hlen _].
    unfold image_shaped. rewrite Hlen. by apply malloc_RGB_shaped. }
  unfold main, mbind, proc_bind. rewrite (read_file_Done _ content) by done.
  unfold defined, get_junk. rewrite Hnorm, Hrun. by rewrite write_tga_Done.
Qed.

(** Claim C9.  When the input cannot be opened for reading the process
    prints a diagnostic to the error stream and exits with status -1
    without doing anything else; when the input is read and the frame is
    processed but the output cannot be opened for writing, it prints a
    diagnostic and exits with status -1 and no file is written; otherwise
    the image is written and [main] returns 0.  (A frame on which the
    pipeline itself is undefined, see claim C3, is outside this statement.) *)
Theorem C9_exit_status `{G : Geometry} (argv1 argv2 : string) (σ : os_state) :
  0 < WIDTH → 0 < HEIGHT →
  (disk σ !! argv1 = None →
     main argv1 argv2 σ =
       (Exit (-1),
        with_stderr σ ("Unable to open file " +:+ argv1 +:+ " for reading." +:+ newline))) ∧
  (∀ content frame image,
     disk σ !! argv1 = Some content →
     normalize_frame (frame_of_file (heap_junk σ) content) = Some frame →
     debayer (heap_junk σ) frame = Some image →
     (argv2 ∈ write_denied σ →
        main argv1 argv2 σ =
          (Exit (-1),
           with_stderr σ ("Unable to open file " +:+ argv2 +:+ " for writing." +:+ newline))) ∧
     (argv2 ∉ write_denied σ →
        main argv1 argv2 σ = (Done 0, with_file σ argv2 (tga_header ++ image)))).
Proof.
  intros HW HH. split.
  - apply main_input_missing.
  - intros content frame image Hfile Hnorm Hrun. split; intros Hout.
    + by apply main_output_denied with content frame image.
    + by apply main_Done with content frame.
Qed.

Lemma C9_witness :
  @main one_block "missing.raw" "out.tga" (scenario []) =
    (Exit (-1),
     with_stderr (scenario [])
       ("Unable to open file " +:+ "missing.raw" +:+ " for reading." +:+ newline)).
Proof.
  apply (@C9_exit_status one_block "missing.raw" "out.tga" (scenario [])); done.
Defined.

(** ** The end-to-end scenario *)

(** Every run of [main] that returns has written the header and a whole
    image, and has returned 0. *)
Lemma main_Done_inv `{G : Geometry} (argv1 argv2 : string) (σ σ' : os_state) (status : Z) :
  0 < WIDTH → 0 < HEIGHT →
  main argv1 argv2 σ = (Done status, σ') →
  ∃ image, image_shaped image ∧ status = 0 ∧
           σ' = with_file σ argv2 (tga_header ++ image).
Proof.
  intros HW HH. unfold main, mbind, proc_bind.
  destruct (disk σ !! argv1) as [content|] eqn:Hfile; cycle 1.
  { by rewrite read_file_Exit by done. }
  rewrite (read_file_Done _ content) by done. unfold defined, get_junk.
  destruct (normalize_frame _) as [frame|]; [|done].
  destruct (debayer _ frame) as [image|] eqn:Hrun; [|done].
  assert (image_shaped image) as Hshape.
  { unfold debayer in Hrun. apply (debayer_into_Some HW HH) in Hrun as [Hlen _].
    unfold image_shaped. rewrite Hlen. by apply malloc_RGB_shaped. }
  destruct (decide (argv2 ∈ write_denied σ)) as [Hin|Hout].
  - by rewrite write_tga_Exit by done.
  - rewrite write_tga_Done by done. intros [= <- <-]. eauto.
Qed.

(** The header of the file that [main] leaves, and the size of what
    follows it. *)
Lemma written_file_dimensions `{G : Geometry} (image : list Z) :
  0 ≤ WIDTH < 65536 → 0 ≤ HEIGHT < 65536 → image_shaped image →
  tga_dimensions (take 18 (tga_header ++ image)) = Some (WIDTH, HEIGHT) ∧
  drop 18 (tga_header ++ image) = image ∧
  Z.of_nat (length image) = WIDTH * HEIGHT * 3.
Proof.
  intros HW HH Hshape.
  destruct (little_endian_16 WIDTH HW) as (Hw0 & Hw1 & Hw).
  destruct (little_endian_16 HEIGHT HH) as (Hh0 & Hh1 & Hh).
  split_and!.
  - rewrite take_app_length' by done.
    rewrite tga_header_bytes, Hw0, Hw1, Hh0, Hh1. unfold tga_dimensions. simpl.
    by rewrite Hw, Hh.
  - by rewrite drop_app_length' by done.
  - unfold image_shaped, RGB_SIZE, RGB_COLORS, RGB_COLOR_SIZE in Hshape. lia.
Qed.

(** [main] on a frame whose extreme samples are 0 and 1023: normalization
    changes nothing and every pixel is the truncated rescale of the
    samples of its block. *)
Lemma main_full_range_frame `{G : Geometry}
    (argv1 argv2 : string) (content : list Z) (σ : os_state) :
  0 < WIDTH → 0 < HEIGHT →
  disk σ !! argv1 = Some content → argv2 ∉ write_denied σ →
  frame_min_max (frame_of_file (heap_junk σ) content) 0 1023 →
  min_max_frame (frame_of_file (heap_junk σ) content) = Some (0, 1023) ∧
  normalize_frame (frame_of_file (heap_junk σ) content)
    = Some (frame_of_file (heap_junk σ) content) ∧
  ∃ image,
    debayer (heap_junk σ) (frame_of_file (heap_junk σ) content) = Some image ∧
    image_shaped image ∧
    main argv1 argv2 σ = (Done 0, with_file σ argv2 (tga_header ++ image)) ∧
    ∀ x y R Gr Gb B, in_frame x y →
      load (frame_of_file (heap_junk σ) content) (RG10_LOCATION x y RG10_R) = Some R →
      load (frame_of_file (heap_junk σ) content) (RG10_LOCATION x y RG10_Gr) = Some Gr →
      load (frame_of_file (heap_junk σ) content) (RG10_LOCATION x y RG10_Gb) = Some Gb →
      load (frame_of_file (heap_junk σ) content) (RG10_LOCATION x y RG10_B) = Some B →
      load image (RGB_LOCATION x y RGB_R) = Some (scale_exact R) ∧
      load image (RGB_LOCATION x y RGB_G) = Some (scale_exact ((Gr + Gb) `div` 2)) ∧
      load image (RGB_LOCATION x y RGB_B) = Some (scale_exact B).
Proof.
  intros HW HH Hfile Hout Hmm.
  set (frame := frame_of_file (heap_junk σ) content) in *.
  assert (frame_shaped frame) as Hshape by (apply frame_of_file_shaped; lia).
  assert (ten_bit frame) as Hten by by destruct Hmm as (_ & _ & Hall).
  assert (uint16_samples frame) as Hu16.
  { unfold uint16_samples. eapply Forall_impl; [exact Hten|]. simpl.
    change MAX_RG10 with 1023. lia. }
  pose proof (normalize_frame_identity HW HH frame Hshape Hmm) as Hnorm.
  destruct (debayer_ten_bit HW HH (heap_junk σ) frame Hshape Hten)
    as (image & Hrun & Himage & Hpix).
  split_and!; [by apply (min_max_frame_eq HW HH)|done|].
  exists image. split_and!; [done..| |].
  - by apply main_Done with content frame.
  - intros x y R Gr Gb B Hxy HR HGr HGb HB.
    destruct (Hpix x y Hxy) as (R' & Gr' & Gb' & B' & HR' & HGr' & HGb' & HB' & Lr & Lb & Lg).
    assert (R' = R) as -> by congruence. assert (Gr' = Gr) as -> by congruence.
    assert (Gb' = Gb) as -> by congruence. assert (B' = B) as -> by congruence.
    done.
Qed.

(** The first three bytes of an image are its pixel [(0, 0)]. *)
Lemma first_pixel `{G : Geometry} (image : list Z) (r g b : Z) :
  load image (RGB_LOCATION 0 0 RGB_R) = Some r →
  load image (RGB_LOCATION 0 0 RGB_G) = Some g →
  load image (RGB_LOCATION 0 0 RGB_B) = Some b →
  take 3 image = [b; g; r] ∧ load image 0 = Some b ∧ load image 1 = Some g ∧
  load image 2 = Some r.
Proof.
  rewrite !RGB_LOCATION_pixel. unfold RGB_R, RGB_G, RGB_B.
  replace (3 * (0 * WIDTH + 0) + 2) with 2 by lia.
  replace (3 * (0 * WIDTH + 0) + 1) with 1 by lia.
  replace (3 * (0 * WIDTH + 0) + 0) with 0 by lia.
  intros Hr Hg Hb. split_and!; [|done..].
  unfold load in Hr, Hg, Hb.
  rewrite decide_True in Hr by lia. rewrite decide_True in Hg by lia.
  rewrite decide_True in Hb by lia.
  change (Z.to_nat 2) with 2%nat in Hr. change (Z.to_nat 1) with 1%nat in Hg.
  change (Z.to_nat 0) with 0%nat in Hb.
  destruct image as [|b' [|g' [|r' rest]]]; by simplify_eq/=.
Qed.

(** The file of eight bytes that holds the block R = 1023, Gr = 0,
    Gb = 1023, B = 0, read into a frame of any geometry with fresh memory
    zeroed: the samples 0 and 2 are 1023 and every other sample is 0. *)
Lemma one_block_file_load `{G : Geometry} (i : Z) :
  0 ≤ WIDTH → 0 ≤ HEIGHT → 0 ≤ i < RG10_SAMPLES →
  load (frame_of_file (λ _, 0) [255; 3; 0; 0; 255; 3; 0; 0]) i =
    Some (if decide (i = 0 ∨ i = 2) then 1023 else 0).
Proof.
  intros HW HH Hi. rewrite frame_of_file_load by done.
  assert (i = 0 ∨ i = 1 ∨ i = 2 ∨ i = 3 ∨ 4 ≤ i) as [->| [->| [->| [->| Hbig]]]] by lia;
    [done..|].
  rewrite !lookup_ge_None_2 by (simpl length; lia). simpl.
  by rewrite decide_False by lia.
Qed.

Lemma one_block_file_full_range `{G : Geometry} :
  0 < WIDTH → 0 < HEIGHT →
  frame_min_max (frame_of_file (λ _, 0) [255; 3; 0; 0; 255; 3; 0; 0]) 0 1023.
Proof.
  intros HW HH.
  assert (4 ≤ RG10_SAMPLES) as Hsize by (unfold RG10_SAMPLES, RG10_COLORS; nia).
  split_and!.
  - apply load_elem_of with 1. by rewrite one_block_file_load by lia.
  - apply load_elem_of with 0. by rewrite one_block_file_load by lia.
  - apply Forall_forall. intros v (i & Hv)%elem_of_load.
    pose proof (load_Some _ _ _ Hv) as Hi.
    rewrite (frame_of_file_shaped (Z.lt_le_incl _ _ HW) (Z.lt_le_incl _ _ HH)) in Hi.
    rewrite one_block_file_load in Hv by lia. case_decide; simplify_eq; lia.
Qed.

(** The one-block file read by a program whose frame is at least two
    blocks wide: the two samples of the second row of block [(0, 0)] lie
    past the end of the file, and pixel [(0, 0)] has no green. *)
Lemma one_block_file_at_wider_geometry `{G : Geometry} :
  2 ≤ WIDTH → 0 < HEIGHT →
  ∃ image,
    main "in.raw" "out.tga" (scenario [255; 3; 0; 0; 255; 3; 0; 0]) =
      (Done 0, with_file (scenario [255; 3; 0; 0; 255; 3; 0; 0]) "out.tga"
                 (tga_header ++ image)) ∧
    Z.of_nat (length image) = WIDTH * HEIGHT * 3 ∧
    take 3 image = [0; 0; 255].
Proof.
  intros HW HH.
  destruct (main_full_range_frame "in.raw" "out.tga" [255; 3; 0; 0; 255; 3; 0; 0]
              (scenario [255; 3; 0; 0; 255; 3; 0; 0]))
    as (_ & _ & image & _ & Himage & Hmain & Hpix);
    [lia|done|done|set_solver|apply one_block_file_full_range; lia|].
  exists image. split_and!; [done| |].
  - unfold image_shaped, RGB_SIZE, RGB_COLORS, RGB_COLOR_SIZE in Himage. lia.
  - assert (4 ≤ RG10_SAMPLES) as Hsize by (unfold RG10_SAMPLES, RG10_COLORS; nia).
    assert (in_frame 0 0) as Hxy by (unfold in_frame; lia).
    destruct (Hpix 0 0 1023 0 0 0 Hxy) as (Lr & Lg & Lb).
    1-4: change (heap_junk (scenario _)) with (λ _ : nat, 0);
      rewrite one_block_file_load;
      [|lia|lia|by apply RG10_LOCATION_bounds; auto using RG10_R_color, RG10_Gr_color,
                   RG10_Gb_color, RG10_B_color];
      rewrite RG10_LOCATION_row;
      unfold RG10_B, RG10_Gb, RG10_Gr, RG10_R, RG10_COLOR_SIZE.
    { by rewrite decide_True by lia. }
    1-3: by rewrite decide_False by lia.
    by destruct (first_pixel image _ _ _ Lr Lg Lb) as [-> _].
Qed.

(** Claim C5, the counterexample.  The geometry is compiled into the
    program: 1920 by 1080.  The file of eight bytes that holds the block
    R = 1023, Gr = 0, Gb = 1023, B = 0 is read as the beginning of a frame
    of that size (with fresh memory zeroed the rest of the frame is 0):
    [main] returns 0 and writes a header that reports 1920 by 1080,
    followed by 6220800 bytes of which the first three are 0, 0, 255 (the
    green sample of the second row of block (0, 0) is sample 3840 and was
    never in the file).  No run of the program writes a file whose header
    reports 1 by 1 or that has three payload bytes. *)
Lemma C5_counterexample :
  (∃ image,
     @main IMX477 "in.raw" "out.tga" (scenario [255; 3; 0; 0; 255; 3; 0; 0]) =
       (Done 0, with_file (scenario [255; 3; 0; 0; 255; 3; 0; 0]) "out.tga"
                  (@tga_header IMX477 ++ image)) ∧
     tga_dimensions (@tga_header IMX477) = Some (1920, 1080) ∧
     Z.of_nat (length image) = 6220800 ∧
     take 3 image = [0; 0; 255]) ∧
  (∀ argv1 argv2 σ σ' status file,
     @main IMX477 argv1 argv2 σ = (Done status, σ') →
     disk σ' !! argv2 = Some file →
     tga_dimensions (take 18 file) = Some (1920, 1080) ∧
     tga_dimensions (take 18 file) ≠ Some (1, 1) ∧
     Z.of_nat (length (drop 18 file)) = 6220800).
Proof.
  split.
  - destruct (@one_block_file_at_wider_geometry IMX477) as (image & Hmain & Hlen & Hpixel);
      [done|done|].
    exists image. split_and!; [exact Hmain|reflexivity|exact Hlen|exact Hpixel].
  - intros argv1 argv2 σ σ' status file Hmain Hfile.
    destruct (@main_Done_inv IMX477 argv1 argv2 σ σ' status) as (image & Himage & _ & ->);
      [done|done|exact Hmain|].
    unfold with_file in Hfile. cbn [disk] in Hfile. rewrite lookup_insert_eq in Hfile.
    assert (file = @tga_header IMX477 ++ image) as -> by congruence.
    destruct (@written_file_dimensions IMX477 image) as (Hdims & -> & Hlen); [done..|].
    rewrite Hdims. split_and!; [done|discriminate|exact Hlen].
Qed.

(** Claim C5, as amended.  The width and the height are those the program
    is built with.  Whenever the frame that [main] reads has samples of at
    most 1023 and the block (0, 0) with R = 1023, Gr = 0, Gb = 1023, B = 0,
    the scan finds the extremes 0 and 1023, normalization leaves the frame
    as it is, the demosaicer gives pixel (0, 0) the values R = 255,
    G = 127, B = 0, and [main] returns 0 and writes a file whose header
    reports the configured width and height (1920 by 1080 in the source as
    it is) followed by [WIDTH * HEIGHT * 3] bytes that begin with 0, 127,
    255 (blue, green, red).  In a build for one block, width and height 1,
    these three bytes are the whole payload. *)
Theorem C5_end_to_end_at_configured_geometry `{G : Geometry}
    (argv1 argv2 : string) (content frame : list Z) (σ : os_state) :
  0 < WIDTH < 65536 → 0 < HEIGHT < 65536 →
  disk σ !! argv1 = Some content → argv2 ∉ write_denied σ →
  read_file argv1 σ = (Done frame, σ) →
  Forall (λ v, 0 ≤ v ≤ 1023) frame →
  load frame (RG10_LOCATION 0 0 RG10_R) = Some 1023 →
  load frame (RG10_LOCATION 0 0 RG10_Gr) = Some 0 →
  load frame (RG10_LOCATION 0 0 RG10_Gb) = Some 1023 →
  load frame (RG10_LOCATION 0 0 RG10_B) = Some 0 →
  min_max_frame frame = Some (0, 1023) ∧
  normalize_frame frame = Some frame ∧
  ∃ image file,
    debayer (heap_junk σ) frame = Some image ∧
    load image (RGB_LOCATION 0 0 RGB_R) = Some 255 ∧
    load image (RGB_LOCATION 0 0 RGB_G) = Some 127 ∧
    load image (RGB_LOCATION 0 0 RGB_B) = Some 0 ∧
    main argv1 argv2 σ = (Done 0, with_file σ argv2 file) ∧
    file = tga_header ++ image ∧
    tga_dimensions (take 18 file) = Some (WIDTH, HEIGHT) ∧
    Z.of_nat (length (drop 18 file)) = WIDTH * HEIGHT * 3 ∧
    take 3 (drop 18 file) = [0; 127; 255] ∧
    (WIDTH = 1 → HEIGHT = 1 → drop 18 file = [0; 127; 255]).
Proof.
  intros HW HH Hfile Hout Hread Hten HR HGr HGb HB.
  rewrite (read_file_Done _ content) in Hread by done. injection Hread as <-.
  assert (frame_min_max (frame_of_file (heap_junk σ) content) 0 1023) as Hmm.
  { split_and!; [by eapply load_elem_of..|done]. }
  destruct (main_full_range_frame argv1 argv2 content σ)
    as (Hscan & Hnorm & image & Hrun & Himage & Hmain & Hpix); [lia|lia|done..|].
  destruct (Hpix 0 0 1023 0 1023 0) as (Lr & Lg & Lb); [unfold in_frame; lia|done..|].
  change (scale_exact 1023) with 255 in Lr.
  change (scale_exact ((0 + 1023) `div` 2)) with 127 in Lg.
  change (scale_exact 0) with 0 in Lb.
  destruct (written_file_dimensions image) as (Hdims & Hdrop & Hlen); [lia|lia|done|].
  destruct (first_pixel image _ _ _ Lr Lg Lb) as (Hfirst & _).
  split_and!; [done..|].
  exists image, (tga_header ++ image). rewrite Hdrop.
  split_and!; [done..|].
  intros HW1 HH1. rewrite HW1, HH1 in Hlen. rewrite <- Hfirst.
  symmetry. apply take_ge. lia.
Qed.

Lemma C5_witness :
  ∃ file,
    @main one_block "in.raw" "out.tga" (scenario [255; 3; 0; 0; 255; 3; 0; 0]) =
      (Done 0, with_file (scenario [255; 3; 0; 0; 255; 3; 0; 0]) "out.tga" file) ∧
    tga_dimensions (take 18 file) = Some (1, 1) ∧
    drop 18 file = [0; 127; 255].
Proof.
  destruct (@C5_end_to_end_at_configured_geometry one_block "in.raw" "out.tga"
              [255; 3; 0; 0; 255; 3; 0; 0] [1023; 0; 1023; 0]
              (scenario [255; 3; 0; 0; 255; 3; 0; 0]))
    as (_ & _ & image & file & _ & _ & _ & _ & Hmain & _ & Hdims & _ & _ & Hpayload);
    [done|done|reflexivity|set_solver|reflexivity|repeat constructor; lia
    |reflexivity..|].
  exists file. split_and!; [exact Hmain|exact Hdims|by apply Hpayload].
Defined.

(* ================================================================== *)
(** * Part V: further properties of the program *)
(* ================================================================== *)

(** ** The source: [read_file] *)

(** [read_file] on a file that can be opened returns a frame of exactly
    [WIDTH * HEIGHT * 4] samples, whatever the length of the file, and
    leaves the system as it was.  Sample [i] is made of the bytes [2 i]
    (low) and [2 i + 1] (high) of the block; a byte of the block is the
    byte of the file at that offset or, where the file has ended, what
    [malloc] left there (the size of the file is not checked).  Bytes of
    the file past the frame are not read. *)
Theorem read_file_returns_whole_frame `{G : Geometry}
    (name : string) (content : list Z) (σ : os_state) :
  0 ≤ WIDTH → 0 ≤ HEIGHT →
  disk σ !! name = Some content → Forall (λ b, 0 ≤ b ≤ 255) content →
  let byte j := default (heap_junk σ (Z.to_nat j) `mod` 256) (content !! Z.to_nat j) in
  ∃ frame,
    read_file name σ = (Done frame, σ) ∧
    Z.of_nat (length frame) = WIDTH * HEIGHT * 4 ∧
    Forall (λ v, 0 ≤ v ≤ 65535) frame ∧
    ∀ i, 0 ≤ i < WIDTH * HEIGHT * 4 →
      load frame i = Some (byte (2 * i) + 256 * byte (2 * i + 1)).
Proof.
  intros HW HH Hfile Hbytes byte.
  exists (frame_of_file (heap_junk σ) content). split_and!.
  - by apply read_file_Done.
  - by apply frame_of_file_shaped.
  - by apply frame_of_file_uint16.
  - intros i Hi. by apply frame_of_file_load.
Qed.

Lemma read_file_returns_whole_frame_witness :
  ∃ frame,
    @read_file one_block "in.raw" (scenario [255; 3; 7]) = (Done frame, scenario [255; 3; 7]) ∧
    load frame 0 = Some 1023 ∧ load frame 1 = Some 7 ∧ load frame 3 = Some 0.
Proof.
  destruct (@read_file_returns_whole_frame one_block "in.raw" [255; 3; 7] (scenario [255; 3; 7]))
    as (frame & Hrun & _ & _ & Hload); [done|done|done|repeat constructor; lia|].
  exists frame. split_and!; [done|by apply Hload..].
Defined.

(** ** The scan: [min_max_frame] *)

(** On a frame of 16-bit samples [min_max_frame] returns the least and the
    greatest sample of the whole frame: both occur in the frame and every
    sample lies between them. *)
Theorem min_max_frame_least_and_greatest `{G : Geometry} (buffer : list Z) :
  0 < WIDTH → 0 < HEIGHT → frame_shaped buffer → uint16_samples buffer →
  ∃ min max,
    min_max_frame buffer = Some (min, max) ∧
    min ∈ buffer ∧ max ∈ buffer ∧ ∀ v, v ∈ buffer → min ≤ v ≤ max.
Proof.
  intros HW HH Hshape Hu16.
  destruct (min_max_frame_spec HW HH buffer Hshape Hu16)
    as (min & max & Hscan & Hmin & Hmax & Hall).
  exists min, max. split_and!; [done..|]. by apply Forall_forall.
Qed.

Lemma min_max_frame_least_and_greatest_witness :
  ∃ min max, @min_max_frame one_block [300; 65535; 7; 12] = Some (min, max) ∧
             min ∈ [300; 65535; 7; 12] ∧ max ∈ [300; 65535; 7; 12].
Proof.
  destruct (@min_max_frame_least_and_greatest one_block [300; 65535; 7; 12])
    as (min & max & Hscan & Hmin & Hmax & _);
    [reflexivity|reflexivity|reflexivity|repeat constructor; lia|].
  exists min, max. split_and!; assumption.
Defined.

(** ** Normalization: its domain, offsets and the order of the samples *)

(** Normalization is defined exactly on the frames that hold two different
    samples: on such a frame it returns, and on a frame of equal samples
    the division by the zero range makes it undefined. *)
Theorem normalize_frame_defined_iff_not_uniform `{G : Geometry} (buffer : list Z) :
  0 < WIDTH → 0 < HEIGHT → frame_shaped buffer → uint16_samples buffer →
  is_Some (normalize_frame buffer) ↔ ∃ v w, v ∈ buffer ∧ w ∈ buffer ∧ v ≠ w.
Proof.
  intros HW HH Hshape Hu16.
  destruct (min_max_frame_spec HW HH buffer Hshape Hu16) as (min & max & Hscan & Hmm).
  destruct (frame_min_max_bounds buffer min max Hu16 Hmm) as (Hmin & Hle & Hmax & Hall).
  destruct (decide (min < max)) as [Hlt|Hge].
  - destruct (normalize_frame_spec HW HH buffer min max) as (buffer' & -> & _); [done..|].
    split; [|eauto]. intros _. destruct Hmm as (Hinmin & Hinmax & _).
    exists min, max. split_and!; [done..|lia].
  - assert (max = min) as -> by lia.
    destruct (normalize_frame_uniform HW HH buffer min) as [_ ->]; [done|lia| |].
    { apply Forall_forall. intros s Hs%Hall. lia. }
    split; [by intros [? ?]|]. intros (v & w & Hv%Hall & Hw%Hall & Hne). lia.
Qed.

Lemma normalize_frame_defined_iff_not_uniform_witness :
  is_Some (@normalize_frame one_block [3; 3; 3; 4]).
Proof.
  apply (@normalize_frame_defined_iff_not_uniform one_block [3; 3; 3; 4]);
    [reflexivity|reflexivity|reflexivity|repeat constructor; lia|].
  exists 3, 4. split_and!; [set_solver..|lia].
Defined.

(** Normalization removes a constant offset: a frame and the same frame
    with [k] added to every sample have the same normalized form (and are
    undefined together). *)
Theorem normalize_frame_offset_invariant `{G : Geometry} (buffer : list Z) (k : Z) :
  0 < WIDTH → 0 < HEIGHT → frame_shaped buffer →
  uint16_samples buffer → uint16_samples ((λ v, v + k) <$> buffer) →
  normalize_frame ((λ v, v + k) <$> buffer) = normalize_frame buffer.
Proof.
  intros HW HH Hshape Hu16 Hu16'.
  set (shifted := (λ v, v + k) <$> buffer) in *.
  assert (frame_shaped shifted) as Hshape'.
  { unfold frame_shaped, shifted. by rewrite length_fmap. }
  destruct (min_max_frame_spec HW HH buffer Hshape Hu16) as (min & max & Hscan & Hmm).
  assert (frame_min_max shifted (min + k) (max + k)) as Hmm'.
  { destruct Hmm as (Hinmin & Hinmax & Hall). split_and!.
    - apply list_elem_of_fmap. by exists min.
    - apply list_elem_of_fmap. by exists max.
    - apply Forall_fmap. eapply Forall_impl; [exact Hall|]. simpl. lia. }
  destruct (frame_min_max_bounds buffer min max Hu16 Hmm) as (Hmin & Hle & Hmax & Hall).
  destruct (frame_min_max_bounds shifted _ _ Hu16' Hmm') as (Hmin' & _ & Hmax' & _).
  destruct (decide (min < max)) as [Hlt|Hge].
  - destruct (normalize_frame_spec HW HH buffer min max)
      as (b1 & -> & Hlen1 & Hrep1 & _); [done..|].
    destruct (normalize_frame_spec HW HH shifted (min + k) (max + k))
      as (b2 & -> & Hlen2 & Hrep2 & _); [done..|lia|].
    f_equal. apply load_ext.
    { rewrite Hlen1, Hlen2. unfold shifted. by rewrite length_fmap. }
    intros i Hi. rewrite Hlen2 in Hi. unfold shifted in Hi. rewrite length_fmap in Hi.
    destruct (load_is_Some buffer i Hi) as [v Hv].
    assert (load shifted i = Some (v + k)) as Hv'.
    { unfold load, shifted in *. case_decide; [|done].
      by rewrite list_lookup_fmap, Hv. }
    destruct (Hrep1 i v Hv) as (r1 & -> & Hr1 & _).
    destruct (Hrep2 i (v + k) Hv') as (r2 & -> & Hr2 & _).
    rewrite frame_mult_eq, normalize_sample_shift in Hr1, Hr2 by lia.
    replace (max + k - (min + k)) with (max - min) in Hr2 by lia.
    replace (v + k - (min + k)) with (v - min) in Hr2 by lia.
    congruence.
  - assert (max = min) as -> by lia.
    destruct (normalize_frame_uniform HW HH buffer min) as [_ ->]; [done|lia| |].
    { apply Forall_forall. intros s Hs%Hall. lia. }
    destruct (normalize_frame_uniform HW HH shifted (min + k)) as [_ ->]; [done|lia| |done].
    apply Forall_fmap, Forall_forall. intros s Hs%Hall. simpl. lia.
Qed.

Lemma normalize_frame_offset_invariant_witness :
  @normalize_frame one_block ((λ v, v + 64) <$> [15; 0; 30; 30])
    = @normalize_frame one_block [15; 0; 30; 30].
Proof.
  apply (@normalize_frame_offset_invariant one_block [15; 0; 30; 30] 64);
    [reflexivity|reflexivity|reflexivity|repeat constructor; lia|repeat constructor; simpl; lia].
Defined.

(** The product of two positive normal numbers, with the exponent of the
    result: the 47 or 48 digits of the exact product lose 23 or 24 of them. *)
Lemma f32_mul_exponent (mx my : positive) (ex ey : Z) :
  2 ^ 23 ≤ Z.pos mx < 2 ^ 24 → 2 ^ 23 ≤ Z.pos my < 2 ^ 24 → -100 ≤ ex + ey ≤ 0 →
  ∃ m e, f32_mul (S754_finite false mx ex) (S754_finite false my ey)
           = S754_finite false m e ∧
         ex + ey + 23 ≤ e ≤ ex + ey + 25 ∧ 2 ^ 23 ≤ Z.pos m < 2 ^ 24 ∧
         2 ^ 23 * Z.abs (Z.pos m * 2 ^ (e - (ex + ey)) - Z.pos mx * Z.pos my)
           ≤ Z.pos mx * Z.pos my.
Proof.
  intros Hmx Hmy HE. unfold f32_mul, SFmul. simpl xorb.
  rewrite <- Pos2Z.inj_mul.
  assert (2 ^ 46 ≤ Z.pos (mx * my) < 2 ^ 48) as HM.
  { rewrite Pos2Z.inj_mul. change (2 ^ 46) with (2 ^ 23 * 2 ^ 23).
    change (2 ^ 48) with (2 ^ 24 * 2 ^ 24). nia. }
  destruct (decide (Z.pos (mx * my) < 2 ^ 47)) as [Hlow|Hhigh].
  - destruct (round_aux_bounds (mx * my) (ex + ey) 23 loc_Exact) as (m & e & -> & He & Hm & HV);
      [by apply Zdigits2_unique; lia|lia..|].
    exists m, e. split_and!; [done|lia..|].
    change (2 ^ 23) with 8388608 in *. change (2 ^ 46) with 70368744177664 in *. lia.
  - destruct (round_aux_bounds (mx * my) (ex + ey) 24 loc_Exact) as (m & e & -> & He & Hm & HV);
      [by apply Zdigits2_unique; lia|lia..|].
    exists m, e. split_and!; [done|lia..|].
    change (2 ^ 24) with 16777216 in *. change (2 ^ 23) with 8388608 in *.
    change (2 ^ 47) with 140737488355328 in *. lia.
Qed.

(** The product of a sample difference [e] and the multiplier of a frame
    of range [d]: a normal number with a fractional part, at most one part
    in [2^23] away from the exact product (in units of [2^ey]). *)
Lemma scaled_sample_bounds (e d : Z) (my : positive) (ey : Z) :
  1 ≤ e ≤ d → d ≤ 65535 →
  2 ^ 23 ≤ Z.pos my < 2 ^ 24 → -30 ≤ ey ≤ -13 →
  2 ^ 12 * Z.abs (d * Z.pos my - 1023 * 2 ^ (- ey)) ≤ 2 ^ (- ey) →
  ∃ m r, f32_mul (f32_of_int e) (S754_finite false my ey) = S754_finite false m r ∧
         ey ≤ r ≤ -14 ∧
         2 ^ 23 * Z.abs (Z.pos m * 2 ^ (r - ey) - e * Z.pos my) ≤ e * Z.pos my.
Proof.
  intros He Hd Hmy Hey Hmult.
  destruct (of_int_finite e) as (mx & ex & -> & Hmx & Hex & Hmxe); [lia|].
  destruct (f32_mul_exponent mx my ex ey) as (m & r & -> & Hr & Hm & Hround); [done..|lia|].
  exists m, r. split; [done|].
  set (t := r - (ex + ey)) in *.
  pose proof (Z.pow_pos_nonneg 2 t ltac:(lia) ltac:(lia)) as HT.
  pose proof (Z.pow_pos_nonneg 2 (- ex) ltac:(lia) ltac:(lia)) as HA.
  pose proof (Z.pow_pos_nonneg 2 (- ey) ltac:(lia) ltac:(lia)) as HB.
  change (2 ^ 23) with 8388608 in *. change (2 ^ 24) with 16777216 in *.
  change (2 ^ 12) with 4096 in *.
  assert (23 ≤ t) as Ht by lia.
  assert (2 ^ t = 2 ^ (r - ey) * 2 ^ (- ex)) as Hsplit.
  { rewrite <- Z.pow_add_r by lia. f_equal. lia. }
  pose proof (Z.pow_pos_nonneg 2 (r - ey) ltac:(lia) ltac:(lia)) as HU.
  set (T := 2 ^ t) in *. set (A := 2 ^ (- ex)) in *. set (B := 2 ^ (- ey)) in *.
  set (U := 2 ^ (r - ey)) in *.
  assert (8388608 * Z.abs (Z.pos m * U - e * Z.pos my) ≤ e * Z.pos my) as Hvalue.
  { apply (Z.mul_le_mono_pos_r _ _ A HA).
    rewrite <- Z.mul_assoc, <- (Z.abs_eq A) at 1 by lia. rewrite <- Z.abs_mul.
    replace ((Z.pos m * U - e * Z.pos my) * A) with (Z.pos m * T - Z.pos mx * Z.pos my)
      by (rewrite Hsplit, Hmxe; lia).
    replace (e * Z.pos my * A) with (Z.pos mx * Z.pos my) by (rewrite Hmxe; lia).
    done. }
  split; [|done]. split; [lia|].
  assert (e * Z.pos my ≤ d * Z.pos my) as Hed
    by (apply Z.mul_le_mono_nonneg_r; lia).
  assert (2 * (Z.pos m * U) < 2047 * B) as Hupper by lia.
  assert (8388608 * U ≤ Z.pos m * U) as Hlow
    by (apply Z.mul_le_mono_nonneg_r; lia).
  assert (2 ^ (24 + (r - ey)) < 2 ^ (11 + - ey)) as Hpow.
  { rewrite (Z.pow_add_r 2 24 (r - ey)), (Z.pow_add_r 2 11 (- ey)) by lia.
    fold U B. change (2 ^ 24) with 16777216. change (2 ^ 11) with 2048. lia. }
  apply Z.pow_lt_mono_r_iff in Hpow; lia.
Qed.

Lemma div_le_cross (a b a' b' : Z) :
  0 < b → 0 < b' → a * b' ≤ a' * b → a `div` b ≤ a' `div` b'.
Proof.
  intros Hb Hb' Hle. apply Z.div_le_lower_bound; [done|].
  pose proof (Z.mul_div_le a b Hb). nia.
Qed.

(** A greater sample is never given a smaller value. *)
Lemma normalize_value_mono (e1 e2 d R1 R2 : Z) :
  1 ≤ e1 ≤ e2 → e2 ≤ d → d ≤ 65535 →
  normalize_sample 0 (f32_div (f32_of_int 1023) (f32_of_int d)) e1 = Some R1 →
  normalize_sample 0 (f32_div (f32_of_int 1023) (f32_of_int d)) e2 = Some R2 →
  R1 ≤ R2.
Proof.
  intros He1 He2 Hd. destruct (decide (e1 = e2)) as [->|Hne].
  { intros -> [= ->]. done. }
  unfold normalize_sample, round_to_uint16. rewrite !Z.sub_0_r.
  destruct (mult_finite d) as (my & ey & -> & Hmy & Hey & Hmult); [lia|].
  destruct (scaled_sample_bounds e1 d my ey) as (m1 & r1 & -> & Hr1 & Hv1); [lia..|done|].
  destruct (scaled_sample_bounds e2 d my ey) as (m2 & r2 & -> & Hr2 & Hv2); [lia..|done|].
  rewrite !float_round_finite by lia. simpl. unfold to_unsigned.
  repeat case_decide; try done. intros [= <-] [= <-].
  pose proof (Z.pow_pos_nonneg 2 (r1 - ey) ltac:(lia) ltac:(lia)) as HU1.
  pose proof (Z.pow_pos_nonneg 2 (r2 - ey) ltac:(lia) ltac:(lia)) as HU2.
  pose proof (Z.pow_pos_nonneg 2 (- r1 - 1) ltac:(lia) ltac:(lia)) as HS1.
  pose proof (Z.pow_pos_nonneg 2 (- r2 - 1) ltac:(lia) ltac:(lia)) as HS2.
  assert (2 * (2 ^ (- r1 - 1) * 2 ^ (r1 - ey)) = 2 * (2 ^ (- r2 - 1) * 2 ^ (r2 - ey))) as Hsame.
  { rewrite <- !Z.pow_add_r by lia. do 2 f_equal. lia. }
  change (2 ^ 23) with 8388608 in *.
  set (U1 := 2 ^ (r1 - ey)) in *. set (U2 := 2 ^ (r2 - ey)) in *.
  set (S1 := 2 ^ (- r1 - 1)) in *. set (S2 := 2 ^ (- r2 - 1)) in *.
  assert (Z.pos m1 * U1 ≤ Z.pos m2 * U2) as Hle.
  { assert (8388609 * (e1 * Z.pos my) ≤ 8388607 * (e2 * Z.pos my)); [|lia].
    assert (8388609 * e1 ≤ 8388607 * e2) by lia. nia. }
  apply div_le_cross; [lia..|].
  assert (Z.pos m1 * S2 ≤ Z.pos m2 * S1); [|lia].
  apply (Z.mul_le_mono_pos_r _ _ (U1 * U2)); [nia|].
  replace (Z.pos m1 * S2 * (U1 * U2)) with (Z.pos m1 * U1 * (S2 * U2)) by lia.
  replace (Z.pos m2 * S1 * (U1 * U2)) with (Z.pos m2 * U2 * (S1 * U1)) by lia.
  replace (S2 * U2) with (S1 * U1) by lia.
  apply Z.mul_le_mono_nonneg_r; [nia|done].
Qed.

(** On a frame whose range is at most 1022 the multiplier is above one:
    a strictly greater sample is given a strictly greater value. *)
Lemma normalize_value_strict (e1 e2 d R1 R2 : Z) :
  1 ≤ e1 → e1 < e2 → e2 ≤ d → d ≤ 1022 →
  normalize_sample 0 (f32_div (f32_of_int 1023) (f32_of_int d)) e1 = Some R1 →
  normalize_sample 0 (f32_div (f32_of_int 1023) (f32_of_int d)) e2 = Some R2 →
  R1 < R2.
Proof.
  intros He1 Hlt He2 Hd.
  unfold normalize_sample, round_to_uint16. rewrite !Z.sub_0_r.
  destruct (mult_finite d) as (my & ey & -> & Hmy & Hey & Hmult); [lia|].
  destruct (scaled_sample_bounds e1 d my ey) as (m1 & r1 & -> & Hr1 & Hv1); [lia..|done|].
  destruct (scaled_sample_bounds e2 d my ey) as (m2 & r2 & -> & Hr2 & Hv2); [lia..|done|].
  rewrite !float_round_finite by lia. simpl. unfold to_unsigned.
  repeat case_decide; try done. intros [= <-] [= <-].
  pose proof (Z.pow_pos_nonneg 2 (r1 - ey) ltac:(lia) ltac:(lia)) as HU1.
  pose proof (Z.pow_pos_nonneg 2 (r2 - ey) ltac:(lia) ltac:(lia)) as HU2.
  pose proof (Z.pow_pos_nonneg 2 (- r1 - 1) ltac:(lia) ltac:(lia)) as HS1.
  pose proof (Z.pow_pos_nonneg 2 (- r2 - 1) ltac:(lia) ltac:(lia)) as HS2.
  pose proof (Z.pow_pos_nonneg 2 (- ey) ltac:(lia) ltac:(lia)) as HB.
  assert (2 * (2 ^ (- r1 - 1) * 2 ^ (r1 - ey)) = 2 ^ (- ey)) as Hsame1.
  { rewrite <- (Z.pow_1_r 2) at 1. rewrite <- !Z.pow_add_r by lia. f_equal. lia. }
  assert (2 * (2 ^ (- r2 - 1) * 2 ^ (r2 - ey)) = 2 ^ (- ey)) as Hsame2.
  { rewrite <- (Z.pow_1_r 2) at 1. rewrite <- !Z.pow_add_r by lia. f_equal. lia. }
  change (2 ^ 23) with 8388608 in *. change (2 ^ 12) with 4096 in *.
  set (U1 := 2 ^ (r1 - ey)) in *. set (U2 := 2 ^ (r2 - ey)) in *.
  set (S1 := 2 ^ (- r1 - 1)) in *. set (S2 := 2 ^ (- r2 - 1)) in *.
  set (B := 2 ^ (- ey)) in *.
  assert (Z.pos m1 * U1 + B ≤ Z.pos m2 * U2) as Hgap.
  { assert (8388608 * B ≤ 8388607 * (e2 * Z.pos my) - 8388609 * (e1 * Z.pos my)); [|lia].
    assert ((8388609 - 2 * d) * Z.pos my ≤
              8388607 * (e2 * Z.pos my) - 8388609 * (e1 * Z.pos my)) as Hdiff.
    { replace (8388607 * (e2 * Z.pos my) - 8388609 * (e1 * Z.pos my))
        with ((8388607 * e2 - 8388609 * e1) * Z.pos my) by lia.
      apply Z.mul_le_mono_nonneg_r; lia. }
    assert (8388608 * (d * B) ≤ (8388609 - 2 * d) * (d * Z.pos my)) as Hscaled.
    { assert (4190207 * B ≤ 4096 * (d * Z.pos my)) as Hmy' by lia.
      assert (4096 * 8388608 * d * B ≤ (8388609 - 2 * d) * 4190207 * B) as Hd'
        by (apply Z.mul_le_mono_nonneg_r; lia).
      assert ((8388609 - 2 * d) * (4190207 * B) ≤ (8388609 - 2 * d) * (4096 * (d * Z.pos my)))
        by (apply Z.mul_le_mono_nonneg_l; lia).
      lia. }
    assert (8388608 * B ≤ (8388609 - 2 * d) * Z.pos my); [|lia].
    apply (Z.mul_le_mono_pos_r _ _ d); lia. }
  cut ((Z.pos m1 + S1) `div` (2 * S1) + 1 ≤ (Z.pos m2 + S2) `div` (2 * S2)); [lia|].
  rewrite <- (Z.div_add (Z.pos m1 + S1) 1 (2 * S1)) by lia.
  apply div_le_cross; [lia..|].
  assert ((Z.pos m1 + 2 * S1) * S2 ≤ Z.pos m2 * S1); [|lia].
  apply (Z.mul_le_mono_pos_r _ _ (2 * (U1 * U2))); [nia|].
  replace ((Z.pos m1 + 2 * S1) * S2 * (2 * (U1 * U2)))
    with ((Z.pos m1 * U1 + 2 * (S1 * U1)) * (2 * (S2 * U2))) by lia.
  replace (Z.pos m2 * S1 * (2 * (U1 * U2))) with (Z.pos m2 * U2 * (2 * (S1 * U1))) by lia.
  rewrite Hsame1, Hsame2. apply Z.mul_le_mono_nonneg_r; lia.
Qed.

(** On a frame whose range is at most 1022 every sample above the least
    one is given a positive value. *)
Lemma normalize_value_pos (e d R : Z) :
  1 ≤ e ≤ d → d ≤ 1022 →
  normalize_sample 0 (f32_div (f32_of_int 1023) (f32_of_int d)) e = Some R → 1 ≤ R.
Proof.
  intros He Hd. unfold normalize_sample, round_to_uint16. rewrite Z.sub_0_r.
  destruct (mult_finite d) as (my & ey & -> & Hmy & Hey & Hmult); [lia|].
  destruct (scaled_sample_bounds e d my ey) as (m & r & -> & Hr & Hv); [lia..|done|].
  rewrite float_round_finite by lia. simpl. unfold to_unsigned.
  case_decide; [|done]. intros [= <-].
  pose proof (Z.pow_pos_nonneg 2 (r - ey) ltac:(lia) ltac:(lia)) as HU.
  pose proof (Z.pow_pos_nonneg 2 (- r - 1) ltac:(lia) ltac:(lia)) as HS.
  pose proof (Z.pow_pos_nonneg 2 (- ey) ltac:(lia) ltac:(lia)) as HB.
  assert (2 * (2 ^ (- r - 1) * 2 ^ (r - ey)) = 2 ^ (- ey)) as Hsame.
  { rewrite <- (Z.pow_1_r 2) at 1. rewrite <- !Z.pow_add_r by lia. f_equal. lia. }
  change (2 ^ 23) with 8388608 in *. change (2 ^ 12) with 4096 in *.
  set (U := 2 ^ (r - ey)) in *. set (S := 2 ^ (- r - 1)) in *. set (B := 2 ^ (- ey)) in *.
  apply Z.div_le_lower_bound; [lia|].
  assert (S ≤ Z.pos m); [|lia].
  assert (S * U ≤ Z.pos m * U); [|nia].
  assert (B ≤ 2 * (Z.pos m * U)); [|lia].
  assert (Z.pos my ≤ e * Z.pos my) as Hmono by nia.
  assert (8388607 * Z.pos my ≤ 8388608 * (Z.pos m * U)) as Hlow by lia.
  assert (4190207 * B ≤ 4096 * (d * Z.pos my)) as Hmy' by lia.
  assert (d * Z.pos my ≤ 1022 * Z.pos my) as Hd' by nia.
  lia.
Qed.

(** A frame of range 1023 has the multiplier one. *)
Lemma normalize_value_identity (e R : Z) :
  0 ≤ e ≤ 1023 →
  normalize_sample 0 (f32_div (f32_of_int 1023) (f32_of_int 1023)) e = Some R → R = e.
Proof.
  intros He. pose proof (frame_mult_eq 0 1023 ltac:(lia) ltac:(lia)) as Hmult.
  rewrite Z.sub_0_r in Hmult. rewrite <- Hmult, normalize_identity by done. congruence.
Qed.

Section NormalizeOrder.
Context `{G : Geometry}.
Hypothesis WIDTH_pos : 0 < WIDTH.
Hypothesis HEIGHT_pos : 0 < HEIGHT.

(** A frame that can be normalized: its extremes differ, and every sample
    of the result is the value of [normalize_sample] for the sample it
    replaces. *)
Lemma normalize_frame_Some (buffer buffer' : list Z) :
  frame_shaped buffer → uint16_samples buffer →
  normalize_frame buffer = Some buffer' →
  ∃ min max,
    frame_min_max buffer min max ∧ 0 ≤ min ∧ min < max ∧ max ≤ 65535 ∧
    length buffer' = length buffer ∧
    ∀ i v r, load buffer i = Some v → load buffer' i = Some r →
      min ≤ v ≤ max ∧ 0 ≤ r ≤ 1023 ∧ (v = min → r = 0) ∧ (v = max → r = 1023) ∧
      normalize_sample 0 (f32_div (f32_of_int 1023) (f32_of_int (max - min))) (v - min)
        = Some r.
Proof using WIDTH_pos HEIGHT_pos.
  intros Hshape Hu16 Hrun.
  destruct (min_max_frame_spec WIDTH_pos HEIGHT_pos buffer Hshape Hu16)
    as (min & max & Hscan & Hmm).
  destruct (frame_min_max_bounds buffer min max Hu16 Hmm) as (Hmin & Hle & Hmax & Hall).
  destruct (decide (min < max)) as [Hlt|Hge]; cycle 1.
  { assert (max = min) as -> by lia.
    destruct (normalize_frame_uniform WIDTH_pos HEIGHT_pos buffer min) as [_ Hnone];
      [done|lia| |congruence].
    apply Forall_forall. intros s Hs%Hall. lia. }
  destruct (normalize_frame_spec WIDTH_pos HEIGHT_pos buffer min max)
    as (b & Hb & Hlen & Hrep & _); [done..|].
  assert (b = buffer') as -> by congruence.
  exists min, max. split_and!; [done..|]. intros i v r Hv Hr.
  destruct (Hrep i v Hv) as (r' & Hr' & Hsample & _).
  assert (r' = r) as -> by congruence.
  pose proof (Hall v (load_elem_of _ _ _ Hv)) as Hvrange.
  destruct (normalize_sample_spec min max v) as (R & HR & Hrange & _ & Hzero & Htop);
    [done..|].
  assert (R = r) as -> by congruence.
  split_and!; try done; try lia.
  by rewrite frame_mult_eq, normalize_sample_shift in Hsample by lia.
Qed.
End NormalizeOrder.

(** Normalization keeps the order of the samples: of two samples of a
    frame the greater never gets the smaller value.  On a frame whose
    samples span at most 1023 it keeps them apart as well (a strictly
    greater sample gets a strictly greater value, so nothing is merged).
    Every sample equal to the least one becomes 0 and every sample equal to
    the greatest one becomes 1023. *)
Theorem normalize_frame_preserves_order `{G : Geometry}
    (buffer buffer' : list Z) (i j v w r s : Z) :
  0 < WIDTH → 0 < HEIGHT → frame_shaped buffer → uint16_samples buffer →
  normalize_frame buffer = Some buffer' →
  load buffer i = Some v → load buffer j = Some w →
  load buffer' i = Some r → load buffer' j = Some s →
  (v ≤ w → r ≤ s) ∧
  ((∀ a b, a ∈ buffer → b ∈ buffer → b - a ≤ 1023) → v < w → r < s) ∧
  ((∀ u, u ∈ buffer → v ≤ u) → r = 0) ∧
  ((∀ u, u ∈ buffer → u ≤ w) → s = 1023).
Proof.
  intros HW HH Hshape Hu16 Hrun Hv Hw Hr Hs.
  destruct (normalize_frame_Some HW HH buffer buffer' Hshape Hu16 Hrun)
    as (min & max & (Hinmin & Hinmax & _) & Hmin & Hlt & Hmax & _ & Hrep).
  destruct (Hrep i v r Hv Hr) as (Hvrange & Hrrange & Hvmin & _ & Hvr).
  destruct (Hrep j w s Hw Hs) as (Hwrange & Hsrange & _ & Hwmax & Hws).
  split_and!.
  - intros Hle. destruct (decide (v = min)) as [->|Hne].
    { rewrite Hvmin by done. lia. }
    apply (normalize_value_mono (v - min) (w - min) (max - min)); [lia..|done|done].
  - intros Hspan Hvw. specialize (Hspan min max Hinmin Hinmax).
    destruct (decide (max - min = 1023)) as [Hfull|Hless].
    { rewrite Hfull in Hvr, Hws.
      apply normalize_value_identity in Hvr, Hws; lia. }
    destruct (decide (v = min)) as [->|Hne].
    { rewrite Hvmin by done.
      cut (1 ≤ s); [lia|]. apply (normalize_value_pos (w - min) (max - min)); [lia..|done]. }
    apply (normalize_value_strict (v - min) (w - min) (max - min)); [lia..|done|done].
  - intros Hleast. apply Hvmin. specialize (Hleast min Hinmin). lia.
  - intros Hgreatest. apply Hwmax. specialize (Hgreatest max Hinmax). lia.
Qed.

Lemma normalize_frame_preserves_order_witness :
  @normalize_frame one_block [15; 0; 30; 30] = Some [511; 0; 1023; 1023] ∧ 511 < 1023.
Proof.
  assert (@normalize_frame one_block [15; 0; 30; 30] = Some [511; 0; 1023; 1023]) as Hrun
    by by vm_compute.
  destruct (@normalize_frame_preserves_order one_block
              [15; 0; 30; 30] [511; 0; 1023; 1023] 0 2 15 30 511 1023)
    as (_ & Hlt & _); [reflexivity|reflexivity|reflexivity|repeat constructor; lia
                      |exact Hrun|reflexivity..|].
  split; [exact Hrun|]. apply Hlt; [|lia].
  intros a b Ha Hb. set_unfold. lia.
Defined.

(** ** The demosaicer: its domain, its output and its locality *)

(** The scaling still fits a byte for the four values above 1023 whose
    product stays below 256. *)
Lemma NORM_headroom (v : Z) :
  0 ≤ v ≤ 1027 → float_to_uint8 (NORM v) = Some (scale_exact v).
Proof.
  intros Hv. destruct (decide (v ≤ 1023)) as [Hten|Hover].
  { apply NORM_exact. change MAX_RG10 with 1023. lia. }
  assert (NORM_exact_at v = true) as Hcheck.
  { apply (all_in_spec NORM_exact_at 1024 1027); [by vm_compute|lia]. }
  unfold NORM_exact_at in Hcheck. by apply bool_decide_eq_true in Hcheck.
Qed.

(** From 1028 on the product is at least 256: its conversion to [uint8_t]
    is undefined. *)
Lemma NORM_overflow (v : Z) :
  1028 ≤ v ≤ 65535 → float_to_uint8 (NORM v) = None.
Proof.
  intros Hv. unfold NORM.
  change (f32_div (f32_of_int MAX_RGB) (f32_of_int MAX_RG10))
    with (S754_finite false 16728016 (-26)).
  destruct (of_int_finite v) as (mx & ex & -> & Hmx & Hex & Hvx); [lia|].
  destruct (f32_mul_bounds mx 16728016 ex (-26)) as (m & e & -> & He & Hm & Hround);
    [done|done|lia|].
  unfold float_to_uint8, float_trunc, cond_Zopp. simpl. unfold to_unsigned.
  rewrite decide_False; [done|]. change (2 ^ 8) with 256.
  cut (256 ≤ Z.shiftl (Z.pos m) e); [lia|].
  change (2 ^ 23) with 8388608 in *.
  destruct (decide (0 ≤ e)) as [Hpos|Hneg].
  - rewrite Z.shiftl_mul_pow2 by done.
    pose proof (Z.pow_pos_nonneg 2 e ltac:(lia) Hpos). nia.
  - rewrite Z.shiftl_div_pow2 by lia.
    pose proof (Z.pow_pos_nonneg 2 (- e) ltac:(lia) ltac:(lia)) as HE.
    apply Z.div_le_lower_bound; [done|].
    set (t := e - (ex + -26)) in *.
    pose proof (Z.pow_pos_nonneg 2 t ltac:(lia) ltac:(lia)) as HT.
    pose proof (Z.pow_pos_nonneg 2 (- ex) ltac:(lia) ltac:(lia)) as HA.
    assert (2 ^ (- e) * 2 ^ t = 2 ^ (- ex) * 2 ^ 26) as Hpow.
    { rewrite <- !Z.pow_add_r by lia. f_equal. lia. }
    change (2 ^ 26) with 67108864 in Hpow.
    set (T := 2 ^ t) in *. set (A := 2 ^ (- ex)) in *. set (E := 2 ^ (- e)) in *.
    apply (Z.mul_le_mono_pos_r _ _ T HT).
    assert (1028 * A ≤ Z.pos mx) as Hlow by nia.
    assert (1028 * A * 16728016 ≤ Z.pos mx * 16728016) as Hprod by nia.
    change (Z.pos 16728016) with 16728016 in Hround.
    lia.
Qed.

Lemma float_to_uint8_range (f : spec_float) (r : Z) :
  float_to_uint8 f = Some r → 0 ≤ r ≤ 255.
Proof.
  unfold float_to_uint8, to_unsigned. destruct (float_trunc f) as [v|]; [simpl|done].
  change (2 ^ 8) with 256. case_decide; [|done]. intros [= <-]. lia.
Qed.

Section DebayerDomain.
Context `{G : Geometry}.
Hypothesis WIDTH_pos : 0 < WIDTH.
Hypothesis HEIGHT_pos : 0 < HEIGHT.

(** What a returned image is: a block of the size of the image in which
    every pixel holds the three values of its block. *)
Lemma debayer_Some (junk : nat → Z) (buffer image : list Z) :
  debayer junk buffer = Some image →
  image_shaped image ∧ ∀ x y, in_frame x y → pixel_done buffer image x y.
Proof using WIDTH_pos HEIGHT_pos.
  unfold debayer. intros [Hlen Hdone]%debayer_into_Some; [|done..].
  split; [|done]. unfold image_shaped. rewrite Hlen. by apply malloc_RGB_shaped.
Qed.

(** The pass returns exactly when the three values of every pixel are
    defined. *)
Lemma debayer_defined_iff (junk : nat → Z) (buffer : list Z) :
  is_Some (debayer junk buffer) ↔
  ∀ x y, in_frame x y →
    is_Some (debayer_red buffer x y) ∧ is_Some (debayer_green buffer x y) ∧
    is_Some (debayer_blue buffer x y).
Proof using WIDTH_pos HEIGHT_pos.
  split.
  - intros [image [_ Hdone]%debayer_Some] x y Hxy.
    destruct (Hdone x y Hxy) as (r & g & b & -> & -> & -> & _). eauto.
  - intros Hdef.
    destruct (debayer_into_is_Some WIDTH_pos HEIGHT_pos (malloc junk RGB_SIZE) buffer)
      as (image & Hrun & _); [by apply malloc_RGB_shaped|done|].
    by exists image.
Qed.

(** Two images in which every pixel holds the values of the same frame are
    the same image. *)
Lemma pixel_done_ext (buffer image1 image2 : list Z) :
  image_shaped image1 → image_shaped image2 →
  (∀ x y, in_frame x y → pixel_done buffer image1 x y) →
  (∀ x y, in_frame x y → pixel_done buffer image2 x y) →
  image1 = image2.
Proof using WIDTH_pos.
  unfold image_shaped. intros Hlen1 Hlen2 Hdone1 Hdone2.
  apply load_ext; [lia|]. intros j Hj. rewrite Hlen1 in Hj.
  apply (RGB_LOCATION_cover WIDTH_pos) in Hj as (x & y & c & Hxy & Hc & <-).
  destruct (Hdone1 x y Hxy) as (r1 & g1 & b1 & Hr1 & Hg1 & Hb1 & Lr1 & Lg1 & Lb1).
  destruct (Hdone2 x y Hxy) as (r2 & g2 & b2 & Hr2 & Hg2 & Hb2 & Lr2 & Lg2 & Lb2).
  apply elem_of_RGB_colors in Hc as [->| [->| ->]].
  - change 0 with RGB_B. congruence.
  - change 1 with RGB_G. congruence.
  - change 2 with RGB_R. congruence.
Qed.

(** Every byte of a returned image is a value the pass has stored. *)
Lemma debayer_bytes (junk : nat → Z) (buffer image : list Z) :
  debayer junk buffer = Some image → Forall (λ b, 0 ≤ b ≤ 255) image.
Proof using WIDTH_pos HEIGHT_pos.
  intros [Hshape Hdone]%debayer_Some.
  apply Forall_forall. intros b (j & Hj)%elem_of_load.
  pose proof (load_Some _ _ _ Hj) as Hrange. rewrite Hshape in Hrange.
  apply (RGB_LOCATION_cover WIDTH_pos) in Hrange as (x & y & c & Hxy & Hc & <-).
  destruct (Hdone x y Hxy) as (r & g & b' & Hr & Hg & Hb & Lr & Lg & Lb).
  unfold debayer_red, debayer_green, debayer_blue in Hr, Hg, Hb.
  apply bind_Some in Hr as (R & _ & Hr%float_to_uint8_range).
  apply bind_Some in Hb as (B & _ & Hb%float_to_uint8_range).
  apply bind_Some in Hg as (Gb & _ & (Gr & _ & Hg%float_to_uint8_range)%bind_Some).
  apply elem_of_RGB_colors in Hc as [->| [->| ->]].
  - change 0 with RGB_B in Hj. by replace b with b' by congruence.
  - change 1 with RGB_G in Hj. by replace b with g by congruence.
  - change 2 with RGB_R in Hj. by replace b with r by congruence.
Qed.

(** The content of the fresh block does not show in the result. *)
Lemma debayer_junk_irrelevant (junk junk' : nat → Z) (buffer : list Z) :
  debayer junk buffer = debayer junk' buffer.
Proof using WIDTH_pos HEIGHT_pos.
  assert (∀ j j' image, debayer j buffer = Some image → debayer j' buffer = Some image)
    as Hsame.
  { intros j j' image Hrun. destruct (debayer_Some j buffer image Hrun) as [Hshape Hdone].
    destruct (proj2 (debayer_defined_iff j' buffer)) as [image' Hrun'].
    { intros x y Hxy. destruct (Hdone x y Hxy) as (r & g & b & -> & -> & -> & _). eauto. }
    rewrite Hrun'. f_equal.
    destruct (debayer_Some j' buffer image' Hrun') as [Hshape' Hdone'].
    symmetry. by apply (pixel_done_ext buffer). }
  destruct (debayer junk buffer) as [image|] eqn:Hrun.
  { symmetry. by apply Hsame with junk. }
  destruct (debayer junk' buffer) as [image'|] eqn:Hrun'; [|done].
  apply Hsame with (j' := junk) in Hrun'. congruence.
Qed.

(** The sample values for which the three channels of a pixel are
    defined. *)
Lemma debayer_channels_defined (buffer : list Z) (x y R Gr Gb B : Z) :
  load buffer (RG10_LOCATION x y RG10_R) = Some R →
  load buffer (RG10_LOCATION x y RG10_Gr) = Some Gr →
  load buffer (RG10_LOCATION x y RG10_Gb) = Some Gb →
  load buffer (RG10_LOCATION x y RG10_B) = Some B →
  0 ≤ R ≤ 65535 → 0 ≤ Gr ≤ 65535 → 0 ≤ Gb ≤ 65535 → 0 ≤ B ≤ 65535 →
  (is_Some (debayer_red buffer x y) ↔ R ≤ 1027) ∧
  (is_Some (debayer_green buffer x y) ↔ (Gb + Gr) `div` 2 ≤ 1027) ∧
  (is_Some (debayer_blue buffer x y) ↔ B ≤ 1027).
Proof.
  intros HR HGr HGb HB BR BGr BGb BB.
  assert (∀ v, 0 ≤ v ≤ 65535 → is_Some (float_to_uint8 (NORM v)) ↔ v ≤ 1027) as Hnorm.
  { intros v Hv. destruct (decide (v ≤ 1027)) as [Hok|Hover].
    - rewrite NORM_headroom by lia. split; [done|eauto].
    - rewrite NORM_overflow by lia. split; [by intros [? ?]|lia]. }
  unfold debayer_red, debayer_green, debayer_blue. rewrite HR, HGr, HGb, HB. simpl.
  rewrite Z.quot_div_nonneg by lia.
  split_and!; apply Hnorm; try done.
  split; [apply Z.div_pos; lia|]. apply Z.div_le_upper_bound; lia.
Qed.
End DebayerDomain.

(** The demosaicer is defined exactly on the frames in which every red
    sample, every blue sample and every halved sum of two greens is at most
    1027: up to there the scaled value is below 256, from 1028 on it is not
    and its conversion to [uint8_t] is undefined.  (A frame that has not
    been normalized can hold any 16-bit value.) *)
Theorem debayer_defined_iff_samples_fit `{G : Geometry} (junk : nat → Z) (buffer : list Z) :
  0 < WIDTH → 0 < HEIGHT → frame_shaped buffer → uint16_samples buffer →
  is_Some (debayer junk buffer) ↔
  ∀ x y R Gr Gb B, in_frame x y →
    load buffer (RG10_LOCATION x y RG10_R) = Some R →
    load buffer (RG10_LOCATION x y RG10_Gr) = Some Gr →
    load buffer (RG10_LOCATION x y RG10_Gb) = Some Gb →
    load buffer (RG10_LOCATION x y RG10_B) = Some B →
    R ≤ 1027 ∧ (Gb + Gr) `div` 2 ≤ 1027 ∧ B ≤ 1027.
Proof.
  intros HW HH Hshape Hu16. unfold uint16_samples in Hu16. rewrite Forall_forall in Hu16.
  rewrite (debayer_defined_iff HW HH). split.
  - intros Hdef x y R Gr Gb B Hxy HR HGr HGb HB.
    destruct (debayer_channels_defined buffer x y R Gr Gb B) as (Hr & Hg & Hb);
      [done..|by eapply Hu16, load_elem_of|by eapply Hu16, load_elem_of
      |by eapply Hu16, load_elem_of|by eapply Hu16, load_elem_of|].
    destruct (Hdef x y Hxy) as (Dr & Dg & Db). by rewrite <- Hr, <- Hg, <- Hb.
  - intros Hfit x y Hxy.
    destruct (frame_load buffer x y RG10_R) as (R & HR & HRin); [done..|apply RG10_R_color|].
    destruct (frame_load buffer x y RG10_Gr) as (Gr & HGr & HGrin); [done..|apply RG10_Gr_color|].
    destruct (frame_load buffer x y RG10_Gb) as (Gb & HGb & HGbin); [done..|apply RG10_Gb_color|].
    destruct (frame_load buffer x y RG10_B) as (B & HB & HBin); [done..|apply RG10_B_color|].
    destruct (debayer_channels_defined buffer x y R Gr Gb B) as (Hr & Hg & Hb);
      [done..|by apply Hu16|by apply Hu16|by apply Hu16|by apply Hu16|].
    rewrite Hr, Hg, Hb. by apply (Hfit x y R Gr Gb B).
Qed.

Lemma debayer_defined_iff_samples_fit_witness :
  is_Some (@debayer one_block (λ _, 0) [1027; 1030; 1024; 0]) ∧
  ¬ is_Some (@debayer one_block (λ _, 0) [1028; 0; 0; 0]).
Proof.
  split.
  - apply (@debayer_defined_iff_samples_fit one_block (λ _, 0) [1027; 1030; 1024; 0]);
      [reflexivity|reflexivity|reflexivity|repeat constructor; lia|].
    intros x y R Gr Gb B [Hx Hy]. assert (x = 0) as -> by (simpl in Hx; lia).
    assert (y = 0) as -> by (simpl in Hy; lia).
    intros [= <-] [= <-] [= <-] [= <-]. by vm_compute.
  - intros Hdef.
    assert (uint16_samples [1028; 0; 0; 0]) as Hu16 by (repeat constructor; lia).
    destruct (proj1 (@debayer_defined_iff_samples_fit one_block (λ _, 0) [1028; 0; 0; 0]
                       eq_refl eq_refl eq_refl Hu16) Hdef 0 0 1028 0 0 0) as [Hred _];
      [done..|]. lia.
Defined.

(** Whenever the demosaicer returns, the image has [WIDTH * HEIGHT * 3]
    bytes, every one of them written by the pass: each is a value from 0 to
    255, and the image is the same whatever the block held when [malloc]
    returned it. *)
Theorem debayer_overwrites_whole_image `{G : Geometry}
    (junk : nat → Z) (buffer image : list Z) :
  0 < WIDTH → 0 < HEIGHT →
  debayer junk buffer = Some image →
  Z.of_nat (length image) = WIDTH * HEIGHT * 3 ∧
  Forall (λ b, 0 ≤ b ≤ 255) image ∧
  ∀ junk', debayer junk' buffer = Some image.
Proof.
  intros HW HH Hrun. destruct (debayer_Some HW HH junk buffer image Hrun) as [Hshape _].
  split_and!.
  - unfold image_shaped, RGB_SIZE, RGB_COLORS, RGB_COLOR_SIZE in Hshape. lia.
  - by apply (debayer_bytes HW HH junk buffer).
  - intros junk'. by rewrite (debayer_junk_irrelevant HW HH junk' junk).
Qed.

Lemma debayer_overwrites_whole_image_witness :
  @debayer one_block (λ _, 77) [1023; 0; 1023; 0] = Some [0; 127; 255].
Proof.
  apply (@debayer_overwrites_whole_image one_block (λ _, 0) [1023; 0; 1023; 0] [0; 127; 255]);
    [reflexivity|reflexivity|by vm_compute].
Defined.

(** A pixel is computed from its own mosaic block alone: two frames that
    hold the same four samples in block [(x, y)] give the same three bytes
    for pixel [(x, y)], whatever the rest of the frames holds. *)
Theorem debayer_pixel_depends_on_own_block `{G : Geometry}
    (junk1 junk2 : nat → Z) (buffer1 buffer2 image1 image2 : list Z) (x y : Z) :
  0 < WIDTH → 0 < HEIGHT → in_frame x y →
  (∀ c, c ∈ RG10_colors →
     load buffer1 (RG10_LOCATION x y c) = load buffer2 (RG10_LOCATION x y c)) →
  debayer junk1 buffer1 = Some image1 → debayer junk2 buffer2 = Some image2 →
  ∀ c, c ∈ RGB_colors →
    load image1 (RGB_LOCATION x y c) = load image2 (RGB_LOCATION x y c).
Proof.
  intros HW HH Hxy Hblock [_ Hdone1]%debayer_Some [_ Hdone2]%debayer_Some; [|done..].
  destruct (Hdone1 x y Hxy) as (r1 & g1 & b1 & Hr1 & Hg1 & Hb1 & Lr1 & Lg1 & Lb1).
  destruct (Hdone2 x y Hxy) as (r2 & g2 & b2 & Hr2 & Hg2 & Hb2 & Lr2 & Lg2 & Lb2).
  unfold debayer_red, debayer_green, debayer_blue in *.
  rewrite (Hblock RG10_R) in Hr1 by apply RG10_R_color.
  rewrite (Hblock RG10_B) in Hb1 by apply RG10_B_color.
  rewrite (Hblock RG10_Gb), (Hblock RG10_Gr) in Hg1 by (apply RG10_Gb_color || apply RG10_Gr_color).
  intros c [->| [->| ->]]%elem_of_RGB_colors.
  - change 0 with RGB_B. congruence.
  - change 1 with RGB_G. congruence.
  - change 2 with RGB_R. congruence.
Qed.

Lemma debayer_pixel_depends_on_own_block_witness :
  load [4; 7; 2; 99; 99; 74] (@RGB_LOCATION (Build_Geometry 2 1) 0 0 RGB_G) =
  load [4; 7; 2; 0; 0; 0] (@RGB_LOCATION (Build_Geometry 2 1) 0 0 RGB_G).
Proof.
  apply (@debayer_pixel_depends_on_own_block (Build_Geometry 2 1) (λ _, 0) (λ _, 0)
           [10; 20; 300; 400; 40; 20; 400; 400] [10; 20; 0; 0; 40; 20; 0; 0]
           [4; 7; 2; 99; 99; 74] [4; 7; 2; 0; 0; 0] 0 0);
    [reflexivity|reflexivity|done| |by vm_compute|by vm_compute|set_solver].
  intros c [->| [->| [->| ->]]]%(@elem_of_RG10_colors (Build_Geometry 2 1)); reflexivity.
Defined.

(** The bit-depth reduction [NORM] of the demosaicer keeps the order of the
    values it is defined on, sends only the values up to 4 to 0 and only
    the values from 1023 on to 255, and reaches every byte value from a
    ten-bit sample. *)
Theorem NORM_monotone_onto (v w b : Z) :
  0 ≤ v ≤ w → w ≤ 1027 → 0 ≤ b ≤ 255 →
  (∃ p q, float_to_uint8 (NORM v) = Some p ∧ float_to_uint8 (NORM w) = Some q ∧
          p ≤ q ∧ (p = 0 ↔ v ≤ 4) ∧ (q = 255 ↔ 1023 ≤ w)) ∧
  (∃ u, 0 ≤ u ≤ 1023 ∧ float_to_uint8 (NORM u) = Some b).
Proof.
  intros Hv Hw Hb. split.
  - exists (scale_exact v), (scale_exact w).
    rewrite !NORM_headroom by lia. split_and!; [done..| | |].
    + unfold scale_exact. change MAX_RGB with 255. change MAX_RG10 with 1023.
      apply Z.div_le_mono; lia.
    + unfold scale_exact. change MAX_RGB with 255. change MAX_RG10 with 1023.
      pose proof (Z.div_mod (v * 255) 1023 ltac:(lia)).
      pose proof (Z.mod_pos_bound (v * 255) 1023 ltac:(lia)). lia.
    + unfold scale_exact. change MAX_RGB with 255. change MAX_RG10 with 1023.
      pose proof (Z.div_mod (w * 255) 1023 ltac:(lia)).
      pose proof (Z.mod_pos_bound (w * 255) 1023 ltac:(lia)). lia.
  - pose proof (Z.div_mod (b * 1023 + 254) 255 ltac:(lia)) as Hdm.
    pose proof (Z.mod_pos_bound (b * 1023 + 254) 255 ltac:(lia)) as Hmod.
    set (u := (b * 1023 + 254) `div` 255) in *.
    assert (0 ≤ u ≤ 1023) as Hu by lia.
    exists u. split; [done|]. rewrite NORM_exact by done. f_equal.
    unfold scale_exact. change MAX_RGB with 255. change MAX_RG10 with 1023.
    symmetry. apply Z.div_unique with (u * 255 - 1023 * b). lia. lia.
Qed.

Lemma NORM_monotone_onto_witness :
  ∃ u, 0 ≤ u ≤ 1023 ∧ float_to_uint8 (NORM u) = Some 128.
Proof.
  apply (NORM_monotone_onto 100 200 128); lia.
Defined.

(** ** The passes and the size of the buffer *)

Section WholeFrame.
Context `{G : Geometry}.
Hypothesis WIDTH_pos : 0 < WIDTH.
Hypothesis HEIGHT_pos : 0 < HEIGHT.

(** The scan has loaded every sample slot of the frame when it returns. *)
Lemma min_max_frame_loads (buffer : list Z) (mm : Z * Z) :
  min_max_frame buffer = Some mm → RG10_SAMPLES ≤ Z.of_nat (length buffer).
Proof using WIDTH_pos HEIGHT_pos.
  intros Hrun.
  cut (∀ i, handled 0 HEIGHT i → i < Z.of_nat (length buffer)).
  { intros Hall. specialize (Hall (RG10_SAMPLES - 1)).
    cut (RG10_SAMPLES - 1 < Z.of_nat (length buffer)); [lia|].
    apply Hall, handled_end; [done|]. unfold RG10_SAMPLES, RG10_COLORS. nia. }
  unfold min_max_frame in Hrun.
  pose proof (for_each_pixel_partial (Z.lt_le_incl _ _ WIDTH_pos) (Z.lt_le_incl _ _ HEIGHT_pos)
                (λ x y (_ : Z * Z), ∀ i, handled x y i → i < Z.of_nat (length buffer))
                (min_max_step buffer) (65535, 0) mm) as Hinv.
  simpl in Hinv. apply Hinv; [| | |done].
  - intros i Hi. by apply handled_start in Hi.
  - intros x y s s' Hxy Hold Hstep i Hi. unfold min_max_step in Hstep.
    apply bind_Some in Hstep as (Gb & HGb%load_Some & Hstep).
    apply bind_Some in Hstep as (Gr & HGr%load_Some & Hstep).
    apply bind_Some in Hstep as (B & HB%load_Some & Hstep).
    apply bind_Some in Hstep as (R & HR%load_Some & _).
    apply handled_next in Hi as [Hi| [->| [->| [->| ->]]]]; [by apply Hold|lia..|done].
  - intros y s Hy Hold i Hi. by apply Hold, handled_next_row.
Qed.

(** The demosaicer has loaded every sample slot of the frame when it
    returns. *)
Lemma debayer_loads (junk : nat → Z) (buffer image : list Z) :
  debayer junk buffer = Some image → RG10_SAMPLES ≤ Z.of_nat (length buffer).
Proof using WIDTH_pos HEIGHT_pos.
  intros [_ Hdone]%debayer_Some; [|done..].
  destruct (Hdone (WIDTH - 1) (HEIGHT - 1)) as (r & g & b & _ & _ & Hb & _).
  { unfold in_frame. lia. }
  unfold debayer_blue in Hb. apply bind_Some in Hb as (B & HB%load_Some & _).
  rewrite RG10_LOCATION_row in HB.
  unfold RG10_B, RG10_Gb, RG10_COLOR_SIZE, RG10_SAMPLES, RG10_COLORS in *. nia.
Qed.
End WholeFrame.

(** None of the passes checks the size of the buffer it is given: on a
    buffer that holds fewer samples than a frame the scan for the
    extremes, the normalization and the demosaicer all read past its end,
    which is undefined. *)
Theorem passes_need_whole_frame `{G : Geometry} (junk : nat → Z) (buffer : list Z) :
  0 < WIDTH → 0 < HEIGHT → Z.of_nat (length buffer) < WIDTH * HEIGHT * 4 →
  min_max_frame buffer = None ∧ normalize_frame buffer = None ∧
  debayer junk buffer = None.
Proof.
  intros HW HH Hshort.
  assert (min_max_frame buffer = None) as Hscan.
  { destruct (min_max_frame buffer) as [mm|] eqn:Hrun; [|done].
    apply (min_max_frame_loads HW HH) in Hrun. unfold RG10_SAMPLES, RG10_COLORS in Hrun. lia. }
  split_and!; [done| |].
  - unfold normalize_frame. by rewrite Hscan.
  - destruct (debayer junk buffer) as [image|] eqn:Hrun; [|done].
    apply (debayer_loads HW HH) in Hrun. unfold RG10_SAMPLES, RG10_COLORS in Hrun. lia.
Qed.

Lemma passes_need_whole_frame_witness :
  @debayer one_block (λ _, 0) [1023; 0; 1023] = None.
Proof.
  apply (@passes_need_whole_frame one_block (λ _, 0) [1023; 0; 1023]); reflexivity.
Defined.

(** ** The header written by [write_tga] *)

(** The header holds the low 16 bits of each dimension: what a reader
    finds in it is the width and the height modulo 65536, so a dimension of
    65536 or more is not recorded as it is. *)
Theorem tga_header_keeps_16_bits `{G : Geometry} :
  0 ≤ WIDTH → 0 ≤ HEIGHT →
  length tga_header = 18%nat ∧
  tga_dimensions tga_header = Some (WIDTH `mod` 65536, HEIGHT `mod` 65536).
Proof.
  intros HW HH. rewrite tga_header_bytes. split; [done|].
  unfold tga_dimensions. simpl.
  assert (∀ n, Z.land 255 n + 256 * Z.land 255 (Z.shiftr n 8) = n `mod` 65536) as Hfield.
  { intros n. rewrite !(Z.land_comm 255). change 255 with (Z.ones 8).
    rewrite !Z.land_ones, Z.shiftr_div_pow2 by lia. change (2 ^ 8) with 256.
    change 65536 with (256 * 256). by rewrite Z.rem_mul_r by lia. }
  by rewrite !Hfield.
Qed.

Lemma tga_header_keeps_16_bits_witness :
  tga_dimensions (@tga_header (Build_Geometry 65537 1080)) = Some (1, 1080).
Proof.
  apply (@tga_header_keeps_16_bits (Build_Geometry 65537 1080)); simpl; lia.
Defined.

(** ** The mosaic *)

(** The frame is the sensor grid of [2 * WIDTH] columns stored row by row,
    and the location macro follows the RGGB pattern on it: the slot of
    position [c] of block [(x, y)] lies in sensor row [2 y] or [2 y + 1]
    and sensor column [2 x] or [2 x + 1]; it is the red position exactly
    when row and column are even, the green of the red row when the row is
    even and the column odd, the green of the blue row when the row is odd
    and the column even, and the blue position when both are odd. *)
Theorem RG10_LOCATION_follows_RGGB `{G : Geometry} (x y c : Z) :
  0 < WIDTH → in_frame x y → c ∈ RG10_colors →
  let row := RG10_LOCATION x y c `div` (2 * WIDTH) in
  let column := RG10_LOCATION x y c `mod` (2 * WIDTH) in
  row `div` 2 = y ∧ column `div` 2 = x ∧
  (c = RG10_R ↔ row `mod` 2 = 0 ∧ column `mod` 2 = 0) ∧
  (c = RG10_Gr ↔ row `mod` 2 = 0 ∧ column `mod` 2 = 1) ∧
  (c = RG10_Gb ↔ row `mod` 2 = 1 ∧ column `mod` 2 = 0) ∧
  (c = RG10_B ↔ row `mod` 2 = 1 ∧ column `mod` 2 = 1).
Proof.
  intros HW [Hx Hy] Hc row column.
  assert (∃ cr cc, 0 ≤ cr ≤ 1 ∧ 0 ≤ cc ≤ 1 ∧ c = cr * (2 * WIDTH) + cc)
    as (cr & cc & Hcr & Hcc & ->).
  { apply elem_of_RG10_colors in Hc as [->| [->| [->| ->]]];
      [exists 0, 0|exists 0, 1|exists 1, 0|exists 1, 1]; lia. }
  assert (row = 2 * y + cr ∧ column = 2 * x + cc) as [-> ->].
  { subst row column. rewrite RG10_LOCATION_row.
    replace (y * (4 * WIDTH) + (2 * x + (cr * (2 * WIDTH) + cc)))
      with ((2 * x + cc) + (2 * y + cr) * (2 * WIDTH)) by lia.
    rewrite Z.div_add, Z.mod_add, Z.div_small, Z.mod_small by lia. lia. }
  rewrite !(Z.add_comm (2 * _)), !(Z.mul_comm 2), !Z.div_add, !Z.mod_add by lia.
  rewrite !Z.div_small, !Z.mod_small by lia.
  unfold RG10_B, RG10_Gb, RG10_Gr, RG10_R, RG10_COLOR_SIZE.
  assert (cr = 0 ∨ cr = 1) as [-> | ->] by lia;
    assert (cc = 0 ∨ cc = 1) as [-> | ->] by lia; lia.
Qed.

Lemma RG10_LOCATION_follows_RGGB_witness :
  (@RG10_LOCATION IMX477 5 7 (@RG10_B IMX477) `div` (2 * 1920)) `div` 2 = 7.
Proof.
  apply (@RG10_LOCATION_follows_RGGB IMX477 5 7 (@RG10_B IMX477));
    [reflexivity|done|apply RG10_B_color].
Defined.

(** ** The whole of [main] *)

Section CompleteFile.
Context `{G : Geometry}.

(** A file that holds a whole frame fills the block: nothing of what
    [malloc] left there remains. *)
Lemma frame_of_file_complete (junk junk' : nat → Z) (content : list Z) :
  RG10_SIZE ≤ Z.of_nat (length content) →
  frame_of_file junk content = frame_of_file junk' content.
Proof.
  intros Hlen. unfold frame_of_file. rewrite length_take.
  rewrite !drop_ge; [done|..]; unfold malloc; rewrite length_fmap, length_seq; lia.
Qed.
End CompleteFile.

(** What [main] does with an input file that can be opened when the output
    can be written, whatever the length of the file.  If the frame read
    holds two different samples the run is defined: [main] returns 0 and
    the output file is the 18-byte header followed by an image of
    [WIDTH * HEIGHT * 3] bytes (normalization brings every sample into the
    range the demosaicer is defined on).  If all samples of the frame are
    equal the run meets undefined behaviour in the normalization; nothing
    is stated about what such a run does afterwards. *)
Theorem main_runs_iff_frame_not_uniform `{G : Geometry}
    (argv1 argv2 : string) (content : list Z) (σ : os_state) :
  0 < WIDTH → 0 < HEIGHT →
  disk σ !! argv1 = Some content → Forall (λ b, 0 ≤ b ≤ 255) content →
  argv2 ∉ write_denied σ →
  ∃ frame,
    read_file argv1 σ = (Done frame, σ) ∧
    ((∃ v w, v ∈ frame ∧ w ∈ frame ∧ v ≠ w) →
       ∃ image,
         main argv1 argv2 σ = (Done 0, with_file σ argv2 (tga_header ++ image)) ∧
         Z.of_nat (length image) = WIDTH * HEIGHT * 3 ∧
         Forall (λ b, 0 ≤ b ≤ 255) image) ∧
    ((∃ v, Forall (λ s, s = v) frame) → (main argv1 argv2 σ).1 = Undef).
Proof.
  intros HW HH Hfile Hbytes Hout.
  set (frame := frame_of_file (heap_junk σ) content).
  assert (frame_shaped frame) as Hshape by (apply frame_of_file_shaped; lia).
  assert (uint16_samples frame) as Hu16 by by apply frame_of_file_uint16.
  exists frame. split_and!.
  - by apply read_file_Done.
  - intros (v & w & Hv & Hw & Hne).
    destruct (min_max_frame_spec HW HH frame Hshape Hu16) as (min & max & _ & Hmm).
    destruct (frame_min_max_bounds frame min max Hu16 Hmm) as (_ & _ & _ & Hall).
    pose proof (Hall v Hv). pose proof (Hall w Hw).
    destruct (normalize_frame_spec HW HH frame min max)
      as (normalized & Hnorm & Hlen & _ & Hrange & _); [done..|lia|].
    destruct (debayer_ten_bit HW HH (heap_junk σ) normalized) as (image & Hrun & Himage & _).
    { unfold frame_shaped in *. lia. }
    { done. }
    exists image. split_and!.
    + by apply main_Done with content normalized.
    + unfold image_shaped, RGB_SIZE, RGB_COLORS, RGB_COLOR_SIZE in Himage. lia.
    + by apply (debayer_bytes HW HH (heap_junk σ) normalized).
  - intros (v & Hall).
    destruct (normalize_frame_uniform HW HH frame v) as [_ Hnone]; [done| |done|].
    { destruct (frame_load frame 0 0 RG10_R) as (s & _ & Hs);
        [done|unfold in_frame; lia|apply RG10_R_color|].
      unfold uint16_samples in Hu16. rewrite Forall_forall in Hu16, Hall.
      rewrite <- (Hall s Hs). by apply Hu16. }
    unfold main, mbind, proc_bind. rewrite (read_file_Done _ content) by done.
    fold frame. unfold defined. by rewrite Hnone.
Qed.

Lemma main_runs_iff_frame_not_uniform_witness :
  @main one_block "in.raw" "out.tga" (scenario [7; 0; 7]) =
    (Done 0, with_file (scenario [7; 0; 7]) "out.tga"
               ([0; 0; 2; 0; 0; 0; 0; 0; 0; 0; 0; 0; 1; 0; 1; 0; 24; 32] ++ [0; 127; 255])).
Proof.
  destruct (@main_runs_iff_frame_not_uniform one_block "in.raw" "out.tga" [7; 0; 7]
              (scenario [7; 0; 7]))
    as (frame & Hread & Hrun & _);
    [reflexivity|reflexivity|reflexivity|repeat constructor; lia|set_solver|].
  injection Hread as <-.
  destruct Hrun as (image & Hmain & _).
  { exists 7, 0. split_and!; [by vm_compute; set_solver..|lia]. }
  rewrite Hmain. by vm_compute.
Defined.

(** When the input file holds a whole frame, nothing that [main] does
    depends on what the memory returned by [malloc] holds: two runs in
    systems that differ only there end the same way and leave the same
    files and the same output on the error stream. *)
Theorem main_ignores_uninitialised_memory `{G : Geometry}
    (argv1 argv2 : string) (content : list Z) (σ1 σ2 : os_state) :
  0 < WIDTH → 0 < HEIGHT →
  disk σ1 !! argv1 = Some content → RG10_SIZE ≤ Z.of_nat (length content) →
  disk σ2 = disk σ1 → write_denied σ2 = write_denied σ1 → stderr σ2 = stderr σ1 →
  (main argv1 argv2 σ2).1 = (main argv1 argv2 σ1).1 ∧
  disk (main argv1 argv2 σ2).2 = disk (main argv1 argv2 σ1).2 ∧
  stderr (main argv1 argv2 σ2).2 = stderr (main argv1 argv2 σ1).2.
Proof.
  intros HW HH Hfile Hwhole Hdisk Hdenied Herr.
  assert (disk σ2 !! argv1 = Some content) as Hfile2 by by rewrite Hdisk.
  unfold main, mbind, proc_bind.
  rewrite (read_file_Done _ content σ1), (read_file_Done _ content σ2) by done.
  rewrite (frame_of_file_complete (heap_junk σ2) (heap_junk σ1)) by done.
  unfold defined, get_junk.
  destruct (normalize_frame _) as [frame|]; [|done].
  rewrite (debayer_junk_irrelevant HW HH (heap_junk σ2) (heap_junk σ1)).
  destruct (debayer _ frame) as [image|] eqn:Hrun; [|done].
  destruct (debayer_Some HW HH _ _ _ Hrun) as [Hshape _].
  destruct (decide (argv2 ∈ write_denied σ1)) as [Hin|Hout].
  - rewrite !write_tga_Exit by (done || by rewrite Hdenied). simpl. by rewrite Hdisk, Herr.
  - rewrite !write_tga_Done by (done || by rewrite Hdenied). simpl. by rewrite Hdisk, Herr.
Qed.

Lemma main_ignores_uninitialised_memory_witness :
  (@main one_block "in.raw" "out.tga"
     {| disk := {[ "in.raw" := [255; 3; 0; 0; 255; 3; 0; 0] ]}; write_denied := ∅;
        heap_junk := λ _, 165; stderr := [] |}).1 = Done 0.
Proof.
  destruct (@main_ignores_uninitialised_memory one_block "in.raw" "out.tga"
              [255; 3; 0; 0; 255; 3; 0; 0] (scenario [255; 3; 0; 0; 255; 3; 0; 0])
              {| disk := {[ "in.raw" := [255; 3; 0; 0; 255; 3; 0; 0] ]}; write_denied := ∅;
                 heap_junk := λ _, 165; stderr := [] |})
    as (Hresult & _); [reflexivity|reflexivity|reflexivity|by vm_compute|reflexivity..|].
  rewrite Hresult. by vm_compute.
Defined.

(** The bytes of the image follow the 18 bytes of the header. *)
Lemma load_after_header `{G : Geometry} (image : list Z) (j : Z) :
  0 ≤ j → load (tga_header ++ image) (18 + j) = load image j.
Proof.
  intros Hj. unfold load. rewrite !decide_True by lia.
  replace (Z.to_nat (18 + j)) with (length tga_header + Z.to_nat j)%nat
    by (rewrite tga_header_bytes; simpl length; lia).
  by rewrite lookup_app_r, Nat.add_sub' by lia.
Qed.

(** From the input file to the output file.  When the frame read has the
    extremes [min < max], the three bytes of pixel [(x, y)] in the file
    that [main] writes, from offset [18 + 3 * (y * WIDTH + x)] on, are
    computed from the four samples of block [(x, y)] alone: each sample is
    first replaced by its normalized value (the rounded single-precision
    product with [1023 / (max - min)]), and the byte is that value times
    255/1023 with the fraction dropped; blue comes first, then green (from
    the halved sum of the two normalized greens), then red. *)
Theorem main_output_pixels `{G : Geometry}
    (argv1 argv2 : string) (content frame : list Z) (σ : os_state) (min max x y : Z) :
  0 < WIDTH → 0 < HEIGHT →
  disk σ !! argv1 = Some content → Forall (λ b, 0 ≤ b ≤ 255) content →
  argv2 ∉ write_denied σ →
  read_file argv1 σ = (Done frame, σ) →
  frame_min_max frame min max → min < max → in_frame x y →
  ∃ file R Gr Gb B r gr gb b,
    main argv1 argv2 σ = (Done 0, with_file σ argv2 file) ∧
    load frame (RG10_LOCATION x y RG10_R) = Some R ∧
    load frame (RG10_LOCATION x y RG10_Gr) = Some Gr ∧
    load frame (RG10_LOCATION x y RG10_Gb) = Some Gb ∧
    load frame (RG10_LOCATION x y RG10_B) = Some B ∧
    normalize_sample min (frame_mult min max) R = Some r ∧
    normalize_sample min (frame_mult min max) Gr = Some gr ∧
    normalize_sample min (frame_mult min max) Gb = Some gb ∧
    normalize_sample min (frame_mult min max) B = Some b ∧
    load file (18 + 3 * (y * WIDTH + x)) = Some ((b * 255) `div` 1023) ∧
    load file (18 + 3 * (y * WIDTH + x) + 1) = Some (((gr + gb) `div` 2 * 255) `div` 1023) ∧
    load file (18 + 3 * (y * WIDTH + x) + 2) = Some ((r * 255) `div` 1023).
Proof.
  intros HW HH Hfile Hbytes Hout Hread Hmm Hlt Hxy.
  rewrite (read_file_Done _ content) in Hread by done. injection Hread as Hframe.
  assert (frame_shaped frame) as Hshape by (subst frame; apply frame_of_file_shaped; lia).
  assert (uint16_samples frame) as Hu16 by (subst frame; by apply frame_of_file_uint16).
  destruct (normalize_frame_spec HW HH frame min max)
    as (normalized & Hnorm & Hlen & Hrep & Hrange & _); [done..|].
  destruct (debayer_ten_bit HW HH (heap_junk σ) normalized)
    as (image & Hrun & Himage & Hpix); [unfold frame_shaped in *; lia|done|].
  destruct (Hpix x y Hxy) as (r & gr & gb & b & Hr & Hgr & Hgb & Hb & Lr & Lb & Lg).
  destruct (frame_load frame x y RG10_R) as (R & HR & _); [done..|apply RG10_R_color|].
  destruct (frame_load frame x y RG10_Gr) as (Gr & HGr & _); [done..|apply RG10_Gr_color|].
  destruct (frame_load frame x y RG10_Gb) as (Gb & HGb & _); [done..|apply RG10_Gb_color|].
  destruct (frame_load frame x y RG10_B) as (B & HB & _); [done..|apply RG10_B_color|].
  destruct (Hrep _ R HR) as (r' & Hr' & HRr & _).
  destruct (Hrep _ Gr HGr) as (gr' & Hgr' & HGrgr & _).
  destruct (Hrep _ Gb HGb) as (gb' & Hgb' & HGbgb & _).
  destruct (Hrep _ B HB) as (b' & Hb' & HBb & _).
  assert (r' = r) as -> by congruence. assert (gr' = gr) as -> by congruence.
  assert (gb' = gb) as -> by congruence. assert (b' = b) as -> by congruence.
  exists (tga_header ++ image), R, Gr, Gb, B, r, gr, gb, b.
  split_and!; [|done..| | |].
  - apply main_Done with content normalized; [done..|by rewrite Hframe|done|done].
  - rewrite load_after_header by (destruct Hxy; nia).
    etrans; [|exact Lb]. f_equal. rewrite RGB_LOCATION_pixel. unfold RGB_B. lia.
  - rewrite <- Z.add_assoc, load_after_header by (destruct Hxy; nia).
    etrans; [|exact Lg]. f_equal. rewrite RGB_LOCATION_pixel. unfold RGB_G. lia.
  - rewrite <- Z.add_assoc, load_after_header by (destruct Hxy; nia).
    etrans; [|exact Lr]. f_equal. rewrite RGB_LOCATION_pixel. unfold RGB_R. lia.
Qed.

Lemma main_output_pixels_witness :
  ∃ file,
    @main one_block "in.raw" "out.tga" (scenario [30; 0; 30; 0; 0; 0; 15; 0]) =
      (Done 0, with_file (scenario [30; 0; 30; 0; 0; 0; 15; 0]) "out.tga" file) ∧
    load file 18 = Some 127 ∧ load file 19 = Some 127 ∧ load file 20 = Some 255.
Proof.
  destruct (@main_output_pixels one_block "in.raw" "out.tga" [30; 0; 30; 0; 0; 0; 15; 0]
              [30; 30; 0; 15] (scenario [30; 0; 30; 0; 0; 0; 15; 0]) 0 30 0 0)
    as (file & R & Gr & Gb & B & r & gr & gb & b & Hmain & HR & HGr & HGb & HB
          & Hr & Hgr & Hgb & Hb & Lb & Lg & Lr);
    [reflexivity|reflexivity|reflexivity|repeat constructor; lia|set_solver|reflexivity
    | |lia|done|].
  { split_and!; [set_solver..|]. repeat constructor; lia. }
  injection HR as <-. injection HGr as <-. injection HGb as <-. injection HB as <-.
  vm_compute in Hr, Hgr, Hgb, Hb.
  injection Hr as <-. injection Hgr as <-. injection Hgb as <-. injection Hb as <-.
  exists file. split_and!; [exact Hmain|exact Lb|exact Lg|exact Lr].
Defined.
